(** * Reconciliation and batched-write engine of [data_management.py]

    A shallow embedding of the storagetooling synchronisation job: the
    record normaliser, the reference-table cache, the statement builders
    of the batched writer and the three reconciliation passes, followed
    by the properties of the specification that they decide. *)

From Stdlib Require Import ZArith Ascii String List Lia Bool.
From stdpp Require Import base gmap strings list pretty.

Local Open Scope string_scope.
Local Open Scope list_scope.
Local Open Scope Z_scope.

(** ** Python text *)

Module Py.

(** The apostrophe, the carriage return and line feed of ["\r\n"], and the
    double quote that two statements of the job carry. *)
Definition apostrophe : ascii := "'"%char.
Definition CRLF : string :=
  String (ascii_of_nat 13) (String (ascii_of_nat 10) EmptyString).
Definition DQUOTE : string := String (ascii_of_nat 34) EmptyString.

(** [len(s)] *)
Definition len (s : string) : Z := Z.of_nat (String.length s).

(** ["'" in s] *)
Fixpoint has_apostrophe (s : string) : bool :=
  match s with
  | EmptyString => false
  | String c r => if Ascii.eqb c apostrophe then true else has_apostrophe r
  end.

(** [s.replace("'", "''")] *)
Fixpoint double_apostrophes (s : string) : string :=
  match s with
  | EmptyString => EmptyString
  | String c r =>
      if Ascii.eqb c apostrophe
      then String apostrophe (String apostrophe (double_apostrophes r))
      else String c (double_apostrophes r)
  end.

(** [sub in s] for a text [sub] *)
Fixpoint contains (sub s : string) : bool :=
  if String.prefix sub s then true
  else match s with
       | EmptyString => false
       | String _ r => contains sub r
       end.

(** [s[:stop]], with Python's reading of a negative or too large [stop]. *)
Definition slice_to (s : string) (stop : Z) : string :=
  let n := len s in
  let stop' := if stop <? 0 then Z.max 0 (n + stop) else Z.min stop n in
  substring 0 (Z.to_nat stop') s.

(** [s[start:]] for a negative [start]: the tail of [s] of that length. *)
Definition slice_from_end (s : string) (k : nat) : string :=
  substring (String.length s - k) k s.

(** [sep.join(l)] *)
Fixpoint join (sep : string) (l : list string) : string :=
  match l with
  | [] => EmptyString
  | [x] => x
  | x :: r => x +:+ sep +:+ join sep r
  end.

(** The texts of [l] appended one after the other, as [+=] does. *)
Fixpoint concat_all (l : list string) : string :=
  match l with
  | [] => EmptyString
  | x :: r => x +:+ concat_all r
  end.

(** [s.split(',')] *)
Fixpoint split_comma_aux (cur : string) (s : string) : list string :=
  match s with
  | EmptyString => [cur]
  | String c r =>
      if Ascii.eqb c ","%char then cur :: split_comma_aux EmptyString r
      else split_comma_aux (cur +:+ String c EmptyString) r
  end.
Definition split_comma (s : string) : list string :=
  split_comma_aux EmptyString s.

(** The exceptions the job can meet.  Every handler of the module is
    [except ResourceWarning]; anything else leaves the function. *)
Inductive exn :=
| ResourceWarning
| KeyError (key : string)
| IndexError
| TypeError
| AttributeError (name : string)
| ZeroDivisionError
| UnboundLocalError (name : string)
| SystemExit (msg : string)
| DatabaseError.

Inductive result (A : Type) :=
| Ok (a : A)
| Raise (e : exn).
Arguments Ok {A} a.
Arguments Raise {A} e.

Definition bind {A B} (r : result A) (k : A -> result B) : result B :=
  match r with
  | Ok a => k a
  | Raise e => Raise e
  end.

(** A [dict] keeps the order in which its keys were first set. *)
Definition dict (V : Type) := list (string * V).

Definition keys {V} (d : dict V) : list string := map fst d.

Fixpoint lookup_key {V} (k : string) (d : dict V) : option V :=
  match d with
  | [] => None
  | (k', v) :: r => if String.eqb k k' then Some v else lookup_key k r
  end.

(** [k in d.keys()] *)
Definition has_key {V} (k : string) (d : dict V) : bool :=
  match lookup_key k d with Some _ => true | None => false end.

(** [d[k]] *)
Definition getitem {V} (d : dict V) (k : string) : result V :=
  match lookup_key k d with
  | Some v => Ok v
  | None => Raise (KeyError k)
  end.

(** [d[k] = v] *)
Fixpoint setitem {V} (d : dict V) (k : string) (v : V) : dict V :=
  match d with
  | [] => [(k, v)]
  | (k', v') :: r =>
      if String.eqb k k' then (k', v) :: r else (k', v') :: setitem r k v
  end.

(** [l[0]] *)
Definition first {A} (l : list A) : result A :=
  match l with
  | x :: _ => Ok x
  | [] => Raise IndexError
  end.

End Py.

Import Py.

Notation "'let*' x ':=' c 'in' k" := (Py.bind c (fun x => k))
  (at level 10, x name, c at level 100, k at level 200).

(** ** Records, statements and the store connection *)

(** A formatted record and a row read from the store: column name to text. *)
Definition row := dict string.

(** What [asyncio.gather(..., return_exceptions=True)] hands back for one
    coroutine: the dictionary it returned or the exception it raised. *)
Inductive pyobj :=
| Dict (d : row)
| ExcObj (e : exn).

(** A field of a raw switchport record: text, or the list of active zones. *)
Inductive pyval :=
| PyStr (s : string)
| PyList (l : list string).

(** The statements the job sends, kept in the pieces the source joins. *)
Inductive sql :=
| Truncate (table : string)
| Insert (table : string) (column_insert value_insert : list string)
| InsertBlock (table : string) (column_insert : list string)
    (rows : list (list string))
| Update (table : string) (updates : row) (where_clause : string)
| UpdateTracking (data_label current_datetime : string)
| SelectAll (table : string)
| SelectActiveZones
| SelectRunId (formatted_datetime : string).

Definition database : string := "storagetooling".

(** [f'INSERT INTO [dbo].[{table_name}] ({formated_column_insert}) VALUES'] *)
Definition insert_head (table formated_column_insert : string) : string :=
  "INSERT INTO [dbo].[" +:+ table +:+ "] (" +:+ formated_column_insert
  +:+ ") VALUES".

(** [f"({formated_value_insert}),\r\n"] *)
Definition block_line (value_insert : list string) : string :=
  "(" +:+ join "," value_insert +:+ ")," +:+ CRLF.

(** [f"[{column}] = '{value}'\r\n"] *)
Definition update_item (cv : string * string) : string :=
  "[" +:+ fst cv +:+ "] = '" +:+ snd cv +:+ "'" +:+ CRLF.

(** The text handed to [cursor.execute]. *)
Definition statement_text (q : sql) : string :=
  match q with
  | Truncate table => "TRUNCATE TABLE [dbo].[" +:+ table +:+ "]"
  | Insert table column_insert value_insert =>
      insert_head table (join "," column_insert)
      +:+ "(" +:+ join "," value_insert +:+ ")"
  | InsertBlock table column_insert rows =>
      slice_to (insert_head table (join "," column_insert) +:+ CRLF
                +:+ concat_all (map block_line rows)) (-3)
  | Update table updates where_clause =>
      "UPDATE [dbo].[" +:+ table +:+ "]" +:+ CRLF +:+ "SET "
      +:+ join "," (map update_item updates) +:+ "WHERE " +:+ where_clause
  | UpdateTracking data_label current_datetime =>
      "UPDATE [dbo].[UpdateTracking] SET [" +:+ data_label +:+ "] = "
      +:+ DQUOTE +:+ current_datetime +:+ DQUOTE
  | SelectAll table =>
      "SELECT * FROM [" +:+ database +:+ "].[dbo].[" +:+ table +:+ "]"
  | SelectActiveZones =>
      "SELECT * FROM [" +:+ database +:+ "].[dbo].[activezones] "
      +:+ "WHERE RunId = '{(storagetooling_tables_cache.run[(len(storagetooling_tables_cache.run)-1)])['ID']}'"
  | SelectRunId formatted_datetime =>
      "SELECT [ID] FROM [" +:+ database +:+ "] +        .[dbo].[RUN] "
      +:+ "WHERE capturedatetime Like " +:+ DQUOTE +:+ formatted_datetime
      +:+ "%" +:+ DQUOTE
  end.

(** What the job does to the connection and to the cache, in order. *)
Inductive event :=
| EvExecute (text : string) (q : sql)
| EvCommit
| EvLookup (table : string)
| EvSetCache (table : string).

(** ** State and exceptions threaded through the job *)

(** A computation over a state [W] that returns or raises; what it did to
    the state before raising stays done. *)
Definition M (W A : Type) := W -> result A * W.

Definition ret {W A} (a : A) : M W A := fun w => (Ok a, w).

Definition raise {W A} (e : exn) : M W A := fun w => (Raise e, w).

Definition lift {W A} (r : result A) : M W A := fun w => (r, w).

Definition mbind {W A B} (c : M W A) (k : A -> M W B) : M W B :=
  fun w =>
    match c w with
    | (Ok a, w') => k a w'
    | (Raise e, w') => (Raise e, w')
    end.

(** [try: c except ResourceWarning: h] *)
Definition try_except {W A} (c h : M W A) : M W A :=
  fun w =>
    match c w with
    | (Raise ResourceWarning, w') => h w'
    | other => other
    end.

(** [for x in l: body x] *)
Fixpoint for_each {W A} (l : list A) (body : A -> M W unit) : M W unit :=
  match l with
  | [] => ret tt
  | x :: r => mbind (body x) (fun _ => for_each r body)
  end.

Notation "'let!' x ':=' c 'in' k" := (mbind c (fun x => k))
  (at level 10, x name, c at level 100, k at level 200).
Notation "c ';;' k" := (mbind c (fun _ => k))
  (at level 100, k at level 200, right associativity).

(** The module-level objects and the connection. [storage_data_object]
    holds the three fetched sources, [storagetooling_tables_cache] one
    attribute per cached table. *)
Record World (St : Type) := mkWorld {
  conn : St;
  tables_cache : gmap string (list row);
  customers : list row;
  stacks : list row;
  sannav : list (dict pyval);
  activezone_object_id_table_dict_list : list (list string);
  clock : list string;
  trace : list event }.
Arguments mkWorld {St}.
Arguments conn {St}.
Arguments tables_cache {St}.
Arguments customers {St}.
Arguments stacks {St}.
Arguments sannav {St}.
Arguments activezone_object_id_table_dict_list {St}.
Arguments clock {St}.
Arguments trace {St}.

Definition set_conn {St} (s : St) (w : World St) : World St :=
  mkWorld s (tables_cache w) (customers w) (stacks w) (sannav w)
    (activezone_object_id_table_dict_list w) (clock w) (trace w).

Definition set_tables_cache {St} (c : gmap string (list row))
    (w : World St) : World St :=
  mkWorld (conn w) c (customers w) (stacks w) (sannav w)
    (activezone_object_id_table_dict_list w) (clock w) (trace w).

Definition set_sannav {St} (l : list (dict pyval)) (w : World St)
    : World St :=
  mkWorld (conn w) (tables_cache w) (customers w) (stacks w) l
    (activezone_object_id_table_dict_list w) (clock w) (trace w).

Definition set_activezone_list {St} (l : list (list string))
    (w : World St) : World St :=
  mkWorld (conn w) (tables_cache w) (customers w) (stacks w) (sannav w)
    l (clock w) (trace w).

Definition set_clock {St} (l : list string) (w : World St) : World St :=
  mkWorld (conn w) (tables_cache w) (customers w) (stacks w) (sannav w)
    (activezone_object_id_table_dict_list w) l (trace w).

Definition set_trace {St} (t : list event) (w : World St) : World St :=
  mkWorld (conn w) (tables_cache w) (customers w) (stacks w) (sannav w)
    (activezone_object_id_table_dict_list w) (clock w) t.

Definition log {St} (e : event) : M (World St) unit :=
  fun w => (Ok tt, set_trace (trace w ++ [e]) w).

(** [item[key] == value] over the rows of a cached table, as the list
    comprehensions of the module do it. *)
Fixpoint search_rows (key value : string) (rows : list row)
    : result (list row) :=
  match rows with
  | [] => Ok []
  | item :: r =>
      let* v := getitem item key in
      let* rest := search_rows key value r in
      Ok (if String.eqb v value then item :: rest else rest)
  end.

Definition column_written (column : string) : bool :=
  negb (String.eqb column "datecreated" || String.eqb column "ID").

(** The loop of [insert_data_to_table] over [columns_list]: the bracketed
    columns, the quoted values, and [record_dict] with the apostrophes
    of its written values doubled in place. *)
Fixpoint insert_columns_values (columns_list : list string)
    (record_dict : row) (column_insert value_insert : list string)
    : result (list string * list string * row) :=
  match columns_list with
  | [] => Ok (column_insert, value_insert, record_dict)
  | column :: rest =>
      if column_written column then
        let column_insert := column_insert ++ ["[" +:+ column +:+ "]"] in
        let* v := getitem record_dict column in
        let record_dict :=
          if has_apostrophe v
          then setitem record_dict column (double_apostrophes v)
          else record_dict in
        let* v' := getitem record_dict column in
        insert_columns_values rest record_dict column_insert
          (value_insert ++ ["'" +:+ v' +:+ "'"])
      else insert_columns_values rest record_dict column_insert value_insert
  end.

(** The first loop of [insert_data_to_table_batch]: the bracketed columns
    of the first record. *)
Definition batch_column_insert (columns_list : list string) : list string :=
  map (fun column => "[" +:+ column +:+ "]")
      (filter (fun column => column_written column = true) columns_list).

(** The inner loop of [insert_data_to_table_batch]: one row of quoted
    values, taken from [entry] as they are. *)
Fixpoint batch_value_insert (columns_list : list string) (entry : pyobj)
    : result (list string) :=
  match columns_list with
  | [] => Ok []
  | column :: rest =>
      if column_written column then
        match entry with
        | Dict d =>
            let* v := getitem d column in
            let* vs := batch_value_insert rest entry in
            Ok (("'" +:+ v +:+ "'") :: vs)
        | ExcObj _ => Raise TypeError
        end
      else batch_value_insert rest entry
  end.

(** [__format_customer_insert_data] *)
Definition __format_customer_insert_data (customer : row) : result row :=
  let* live := getitem customer "L" in
  let status := if String.eqb live "Y" then "1" else "0" in
  let* name := getitem customer "NAME" in
  let customer_name :=
    if has_apostrophe name then double_apostrophes name else name in
  let* id := getitem customer "ID" in
  let* stacknumber := getitem customer "STACKNUMBER" in
  Ok [("contextid", id); ("customer", customer_name);
      ("status", status); ("stackid", stacknumber)].

Definition gathered (r : result row) : pyobj :=
  match r with
  | Ok d => Dict d
  | Raise e => ExcObj e
  end.

(** ** Normalising one raw switchport record *)

(** [sannav_object[key]] for a field the vendor API gives as text. *)
Definition text_field (sannav_object : dict pyval) (key : string)
    : result string :=
  let* v := getitem sannav_object key in
  match v with
  | PyStr s => Ok s
  | PyList _ => Raise TypeError
  end.

(** [for x in v] *)
Definition iterate (v : pyval) : list string :=
  match v with
  | PyList l => l
  | PyStr s => map (fun c => String c EmptyString) (list_ascii_of_string s)
  end.

(** The classification of [connectedDeviceType] into [entitytype]. *)
Definition classify_entitytype (sannav_object : dict pyval)
    : result (dict pyval) :=
  let* connectedDeviceType := text_field sannav_object "connectedDeviceType" in
  if negb (String.eqb connectedDeviceType EmptyString) then
    if String.eqb connectedDeviceType "Initiator"
    then Ok (setitem sannav_object "entitytype" (PyStr "device"))
    else if String.eqb connectedDeviceType "SWITCH"
    then Ok (setitem sannav_object "entitytype" (PyStr "chassis"))
    else if contains "Target" connectedDeviceType
    then Ok (setitem sannav_object "entitytype" (PyStr "storage"))
    else Ok sannav_object
  else Ok sannav_object.

(** [key in sannav_object.keys() and sannav_object[key] != ''] *)
Definition present_and_filled (sannav_object : dict pyval) (key : string)
    : result bool :=
  if has_key key sannav_object then
    let* v := text_field sannav_object key in
    Ok (negb (String.eqb v EmptyString))
  else Ok false.

(** The choice of [device] among [remoteDevice], [remotePort] and
    ['none']. *)
Definition resolve_device (sannav_object : dict pyval) : result string :=
  if has_key "remoteDevice" sannav_object
     && has_key "remotePort" sannav_object
  then
    let* remoteDevice := text_field sannav_object "remoteDevice" in
    if negb (String.eqb remoteDevice EmptyString)
       || negb (String.eqb remoteDevice "localhost")
    then text_field sannav_object "remoteDevice"
    else text_field sannav_object "remotePort"
  else
    let* device_filled := present_and_filled sannav_object "remoteDevice" in
    if device_filled then text_field sannav_object "remoteDevice"
    else
      let* port_filled := present_and_filled sannav_object "remotePort" in
      if port_filled then
        let* remotePort := text_field sannav_object "remotePort" in
        if negb (String.eqb remotePort EmptyString)
        then Ok remotePort else Ok "none"
      else Ok "none".

(** [if len(device) > 50: device = device[:-abs(len(device) - 50)]] *)
Definition truncate_device (device : string) : string :=
  if 50 <? len device then
    let trunk_count := - Z.abs (len device - 50) in
    slice_to device trunk_count
  else device.

Definition source_label (sannav_id_table : string) : string :=
  if String.eqb sannav_id_table "switch"
     || String.eqb sannav_id_table "fabric"
  then sannav_id_table +:+ "Name"
  else sannav_id_table.

(** [[item for item in rows if item['name'] == sannav_object[label]]] *)
Fixpoint search_by_field (rows : list row) (sannav_object : dict pyval)
    (label : string) : result (list row) :=
  match rows with
  | [] => Ok []
  | item :: r =>
      let* name := getitem item "name" in
      let* wanted := text_field sannav_object label in
      let* rest := search_by_field r sannav_object label in
      Ok (if String.eqb name wanted then item :: rest else rest)
  end.

(** [getattr(storagetooling_tables_cache, table)] *)
Definition getattr (cache : gmap string (list row)) (table : string)
    : result (list row) :=
  match cache !! table with
  | Some rows => Ok rows
  | None => Raise (AttributeError table)
  end.

(** The loop over [sannav_common_id_tables]: one identifier column per
    reference table, read from the first cached row of that name. *)
Fixpoint resolve_id_columns (cache : gmap string (list row))
    (sannav_object : dict pyval) (tables : list string)
    (sannaventity_data_formatted : row) : result row :=
  match tables with
  | [] => Ok sannaventity_data_formatted
  | sannav_id_table :: rest =>
      let label := source_label sannav_id_table in
      let* rows := getattr cache sannav_id_table in
      let* search_id_table := search_by_field rows sannav_object label in
      let column_id := label +:+ "id" in
      let* found := first search_id_table in
      let* search_id := getitem found "ID" in
      resolve_id_columns cache sannav_object rest
        (setitem sannaventity_data_formatted column_id search_id)
  end.

(** The loop over [sannav_object['activeZones']]. *)
Fixpoint format_activezones (cache : gmap string (list row))
    (runid entity_id : string) (zones : list string) : result (list row) :=
  match zones with
  | [] => Ok []
  | zone_name :: rest =>
      let* rows := getattr cache "zone" in
      let* zone_id_table := search_rows "name" zone_name rows in
      let* found := first zone_id_table in
      let* zone_id := getitem found "ID" in
      let* others := format_activezones cache runid entity_id rest in
      Ok ([("runid", runid); ("sannaventityid", entity_id);
           ("zoneid", zone_id)] :: others)
  end.

Record formated_records := mkFormated {
  formated_sannav : row;
  formated_activezones : list row }.

Definition sannav_common_id_tables : list string :=
  ["entitytype"; "fabric"; "health"; "status"; "switch"; "zone"].

(** The part of [__format_sannav_insert_data] after the classification,
    on the record as the classification left it. *)
Definition format_classified (cache : gmap string (list row))
    (sannav_object : dict pyval) (runid : string)
    : dict pyval * result formated_records :=
  match resolve_device sannav_object with
  | Raise e => (sannav_object, Raise e)
  | Ok device =>
      let device := truncate_device device in
      match text_field sannav_object "remoteNodeWwn" with
      | Raise e => (sannav_object, Raise e)
      | Ok remoteNodeWwn =>
          let sannav_object :=
            if String.eqb remoteNodeWwn EmptyString
            then setitem sannav_object "remoteNodeWwn" (PyStr "none")
            else sannav_object in
          (sannav_object,
           let* id := text_field sannav_object "id" in
           let* wwn := text_field sannav_object "wwn" in
           let* portNumber := text_field sannav_object "portNumber" in
           let* slotNumber := text_field sannav_object "slotNumber" in
           let* remotewwn := text_field sannav_object "remoteNodeWwn" in
           let* ipAddress := text_field sannav_object "ipAddress" in
           let sannaventity_data_formatted :=
             [("runid", runid); ("id", id); ("wwn", wwn);
              ("portnumber", portNumber); ("slotnumber", slotNumber);
              ("remotewwn", remotewwn); ("ipaddress", ipAddress);
              ("devicename", device)] in
           let* sannaventity_data_formatted :=
             resolve_id_columns cache sannav_object sannav_common_id_tables
               sannaventity_data_formatted in
           let* activeZones := getitem sannav_object "activeZones" in
           let* entity_id := getitem sannaventity_data_formatted "id" in
           let* activezones_results :=
             format_activezones cache runid entity_id
               (iterate activeZones) in
           Ok (mkFormated sannaventity_data_formatted activezones_results))
      end
  end.

(** [__format_sannav_insert_data]: the record as the call leaves it, and
    what the coroutine returns or raises. *)
Definition __format_sannav_insert_data (cache : gmap string (list row))
    (sannav_object : dict pyval) (runid : string)
    : dict pyval * result formated_records :=
  match classify_entitytype sannav_object with
  | Raise e => (sannav_object, Raise e)
  | Ok sannav_object => format_classified cache sannav_object runid
  end.

(** ** The batched writer and the reconcilers over a store connection *)

Section Engine.

Context {St : Type}.

(** The store connection collaborator: running a statement, committing,
    and running a query and reading all its rows as records. *)
Variable db_execute : sql -> St -> result unit * St.
Variable db_commit : St -> result unit * St.
Variable db_fetchall : sql -> St -> result (list row) * St.

Local Abbreviation W := (World St).

Definition cursor_execute (text : string) (q : sql) : M W unit :=
  log (EvExecute text q) ;;
  (fun w => let (r, s) := db_execute q (conn w) in (r, set_conn s w)).

Definition conn_commit : M W unit :=
  log EvCommit ;;
  (fun w => let (r, s) := db_commit (conn w) in (r, set_conn s w)).

Definition cursor_fetchall (q : sql) : M W (list row) :=
  log (EvExecute (statement_text q) q) ;;
  (fun w => let (r, s) := db_fetchall q (conn w) in (r, set_conn s w)).

(** [getattr(storagetooling_tables_cache, table)], scanned by a caller. *)
Definition cached (table : string) : M W (list row) :=
  log (EvLookup table) ;;
  (fun w =>
     match tables_cache w !! table with
     | Some rows => (Ok rows, w)
     | None => (Raise (AttributeError table), w)
     end).

(** [[item for item in cache.table if item[key] == value]] *)
Definition search_cache (table key value : string) : M W (list row) :=
  let! rows := cached table in
  lift (search_rows key value rows).

Definition __format_current_datetime : M W string :=
  fun w =>
    match clock w with
    | now :: later => (Ok now, set_clock later w)
    | [] => (Ok EmptyString, w)
    end.

Definition __clear_table (table : string) : M W bool :=
  try_except
    (let q := Truncate table in
     cursor_execute (statement_text q) q ;;
     conn_commit ;;
     ret true)
    (ret false).

(** [db_fetchall] stands for [cursor.execute] and [fetchall()] together,
    and a [ResourceWarning] of it is taken as raised by [cursor.execute],
    which the function guards: [query_results] is then unbound.  One
    raised by [fetchall()] itself, which the function does not guard, is
    not told apart; what depends on the difference is stated for stores
    that read without warning. *)
Definition __read_sql_tables_to_cache (table_name : string) : M W unit :=
  let query :=
    if negb (String.eqb table_name "activezones")
    then SelectAll table_name else SelectActiveZones in
  let! results :=
    try_except (cursor_fetchall query)
      (raise (UnboundLocalError "query_results")) in
  log (EvSetCache table_name) ;;
  (fun w =>
     (Ok tt, set_tables_cache (<[table_name := results]> (tables_cache w)) w)).

Definition __update_source_refresh_timestamp (data_label : string)
    : M W unit :=
  let! current_datetime := __format_current_datetime in
  let q := UpdateTracking data_label current_datetime in
  try_except (cursor_execute (statement_text q) q ;; conn_commit) (ret tt).

Definition insert_data_to_table (table_name : string) (record_dict : row)
    : M W unit :=
  let! built :=
    lift (insert_columns_values (keys record_dict) record_dict [] []) in
  let q := Insert table_name (fst (fst built)) (snd (fst built)) in
  try_except (cursor_execute (statement_text q) q ;; conn_commit) (ret tt).

(** The loop of [insert_data_to_table_batch] over [record_list].  Beside
    the text [insert_stement_block] and [count] it keeps [pending], the
    rows of values joined into the block since it was last started. *)
Fixpoint batch_loop (table_name : string) (columns_list : list string)
    (column_insert : list string) (tranaction_block_size : Z)
    (record_list : list pyobj)
    (insert_stement_block : string) (count : Z)
    (pending : list (list string))
    : M W (string * Z * list (list string)) :=
  match record_list with
  | [] => ret (insert_stement_block, count, pending)
  | entry :: rest =>
      let! value_insert := lift (batch_value_insert columns_list entry) in
      let insert_stement_block :=
        insert_stement_block +:+ block_line value_insert in
      let count := count + 1 in
      let pending := pending ++ [value_insert] in
      if tranaction_block_size =? 0 then raise ZeroDivisionError
      else if (count mod tranaction_block_size =? 0) && negb (count =? 0)
      then
        try_except
          (cursor_execute (slice_to insert_stement_block (-3))
             (InsertBlock table_name column_insert pending) ;;
           conn_commit)
          (ret tt) ;;
        batch_loop table_name columns_list column_insert
          tranaction_block_size rest
          (insert_head table_name (join "," column_insert) +:+ CRLF) 0 []
      else
        batch_loop table_name columns_list column_insert
          tranaction_block_size rest insert_stement_block count pending
  end.

Definition insert_data_to_table_batch (table_name : string)
    (record_list : list pyobj) (tranaction_block_size : Z) : M W unit :=
  let! first_record := lift (first record_list) in
  let! columns_list :=
    match first_record with
    | Dict d => ret (keys d)
    | ExcObj _ => raise (AttributeError "keys")
    end in
  let column_insert := batch_column_insert columns_list in
  let! final :=
    batch_loop table_name columns_list column_insert tranaction_block_size
      record_list
      (insert_head table_name (join "," column_insert) +:+ CRLF) 0 [] in
  let insert_stement_block := fst (fst final) in
  let count := snd (fst final) in
  let pending := snd final in
  if 0 <? count then
    try_except
      (cursor_execute (slice_to insert_stement_block (-3))
         (InsertBlock table_name column_insert pending) ;;
       conn_commit)
      (ret tt)
  else ret tt.

Definition update_data_table (table_name : string) (updates : row)
    (where_clause : string) : M W unit :=
  let q := Update table_name updates where_clause in
  try_except (cursor_execute (statement_text q) q ;; conn_commit) (ret tt).

Definition __customer_lookup_async : M W (list pyobj) :=
  fun w =>
    (Ok (map (fun customer_object =>
                gathered (__format_customer_insert_data customer_object))
             (customers w)), w).

Definition update_customer_data : M W unit :=
  let! results := __customer_lookup_async in
  let! delete_status_customer := __clear_table "customers" in
  if negb delete_status_customer then
    raise (SystemExit
             "No update to customers table due to table clear failure.")
  else if 0 <? Z.of_nat (length results) then
    try_except
      (insert_data_to_table_batch "customers" results 250 ;;
       __read_sql_tables_to_cache "customers")
      (ret tt) ;;
    try_except (__update_source_refresh_timestamp "customers") (ret tt)
  else ret tt.

(** The comparison of the three location columns of [update_stack_data]
    against the cached row: [stacks_columns_update] and [update_needed]. *)
Definition stack_column_check (column : string)
    (stacks_data_formatted table_entry : row)
    (acc : row * bool) : result (row * bool) :=
  let* incoming := getitem stacks_data_formatted column in
  let* stored := getitem table_entry column in
  if negb (String.eqb incoming stored)
  then Ok (setitem (fst acc) column incoming, true)
  else Ok acc.

Definition stacks_columns_update (stacks_data_formatted table_entry : row)
    : result (row * bool) :=
  let* a := stack_column_check "locallocation" stacks_data_formatted
              table_entry ([], false) in
  let* b := stack_column_check "prodlocation" stacks_data_formatted
              table_entry a in
  stack_column_check "remotelocation" stacks_data_formatted table_entry b.

(** The stack part of one turn of the loop of [update_stack_data]. *)
Definition update_stack_record (record : row) : M W unit :=
  let! stack := lift (getitem record "stack") in
  let! local_location := lift (getitem record "local_location") in
  let! prod_location := lift (getitem record "prod_location") in
  let! remote_location := lift (getitem record "remote_location") in
  let stacks_data_formatted :=
    [("Stack", stack); ("locallocation", local_location);
     ("prodlocation", prod_location);
     ("remotelocation", remote_location)] in
  let! search_stack_table := search_cache "stacks" "Stack" stack in
  match search_stack_table with
  | [] =>
      try_except
        (insert_data_to_table "stacks" stacks_data_formatted ;;
         __read_sql_tables_to_cache "stacks")
        (ret tt)
  | table_entry :: _ =>
      let! checked :=
        lift (stacks_columns_update stacks_data_formatted table_entry) in
      let stacks_where_clause := "stack = '" +:+ stack +:+ "'" in
      if snd checked
      then update_data_table "stacks" (fst checked) stacks_where_clause
      else ret tt
  end.

(** The loop over [webs_list] for one webpool. *)
Definition update_web (webpoolid web : string) : M W unit :=
  let webs_data_formatted := [("name", web); ("webpoolid", webpoolid)] in
  let! search_webs_table := search_cache "webs" "name" web in
  match search_webs_table with
  | [] => try_except (insert_data_to_table "webs" webs_data_formatted)
            (ret tt)
  | _ :: _ => ret tt
  end.

(** One turn of the loop over [webpool_location_check]. *)
Definition update_webpool (record : row) (location : string) : M W unit :=
  let webpool_name := location +:+ "_webpool_name" in
  let webpool := location +:+ "_webpool" in
  let! name := lift (getitem record webpool_name) in
  let! stack := lift (getitem record "stack") in
  let webpools_data_formatted := [("name", name); ("stackid", stack)] in
  let! search_webpools_table := search_cache "webpools" "name" name in
  let! webpoolid :=
    match search_webpools_table with
    | found :: _ => lift (getitem found "ID")
    | [] =>
        try_except
          (insert_data_to_table "webpools" webpools_data_formatted ;;
           __read_sql_tables_to_cache "webpools")
          (ret tt) ;;
        let! search_webpools_table :=
          search_cache "webpools" "name" name in
        let! found := lift (first search_webpools_table) in
        lift (getitem found "ID")
    end in
  let! webs := lift (getitem record webpool) in
  let webs_list := split_comma webs in
  for_each webs_list (update_web webpoolid) ;;
  __read_sql_tables_to_cache "webs".

Definition update_stack_data : M W unit :=
  let! records := (fun w => (Ok (stacks w), w)) in
  for_each records
    (fun record =>
       update_stack_record record ;;
       for_each ["prod"; "remote"] (update_webpool record)) ;;
  try_except (__update_source_refresh_timestamp "stacks") (ret tt).

(** The order in which Python walks a [set] built from these values. *)
Variable set_iteration : list string -> list string.

(** The defaults [update_sannav_data] gives to attributes a record may
    lack. *)
Definition fill_defaults (item : dict pyval) : dict pyval :=
  let item :=
    if negb (has_key "zoneAlias" item)
    then setitem item "zoneAlias" (PyStr "none") else item in
  let item :=
    if negb (has_key "entitytype" item)
    then setitem item "entitytype" (PyStr "none") else item in
  let item :=
    if negb (has_key "activeZones" item)
    then setitem item "activeZones" (PyList ["none"]) else item in
  if negb (has_key "remoteNodeWwn" item)
  then setitem item "remoteNodeWwn" (PyStr "none") else item.

Definition id_table_source (table : string) : string :=
  if String.eqb table "switch" || String.eqb table "fabric"
  then table +:+ "Name"
  else if String.eqb table "zone" then table +:+ "Alias"
  else table.

(** [map(itemgetter(source), storage_data_object.sannav)] *)
Fixpoint source_values (source : string) (records : list (dict pyval))
    : result (list string) :=
  match records with
  | [] => Ok []
  | record :: rest =>
      let* v := text_field record source in
      let* vs := source_values source rest in
      Ok (v :: vs)
  end.

(** The loop over [unique_source_values]: a name the cache of [table]
    does not hold is inserted as a new reference row. *)
Definition insert_missing_name (table record : string) : M W unit :=
  let! search_table := search_cache table "name" record in
  match search_table with
  | [] => insert_data_to_table table [("name", record)]
  | _ :: _ => ret tt
  end.

(** The [activeZones] lists of the records that have them, appended to
    the module-level list. *)
Definition collect_activezones (records : list (dict pyval))
    : list (list string) :=
  flat_map (fun record =>
              match lookup_key "activeZones" record with
              | Some v => [iterate v]
              | None => []
              end) records.

(** One turn of the loop of [update_sannav_data] over its reference
    tables. *)
Definition update_id_table (table : string) : M W unit :=
  if negb (String.eqb table "activeZones") then
    let! records := (fun w => (Ok (sannav w), w)) in
    let! values := lift (source_values (id_table_source table) records) in
    for_each (set_iteration values) (insert_missing_name table) ;;
    __read_sql_tables_to_cache table
  else
    let! collected :=
      (fun w =>
         let l := activezone_object_id_table_dict_list w
                  ++ collect_activezones (sannav w) in
         (Ok l, set_activezone_list l w)) in
    for_each (set_iteration (concat collected))
      (insert_missing_name "zone") ;;
    __read_sql_tables_to_cache "zone".

(** As in [__read_sql_tables_to_cache], [db_fetchall] stands for
    [cursor.execute] and [fetchall()] together, and a [ResourceWarning]
    of it is taken as raised by [cursor.execute], which the function
    guards and answers by ending the program. *)
Definition __get_runid : M W (list row) :=
  let! formatted_datetime := __format_current_datetime in
  try_except
    (insert_data_to_table "run" [("capturedatetime", formatted_datetime)])
    (raise (SystemExit EmptyString)) ;;
  try_except (cursor_fetchall (SelectRunId formatted_datetime))
    (raise (SystemExit EmptyString)).

(** [asyncio.gather] over the records in their order: each coroutine runs
    to its end, on the cache as it stands, and leaves its record as it
    changed it. *)
Definition __sannav_lookup_async (runid : string)
    : M W (list (result formated_records)) :=
  fun w =>
    let outs :=
      map (fun sannav_object =>
             __format_sannav_insert_data (tables_cache w) sannav_object runid)
          (sannav w) in
    (Ok (map snd outs), set_sannav (map fst outs) w).

(** [[d['sannav'] for d in results]]: an exception among the results has
    no subscript. *)
Fixpoint subscript_all (results : list (result formated_records))
    : result (list formated_records) :=
  match results with
  | [] => Ok []
  | Ok d :: rest =>
      let* ds := subscript_all rest in
      Ok (d :: ds)
  | Raise _ :: _ => Raise TypeError
  end.

(** [update_sannav_data], in its three parts: the reference tables are
    brought up to date, the rows are built under a new run, the rows are
    written. *)
Definition resolve_reference_tables : M W unit :=
  (fun w => (Ok tt, set_sannav (map fill_defaults (sannav w)) w)) ;;
  for_each ["activeZones"; "fabric"; "health"; "status"; "switch"; "zone"]
    update_id_table.

Definition build_fabric_rows : M W (list formated_records) :=
  let! get_runid := __get_runid in
  let! first_run := lift (first get_runid) in
  let! runid := lift (getitem first_run "ID") in
  let! results := __sannav_lookup_async runid in
  lift (subscript_all results).

Definition write_fabric_rows (formatted : list formated_records)
    : M W unit :=
  let sannav_object_insert_dict_list := map formated_sannav formatted in
  let activezone_object_insert_dict_list :=
    concat (filter (fun l => (0 <? Z.of_nat (length l)) = true)
                   (map formated_activezones formatted)) in
  (if negb (Z.of_nat (length activezone_object_insert_dict_list) =? 0)
   then
     insert_data_to_table_batch "activezones"
       (map Dict activezone_object_insert_dict_list) 250 ;;
     __read_sql_tables_to_cache "activezones"
   else ret tt) ;;
  (if negb (Z.of_nat (length sannav_object_insert_dict_list) =? 0)
   then
     try_except
       (insert_data_to_table_batch "sannaventities"
          (map Dict sannav_object_insert_dict_list) 250)
       (ret tt)
   else ret tt) ;;
  try_except (__update_source_refresh_timestamp "sannaventities") (ret tt).

Definition update_sannav_data : M W unit :=
  resolve_reference_tables ;;
  let! formatted := build_fabric_rows in
  write_fabric_rows formatted.

(** The first step of [update_data_from_sources]: every identifier
    table and every core table is read into the cache. *)
Definition Storage_Core_Tables : list string :=
  ["activezones"; "customers"; "webs"].

Definition Storage_Id_Tables : list string :=
  ["entitytype"; "fabric"; "health"; "run"; "stacks"; "status"; "switch";
   "webpools"; "zone"].

Definition read_tables_to_cache : M W unit :=
  for_each Storage_Id_Tables
    (fun table => try_except (__read_sql_tables_to_cache table) (ret tt)) ;;
  for_each Storage_Core_Tables
    (fun table => try_except (__read_sql_tables_to_cache table) (ret tt)).

End Engine.

(** ** A store of tables behind the connection

    The relational store is a collaborator of the job.  This one keeps
    each table as the list of its rows, gives every inserted row the next
    surrogate [ID], reads a quoted literal with its doubled apostrophes
    undone, and refuses a literal with a lone apostrophe inside. *)

Module TableStore.

Record t := mk {
  tables : dict (list row);
  next_id : Z }.

Definition rows_of (table : string) (s : t) : list row :=
  match lookup_key table (tables s) with
  | Some rows => rows
  | None => []
  end.

Definition strip_ends (s : string) : string :=
  substring 1 (String.length s - 2) s.

Fixpoint undouble (s : string) : option string :=
  match s with
  | EmptyString => Some EmptyString
  | String c r =>
      if Ascii.eqb c apostrophe then
        match r with
        | String c2 r2 =>
            if Ascii.eqb c2 apostrophe
            then option_map (String apostrophe) (undouble r2)
            else None
        | EmptyString => None
        end
      else option_map (String c) (undouble r)
  end.

Definition literal (quoted : string) : result string :=
  match undouble (strip_ends quoted) with
  | Some v => Ok v
  | None => Raise DatabaseError
  end.

Fixpoint literals (value_insert : list string) : result (list string) :=
  match value_insert with
  | [] => Ok []
  | v :: r =>
      let* x := literal v in
      let* xs := literals r in
      Ok (x :: xs)
  end.

Definition decode_row (column_insert value_insert : list string)
    : result row :=
  if Nat.eqb (length column_insert) (length value_insert) then
    let* values := literals value_insert in
    Ok (combine (map strip_ends column_insert) values)
  else Raise DatabaseError.

Fixpoint decode_rows (column_insert : list string)
    (rows : list (list string)) : result (list row) :=
  match rows with
  | [] => Ok []
  | value_insert :: r =>
      let* x := decode_row column_insert value_insert in
      let* xs := decode_rows column_insert r in
      Ok (x :: xs)
  end.

(** The rows as stored: each with the next surrogate identifier. *)
Fixpoint with_ids (next : Z) (rows : list row) : list row :=
  match rows with
  | [] => []
  | x :: r => (("ID", pretty next) :: x) :: with_ids (next + 1) r
  end.

Definition append_rows (table : string) (rows : list row) (s : t) : t :=
  mk (setitem (tables s) table (rows_of table s ++ with_ids (next_id s) rows))
     (next_id s + Z.of_nat (length rows)).

Definition lower (c : ascii) : ascii :=
  let n := nat_of_ascii c in
  if (Nat.leb 65 n && Nat.leb n 90)%bool then ascii_of_nat (n + 32) else c.

Fixpoint lower_text (s : string) : string :=
  match s with
  | EmptyString => EmptyString
  | String c r => String (lower c) (lower_text r)
  end.

(** The value of a column, the name of which the store reads without
    regard to case. *)
Fixpoint column_value (column : string) (r : row) : option string :=
  match r with
  | [] => None
  | (k, v) :: rest =>
      if String.eqb (lower_text k) (lower_text column) then Some v
      else column_value column rest
  end.

(** [column = 'value'] split at its first [ = ]. *)
Fixpoint split_where (before s : string) : option (string * string) :=
  if String.prefix " = " s
  then Some (before, substring 3 (String.length s - 3) s)
  else match s with
       | EmptyString => None
       | String c r => split_where (before +:+ String c EmptyString) r
       end.

Fixpoint apply_updates (updates : row) (r : row) : option row :=
  match updates with
  | [] => Some r
  | (column, value) :: rest =>
      match undouble value with
      | Some v => apply_updates rest (setitem r column v)
      | None => None
      end
  end.

Fixpoint update_rows (column value : string) (updates : row)
    (rows : list row) : option (list row) :=
  match rows with
  | [] => Some []
  | r :: rest =>
      match update_rows column value updates rest with
      | None => None
      | Some rest' =>
          if match column_value column r with
             | Some v => String.eqb v value
             | None => false
             end
          then option_map (fun r' => r' :: rest') (apply_updates updates r)
          else Some (r :: rest')
      end
  end.

Definition execute (q : sql) (s : t) : result unit * t :=
  match q with
  | Truncate table => (Ok tt, mk (setitem (tables s) table []) (next_id s))
  | Insert table column_insert value_insert =>
      match decode_row column_insert value_insert with
      | Ok r => (Ok tt, append_rows table [r] s)
      | Raise e => (Raise e, s)
      end
  | InsertBlock table column_insert rows =>
      match decode_rows column_insert rows with
      | Ok rs => (Ok tt, append_rows table rs s)
      | Raise e => (Raise e, s)
      end
  | Update table updates where_clause =>
      match split_where EmptyString where_clause with
      | Some (column, quoted) =>
          match literal quoted with
          | Ok value =>
              match update_rows column value updates (rows_of table s) with
              | Some rows => (Ok tt, mk (setitem (tables s) table rows)
                                        (next_id s))
              | None => (Raise DatabaseError, s)
              end
          | Raise e => (Raise e, s)
          end
      | None => (Raise DatabaseError, s)
      end
  | _ => (Ok tt, s)
  end.

Definition commit (s : t) : result unit * t := (Ok tt, s).

Definition fetchall (q : sql) (s : t) : result (list row) * t :=
  match q with
  | SelectAll table => (Ok (rows_of table s), s)
  | SelectRunId formatted_datetime =>
      (Ok (flat_map
             (fun r =>
                match lookup_key "capturedatetime" r, lookup_key "ID" r with
                | Some d, Some id =>
                    if String.prefix formatted_datetime d
                    then [[("ID", id)]] else []
                | _, _ => []
                end)
             (rows_of "run" s)), s)
  | _ => (Ok [], s)
  end.

End TableStore.

(** A connection on which every [TRUNCATE] raises [ResourceWarning], and
    one on which it raises an error of the driver. *)
Definition refusing_execute (e : exn) (q : sql) (s : unit)
    : result unit * unit :=
  match q with
  | Truncate _ => (Raise e, s)
  | _ => (Ok tt, s)
  end.

(** ** The device name as the specification words it

    Prefer [remoteDevice] if non-empty and not ["localhost"], else
    [remotePort] when present and non-empty, else ["none"]. *)
Definition device_as_specified (sannav_object : dict pyval) : string :=
  match lookup_key "remoteDevice" sannav_object with
  | Some (PyStr remoteDevice) =>
      if negb (String.eqb remoteDevice EmptyString)
         && negb (String.eqb remoteDevice "localhost")
      then remoteDevice
      else match lookup_key "remotePort" sannav_object with
           | Some (PyStr remotePort) =>
               if negb (String.eqb remotePort EmptyString)
               then remotePort else "none"
           | _ => "none"
           end
  | _ =>
      match lookup_key "remotePort" sannav_object with
      | Some (PyStr remotePort) =>
          if negb (String.eqb remotePort EmptyString)
          then remotePort else "none"
      | _ => "none"
      end
  end.

(** ** Scenarios *)

Module Scenario.

(** The reference rows a switchport of fabric [fab1] on switch [sw1]
    resolves against. *)
Definition reference_cache : gmap string (list row) :=
  <["entitytype" := [[("ID", "1"); ("name", "device")]]]>
  (<["fabric" := [[("ID", "2"); ("name", "fab1")]]]>
  (<["health" := [[("ID", "3"); ("name", "ok")]]]>
  (<["status" := [[("ID", "4"); ("name", "up")]]]>
  (<["switch" := [[("ID", "5"); ("name", "sw1")]]]>
  (<["zone" := [[("ID", "6"); ("name", "z1")]]]> ∅))))).

Definition switchport (remote : dict pyval) : dict pyval :=
  [("connectedDeviceType", PyStr "Initiator"); ("id", PyStr "17");
   ("wwn", PyStr "10:00"); ("portNumber", PyStr "7");
   ("slotNumber", PyStr "0"); ("remoteNodeWwn", PyStr "20:00");
   ("ipAddress", PyStr "10.0.0.1"); ("entitytype", PyStr "none");
   ("fabricName", PyStr "fab1"); ("health", PyStr "ok");
   ("status", PyStr "up"); ("switchName", PyStr "sw1");
   ("zone", PyStr "z1"); ("zoneAlias", PyStr "z1");
   ("activeZones", PyList ["z1"])] ++ remote.

(** A port whose peer reports itself as [localhost]. *)
Definition localhost_port : dict pyval :=
  switchport [("remoteDevice", PyStr "localhost");
              ("remotePort", PyStr "fc1/7")].

(** A device name of 51 characters: [a] and then fifty [b]. *)
Definition long_name : string :=
  "abbbbbbbbbbbbbbbbbbbbbbbbbbbbbbbbbbbbbbbbbbbbbbbbbb".

Definition long_name_port : dict pyval :=
  switchport [("remoteDevice", PyStr long_name);
              ("remotePort", PyStr "fc1/7")].

(** A name with an apostrophe, as a reference row or a formatted record
    carries it. *)
Definition obrien : row := [("name", "O'Brien")].

(** An empty store behind the connection, nothing cached, nothing
    fetched. *)
Definition empty_world : World TableStore.t :=
  mkWorld (TableStore.mk [] 1) ∅ [] [] [] [] [] [].

(** A connection that takes everything and keeps nothing. *)
Definition nod_execute (q : sql) (s : unit) : result unit * unit :=
  (Ok tt, s).
Definition nod_commit (s : unit) : result unit * unit := (Ok tt, s).
Definition nod_fetchall (q : sql) (s : unit) : result (list row) * unit :=
  (Ok [], s).

Definition nod_world : World unit := mkWorld tt ∅ [] [] [] [] [] [].

(** [n] records of one column. *)
Definition zone_a : row := [("name", "a")].
Definition zone_records (n : nat) : list pyobj := repeat (Dict zone_a) n.

(** The customers table holds two rows of an earlier pass; one record
    comes in. *)
Definition customers_world : World TableStore.t :=
  mkWorld
    (TableStore.mk
       [("customers",
         [[("ID", "1"); ("contextid", "3"); ("customer", "old");
           ("status", "1"); ("stackid", "2")];
          [("ID", "2"); ("contextid", "4"); ("customer", "older");
           ("status", "0"); ("stackid", "2")]])] 3)
    ∅
    [[("L", "Y"); ("NAME", "O'Brien"); ("ID", "7"); ("STACKNUMBER", "3")]]
    [] [] [] ["2026-01-01 00:00:00"] [].

(** A stack with its two webpools, as the topology collaborator gives
    it. *)
Definition stack_record (stack prod_location : string) : row :=
  [("stack", stack); ("local_location", "A");
   ("prod_location", prod_location); ("remote_location", "C");
   ("prod_webpool_name", "wp1"); ("prod_webpool", "w1,w2");
   ("remote_webpool_name", "wp2"); ("remote_webpool", "w3")].

Definition stacks_world (store : TableStore.t)
    (cache : gmap string (list row)) (records : list row)
    : World TableStore.t :=
  mkWorld store cache [] records [] [] [] [].

(** The store and the cache hold stack [S1] at [A], [B], [C] with its
    webpools and webs. *)
Definition s1_tables : dict (list row) :=
  [("stacks",
    [[("ID", "1"); ("Stack", "S1"); ("locallocation", "A");
      ("prodlocation", "B"); ("remotelocation", "C")]]);
   ("webpools",
    [[("ID", "2"); ("name", "wp1"); ("stackid", "S1")];
     [("ID", "3"); ("name", "wp2"); ("stackid", "S1")]]);
   ("webs",
    [[("ID", "4"); ("name", "w1"); ("webpoolid", "2")];
     [("ID", "5"); ("name", "w2"); ("webpoolid", "2")];
     [("ID", "6"); ("name", "w3"); ("webpoolid", "3")]])].

Definition s1_cache : gmap string (list row) :=
  list_to_map s1_tables.

(** The source now gives [B2] for the production location of [S1]. *)
Definition s1_moved : World TableStore.t :=
  stacks_world (TableStore.mk s1_tables 7) s1_cache [stack_record "S1" "B2"].

(** The source agrees with what is cached. *)
Definition s1_settled : World TableStore.t :=
  stacks_world (TableStore.mk s1_tables 7) s1_cache [stack_record "S1" "B"].

(** An empty store; the source names [S1] twice, at [B] and at [B2]. *)
Definition s1_twice : World TableStore.t :=
  stacks_world (TableStore.mk [] 1) ∅
    [stack_record "S1" "B"; stack_record "S1" "B2"].

(** The source gives two stacks, both moved to [B2]. *)
Definition two_moved : World TableStore.t :=
  stacks_world (TableStore.mk s1_tables 7) s1_cache
    [stack_record "S1" "B2"; stack_record "S2" "B2"].

(** An empty store and a source with one new stack. *)
Definition s1_new : World TableStore.t :=
  stacks_world
    (TableStore.mk [("stacks", []); ("webpools", []); ("webs", [])] 1)
    (list_to_map [("stacks", []); ("webpools", []); ("webs", [])])
    [stack_record "S1" "B"].

(** A fabric whose reference tables know everything the port on the
    new switch [sw9] names, except the switch. *)
Definition fabric_tables : dict (list row) :=
  [("entitytype", [[("ID", "1"); ("name", "device")]]);
   ("fabric", [[("ID", "2"); ("name", "fab1")]]);
   ("health", [[("ID", "3"); ("name", "ok")]]);
   ("status", [[("ID", "4"); ("name", "up")]]);
   ("switch", [[("ID", "5"); ("name", "sw1")]]);
   ("zone", [[("ID", "6"); ("name", "z1")]]);
   ("run", [])].

Definition port_on_sw9 : dict pyval :=
  [("connectedDeviceType", PyStr "Initiator"); ("id", PyStr "17");
   ("wwn", PyStr "10:00"); ("portNumber", PyStr "7");
   ("slotNumber", PyStr "0"); ("remoteNodeWwn", PyStr "20:00");
   ("ipAddress", PyStr "10.0.0.1");
   ("fabricName", PyStr "fab1"); ("health", PyStr "ok");
   ("status", PyStr "up"); ("switchName", PyStr "sw9");
   ("zone", PyStr "z1"); ("zoneAlias", PyStr "z1");
   ("activeZones", PyList ["z1"]);
   ("remoteDevice", PyStr "host7"); ("remotePort", PyStr "fc1/7")].

Definition fabric_world : World TableStore.t :=
  mkWorld (TableStore.mk fabric_tables 7) (list_to_map fabric_tables)
    [] [] [port_on_sw9] [] ["2026-01-01 00:00:00"] [].

(** The row built for the port once [sw9] has been given the
    identifier 7 and the run the identifier 8. *)
Definition sw9_row : formated_records :=
  mkFormated
    [("runid", "8"); ("id", "17"); ("wwn", "10:00"); ("portnumber", "7");
     ("slotnumber", "0"); ("remotewwn", "20:00");
     ("ipaddress", "10.0.0.1"); ("devicename", "host7");
     ("entitytypeid", "1"); ("fabricNameid", "2"); ("healthid", "3");
     ("statusid", "4"); ("switchNameid", "7"); ("zoneid", "6")]
    [[("runid", "8"); ("sannaventityid", "17"); ("zoneid", "6")]].

(** Python's walk over a set, taken here in the order of first
    occurrence. *)
Definition first_occurrences (l : list string) : list string :=
  List.nodup string_dec l.

End Scenario.

(** ** What a statement writes *)

Definition written_columns (q : sql) : list string :=
  match q with
  | Insert _ column_insert _ => column_insert
  | InsertBlock _ column_insert _ => column_insert
  | _ => []
  end.

Definition value_rows (q : sql) : list (list string) :=
  match q with
  | Insert _ _ value_insert => [value_insert]
  | InsertBlock _ _ rows => rows
  | _ => []
  end.

(** The statement of an event is sent as its own text, names no column
    [column], and gives each row as many values as it names columns. *)
Definition leaves_out (column : string) (ev : event) : Prop :=
  match ev with
  | EvExecute text q =>
      text = statement_text q
      /\ ~ In ("[" +:+ column +:+ "]") (written_columns q)
      /\ Forall (fun r => length r = length (written_columns q))
                (value_rows q)
  | _ => True
  end.

(** Neither store-assigned column is written. *)
Definition store_columns_left_out (ev : event) : Prop :=
  leaves_out "ID" ev /\ leaves_out "datecreated" ev.

(** Every apostrophe of the text stands in a pair. *)
Fixpoint apostrophes_paired (s : string) : bool :=
  match s with
  | EmptyString => true
  | String c r =>
      if Ascii.eqb c apostrophe then
        match r with
        | String c2 r2 =>
            if Ascii.eqb c2 apostrophe then apostrophes_paired r2 else false
        | EmptyString => false
        end
      else apostrophes_paired r
  end.

(** The value a record holds under a column, empty when it has none. *)
Definition value_of (d : row) (column : string) : string :=
  default EmptyString (lookup_key column d).

(** The rows of quoted values of all the records, in their order. *)
Fixpoint batch_rows (columns_list : list string) (record_list : list pyobj)
    : result (list (list string)) :=
  match record_list with
  | [] => Ok []
  | entry :: rest =>
      let* vals := batch_value_insert columns_list entry in
      let* rows := batch_rows columns_list rest in
      Ok (vals :: rows)
  end.

(** A store that takes every statement and every commit. *)
Definition accepting {St : Type}
    (db_execute : sql -> St -> result unit * St)
    (db_commit : St -> result unit * St) : Prop :=
  (forall q s, fst (db_execute q s) = Ok tt)
  /\ (forall s, fst (db_commit s) = Ok tt).

(** The event sends rows to [table]: a single-row or a multi-row
    [INSERT]. *)
Definition inserts_into (table : string) (ev : event) : bool :=
  match ev with
  | EvExecute _ (Insert t _ _) => String.eqb t table
  | EvExecute _ (InsertBlock t _ _) => String.eqb t table
  | _ => false
  end.

(** The event is an [UPDATE] of [table]. *)
Definition updates_table (table : string) (ev : event) : bool :=
  match ev with
  | EvExecute _ (Update t _ _) => String.eqb t table
  | _ => false
  end.

(** The computation never leaves by raising [ResourceWarning]. *)
Definition quiet {W A} (c : M W A) : Prop :=
  forall w, fst (c w) <> Raise ResourceWarning.

(** Whether what follows a computation still runs: it returned, or it
    raised what the next handler catches. *)
Definition continues {A} (r : result A) : bool :=
  match r with
  | Ok _ => true
  | Raise ResourceWarning => true
  | Raise _ => false
  end.

(** A relation between the states before and after, which may ask more
    of a computation that lets its successors run. *)
Definition respects {W A} (R : bool -> W -> W -> Prop) (c : M W A)
    : Prop :=
  forall w, R (continues (fst (c w))) w (snd (c w)).

(** ** Stack reconciliation in the words of the specification *)

Definition mutable_columns : list string :=
  ["locallocation"; "prodlocation"; "remotelocation"].

(** The mutable columns whose incoming value differs from the cached
    row, each with its incoming value. *)
Definition differing_columns (incoming cached : row) : row :=
  flat_map
    (fun column =>
       match lookup_key column incoming, lookup_key column cached with
       | Some a, Some b => if String.eqb a b then [] else [(column, a)]
       | _, _ => []
       end)
    mutable_columns.

(** The row a stack record would be written as. *)
Definition stack_row (record : row) : result row :=
  let* stack := getitem record "stack" in
  let* local_location := getitem record "local_location" in
  let* prod_location := getitem record "prod_location" in
  let* remote_location := getitem record "remote_location" in
  Ok [("Stack", stack); ("locallocation", local_location);
      ("prodlocation", prod_location);
      ("remotelocation", remote_location)].

(** The record is cached, and its cached row holds its three
    locations. *)
Definition settled (rows : list row) (record : row) : bool :=
  match stack_row record with
  | Ok incoming =>
      match search_rows "Stack" (value_of incoming "Stack") rows with
      | Ok (cached :: _) =>
          forallb
            (fun column =>
               match lookup_key column incoming, lookup_key column cached
               with
               | Some a, Some b => String.eqb a b
               | _, _ => false
               end)
            mutable_columns
      | _ => false
      end
  | Raise _ => false
  end.

(** ** Lookups and the freshness of the cache

    A write to [table] leaves its cache stale until the table is read
    into the cache again; [None] when a lookup met a stale cache.  The
    writes are the [INSERT]s and, with [with_updates], the [UPDATE]s. *)
Inductive freshness := Fresh | Stale.

Definition writes_table (with_updates : bool) (table : string)
    (ev : event) : bool :=
  inserts_into table ev || (with_updates && updates_table table ev).

Fixpoint lookups_fresh (with_updates : bool) (table : string)
    (st : freshness) (evs : list event) : option freshness :=
  match evs with
  | [] => Some st
  | ev :: rest =>
      if writes_table with_updates table ev
      then lookups_fresh with_updates table Stale rest
      else
        match ev with
        | EvSetCache t =>
            lookups_fresh with_updates table
              (if String.eqb t table then Fresh else st) rest
        | EvLookup t =>
            if String.eqb t table then
              match st with
              | Stale => None
              | Fresh => lookups_fresh with_updates table st rest
              end
            else lookups_fresh with_updates table st rest
        | _ => lookups_fresh with_updates table st rest
        end
  end.

(** A relation between the states before and after a computation. *)
Definition keeps {W A} (R : W -> W -> Prop) (c : M W A) : Prop :=
  forall w, R w (snd (c w)).

(** The events a computation appended to the trace all satisfy [Q]. *)
Definition emits_only {St} (Q : event -> Prop) (w w' : World St) : Prop :=
  exists evs, trace w' = trace w ++ evs /\ Forall Q evs.

(** The events appended between two states. *)
Definition emitted {St} (w w' : World St) : list event :=
  drop (length (trace w)) (trace w').

(** No [UPDATE] of the stacks table. *)
Definition no_stack_update (ev : event) : Prop :=
  updates_table "stacks" ev = false.

(** Between the two states no [UPDATE] of the stacks table was sent and
    the cached stacks stayed what they were. *)
Definition stacks_cache_kept {St} (b : bool) (w w' : World St) : Prop :=
  emits_only no_stack_update w w'
  /\ tables_cache w' !! "stacks" = tables_cache w !! "stacks".

(** Between the two states no lookup of [table] met a cache left stale
    by an [INSERT], and the cache is fresh at the end when what follows
    still runs. *)
Definition lookups_stay_fresh {St} (table : string) (b : bool)
    (w w' : World St) : Prop :=
  exists evs,
    trace w' = trace w ++ evs
    /\ match lookups_fresh false table Fresh evs with
       | Some st => b = true -> st = Fresh
       | None => False
       end.

(** Between the two states the trace only grew, and the cached switches
    and the fetched switchport records stayed what they were. *)
Definition switch_cache_kept {St} (b : bool) (w w' : World St) : Prop :=
  (exists evs, trace w' = trace w ++ evs)
  /\ tables_cache w' !! "switch" = tables_cache w !! "switch"
  /\ sannav w' = sannav w.

(** The world of [Scenario.fabric_world] once the reference tables have been
    brought up to date on the table store. *)
Definition fabric_resolved : World TableStore.t :=
  snd (resolve_reference_tables TableStore.execute TableStore.commit
         TableStore.fetchall Scenario.first_occurrences Scenario.fabric_world).

(** ** The statements of the batched writer *)

(** A store that raises nothing but [ResourceWarning]: it takes a
    statement or a commit, or refuses it with the warning the writers
    catch. *)
Definition warns_only {St : Type}
    (db_execute : sql -> St -> result unit * St)
    (db_commit : St -> result unit * St) : Prop :=
  (forall q s, continues (fst (db_execute q s)) = true)
  /\ (forall s, continues (fst (db_commit s)) = true).

(** The statements among the events, in their order. *)
Definition statements (evs : list event) : list sql :=
  flat_map (fun ev => match ev with
                      | EvExecute _ q => [q]
                      | _ => []
                      end) evs.

(** One row of a multi-row [INSERT] as it stands in the statement. *)
Definition tuple_text (value_insert : list string) : string :=
  "(" +:+ join "," value_insert +:+ ")".

(** A multi-row [INSERT] holds at least one row, and its text is the
    head, a line break, and the rows separated by a comma and a line
    break. *)
Definition block_well_formed (ev : event) : Prop :=
  match ev with
  | EvExecute text (InsertBlock table column_insert rows) =>
      rows <> []
      /\ text = insert_head table (join "," column_insert) +:+ CRLF
                +:+ join ("," +:+ CRLF) (map tuple_text rows)
  | _ => True
  end.

(** ** What a pass writes *)

(** What a statement does to a table: it adds rows, changes rows, or
    clears the table.  The queries write nothing. *)
Inductive write :=
| Adds (table : string)
| Changes (table : string)
| Clears (table : string).

Definition write_of (q : sql) : option write :=
  match q with
  | Truncate table => Some (Clears table)
  | Insert table _ _ => Some (Adds table)
  | InsertBlock table _ _ => Some (Adds table)
  | Update table _ _ => Some (Changes table)
  | UpdateTracking _ _ => Some (Changes "UpdateTracking")
  | SelectAll _ => None
  | SelectActiveZones => None
  | SelectRunId _ => None
  end.

(** The event writes nothing, or one of the [allowed] writes. *)
Definition writes_within (allowed : list write) (ev : event) : Prop :=
  match ev with
  | EvExecute _ q =>
      match write_of q with
      | Some wr => In wr allowed
      | None => True
      end
  | _ => True
  end.

Definition stack_pass_writes : list write :=
  [Adds "stacks"; Changes "stacks"; Adds "webpools"; Adds "webs";
   Changes "UpdateTracking"].

Definition customer_pass_writes : list write :=
  [Clears "customers"; Adds "customers"; Changes "UpdateTracking"].

(** ** Loading the cache *)

(** A store that answers every query. *)
Definition answering {St : Type}
    (db_fetchall : sql -> St -> result (list row) * St) : Prop :=
  forall q s, exists rows, fst (db_fetchall q s) = Ok rows.

(** The query that reads a table into the cache. *)
Definition cache_query (table_name : string) : sql :=
  if negb (String.eqb table_name "activezones")
  then SelectAll table_name else SelectActiveZones.

(** A customer record without its name, fetched on a connection that
    takes everything. *)
Definition nameless_customer : row :=
  [("L", "Y"); ("ID", "7"); ("STACKNUMBER", "3")].

Definition nameless_customer_world : World unit :=
  mkWorld tt ∅ [nameless_customer] [] [] [] [] [].

(** ** The rows of a fabric pass *)

(** The rows built for a record under a run: the entity row carries the
    run and the record's own identifier, and there is one active-zone row
    for each active zone of the record, in their order, each carrying the
    run, the identifier of the entity and the identifier of a zone. *)
Definition row_of_record (runid : string) (sannav_object : dict pyval)
    (f : formated_records) : Prop :=
  exists id zones,
    text_field sannav_object "id" = Ok id
    /\ getitem sannav_object "activeZones" = Ok zones
    /\ lookup_key "runid" (formated_sannav f) = Some runid
    /\ lookup_key "id" (formated_sannav f) = Some id
    /\ Forall2
         (fun (zone_name : string) (activezones_formatted : row) =>
            exists zone_id,
              activezones_formatted
              = [("runid", runid); ("sannaventityid", id);
                 ("zoneid", zone_id)])
         (iterate zones) (formated_activezones f).

(** A connection that refuses every statement with [ResourceWarning]
    and answers every query with no row. *)
Definition warning_execute (q : sql) (s : unit) : result unit * unit :=
  (Raise ResourceWarning, s).

(** ** New reference rows *)

(** The table whose rows one turn of the loop over the reference tables
    of the fabric pass looks up and adds to. *)
Definition id_table_target (table : string) : string :=
  if negb (String.eqb table "activeZones") then table else "zone".

(** A single-row [INSERT] adds to [target] a row of one column, the
    name, and the name is one that none of [rows] holds. *)
Definition inserts_new_name (target : string) (rows : list row)
    (ev : event) : Prop :=
  match ev with
  | EvExecute _ (Insert table column_insert value_insert) =>
      table = target
      /\ column_insert = ["[name]"]
      /\ exists name,
           value_insert = ["'" +:+ double_apostrophes name +:+ "'"]
           /\ search_rows "name" name rows = Ok []
  | _ => True
  end.

(** While the cache of [target] holds [rows], only new names are
    inserted into [target] and its cache stays. *)
Definition new_names_only {St} (target : string) (rows : list row)
    (w w' : World St) : Prop :=
  tables_cache w !! target = Some rows ->
  emits_only (inserts_new_name target rows) w w'
  /\ tables_cache w' !! target = Some rows.

(** ** The webs of a webpool *)

(** A single-row [INSERT] into [webs] gives a name and, as the webpool
    of the web, [webpoolid]. *)
Definition inserts_web_of (webpoolid : string) (ev : event) : Prop :=
  match ev with
  | EvExecute _ (Insert table column_insert value_insert) =>
      table = "webs" ->
      column_insert = ["[name]"; "[webpoolid]"]
      /\ exists web,
           value_insert
           = ["'" +:+ double_apostrophes web +:+ "'";
              "'" +:+ double_apostrophes webpoolid +:+ "'"]
  | _ => True
  end.

(** Between the two states only webs of [webpoolid] were inserted and
    the cached webpools stayed what they were. *)
Definition webs_of_webpool {St} (webpoolid : string) (w w' : World St)
    : Prop :=
  emits_only (inserts_web_of webpoolid) w w'
  /\ tables_cache w' !! "webpools" = tables_cache w !! "webpools".

(** ** The output converters of the connection *)

(** The value of bytes read least significant first. *)
Fixpoint little_endian (value : list Byte.byte) : Z :=
  match value with
  | [] => 0
  | b :: rest => Z.of_N (Byte.to_N b) + 256 * little_endian rest
  end.

(** A field [h] of [struct.unpack]: two bytes, signed. *)
Definition short_at (offset : nat) (value : list Byte.byte) : Z :=
  let v := little_endian (take 2 (drop offset value)) in
  if v <? 32768 then v else v - 65536.

(** A field [I] of [struct.unpack]: four bytes, unsigned. *)
Definition unsigned_int_at (offset : nat) (value : list Byte.byte) : Z :=
  little_endian (take 4 (drop offset value)).

(** [struct.unpack("<6hI2h", value)]: six shorts, an unsigned integer
    and two shorts, packed without padding; nothing for a buffer that is
    not of 20 bytes, where Python raises [struct.error]. *)
Definition unpack_6hI2h (value : list Byte.byte) : option (list Z) :=
  if Nat.eqb (length value) 20 then
    Some [short_at 0 value; short_at 2 value; short_at 4 value;
          short_at 6 value; short_at 8 value; short_at 10 value;
          unsigned_int_at 12 value;
          short_at 16 value; short_at 18 value]
  else None.

(** [__handle_datetimeoffset]: the text given for a column of type
    [DATETIMEOFFSET].  The text of the source runs over a continued
    line, whose indentation stands between the date and the time.  No
    handler of the function catches [struct.error]. *)
Definition __handle_datetimeoffset (date_time_offset_value : list Byte.byte)
    : option string :=
  match unpack_6hI2h date_time_offset_value with
  | Some converted_date =>
      let field (i : nat) : string := pretty (nth i converted_date 0) in
      Some (field 0%nat +:+ "-" +:+ field 1%nat +:+ "-" +:+ field 2%nat
            +:+ " +        "
            +:+ field 3%nat +:+ ":" +:+ field 4%nat +:+ ":" +:+ field 5%nat
            +:+ "." +:+ field 6%nat)
  | None => None
  end.

(** 2 January 2024, 03:04:05 and 6 units of the fraction, as the store
    packs it, before its offset. *)
Definition packed_second_of_january : list Byte.byte :=
  [Byte.xe8; Byte.x07; Byte.x01; Byte.x00; Byte.x02; Byte.x00;
   Byte.x03; Byte.x00; Byte.x04; Byte.x00; Byte.x05; Byte.x00;
   Byte.x06; Byte.x00; Byte.x00; Byte.x00].

(** ** Connecting and running the passes *)

Definition Default_Sql_Connection_Values : dict string :=
  [("Driver", "{ODBC Driver 18 for SQL Server}");
   ("Server", "pupdbprod102a.prod.athenahealth.com");
   ("Database", "storagetooling");
   ("Trusted_Connection", "yes");
   ("TrustServerCertificate", "yes")].

(** The text [__connect_ms_sql] hands to [pyodbc.connect]. *)
Definition connect_str
    (username password db_server database driver trust_certificates : string)
    : string :=
  let trusted_connection :=
    if String.eqb username EmptyString || String.eqb password EmptyString
    then value_of Default_Sql_Connection_Values "Trusted_Connection"
    else "no" in
  if String.eqb trusted_connection "yes" then
    "Driver=" +:+ driver +:+ ";Server=" +:+ db_server
    +:+ ";Database=" +:+ database
    +:+ ";Trusted_Connection=" +:+ trusted_connection
    +:+ ";TrustServerCertificate=" +:+ trust_certificates
  else
    "Driver=" +:+ driver +:+ ";Server=" +:+ db_server
    +:+ ";Database=" +:+ database
    +:+ ";UID=" +:+ username +:+ ";PWD=" +:+ password
    +:+ ";TrustServerCertificate=" +:+ trust_certificates.

(** The credentials [update_data_from_sources] connects with: those of
    the job's environment when it runs automated and the environment
    names a user, else those it was called with. *)
Definition jenkins_credentials (automated : bool) (environ : dict string)
    (username password : string) : result (string * string) :=
  if automated then
    match lookup_key "WinUsername" environ with
    | Some username =>
        match lookup_key "WinPassword" environ with
        | Some password => Ok (username, password)
        | None =>
            Raise (SystemExit
                     ("No password is set in WinPassword for user: "
                      +:+ username
                      +:+ ". Terminating function update_data_from_sources."))
        end
    | None => Ok (username, password)
    end
  else Ok (username, password).

Section Sources.

Context {St : Type}.

(** [pyodbc.connect]: the connection, or what the driver raises. *)
Variable pyodbc_connect : string -> result St.

(** [__connect_ms_sql].  When the driver raises [ResourceWarning] the
    handler prints and the function goes on to a [sql_connection] that
    was never bound.  The two output converters it adds are part of how
    the connection reads its rows. *)
Definition __connect_ms_sql
    (username password db_server database driver trust_certificates : string)
    : result St :=
  match pyodbc_connect
          (connect_str username password db_server database driver
             trust_certificates)
  with
  | Ok sql_connection => Ok sql_connection
  | Raise ResourceWarning => Raise (UnboundLocalError "sql_connection")
  | Raise e => Raise e
  end.

Variable db_execute : sql -> St -> result unit * St.
Variable db_commit : St -> result unit * St.
Variable db_fetchall : sql -> St -> result (list row) * St.
Variable set_iteration : list string -> list string.

(** [get_all_storage_data]: the three sources are fetched from their
    collaborators into the module state. *)
Variable get_all_storage_data : string -> bool -> M (World St) unit.

(** [update_data_from_sources]: the credentials, the connection, the
    cache, the sources, and the three passes in their order. *)
Definition update_data_from_sources (environ : dict string)
    (username password db_server database driver trust_certificates
       sannav_password : string)
    (debug automated : bool) : M (World St) unit :=
  let! credentials :=
    lift (jenkins_credentials automated environ username password) in
  let! sql_connection :=
    lift (__connect_ms_sql (fst credentials) (snd credentials) db_server
            database driver trust_certificates) in
  (fun w => (Ok tt, set_conn sql_connection w)) ;;
  read_tables_to_cache db_fetchall ;;
  get_all_storage_data sannav_password debug ;;
  update_stack_data db_execute db_commit db_fetchall ;;
  update_customer_data db_execute db_commit db_fetchall ;;
  update_sannav_data db_execute db_commit db_fetchall set_iteration.

End Sources.

(** What the stack pass writes, and the clearing of the customers
    table. *)
Definition writes_up_to_the_clearing : list write :=
  Clears "customers" :: stack_pass_writes.

(** Between the two states the cache and the fetched switchport records
    stayed what they were. *)
Definition cache_and_records_kept {St} (b : bool) (w w' : World St)
    : Prop :=
  tables_cache w' = tables_cache w /\ sannav w' = sannav w.

(** A switchport fetched while the cache knows no entity type, on a
    connection that takes everything. *)
Definition no_entity_type_world : World unit :=
  mkWorld tt (<["entitytype" := []]> ∅) [] [] [Scenario.port_on_sw9] [] []
    [].

(** ** Defaults of a switchport record *)

(** [if key not in item.keys(): item[key] = value] *)
Definition with_default (key : string) (value : pyval) (item : dict pyval)
    : dict pyval :=
  if negb (has_key key item) then setitem item key value else item.

(** The attributes [update_sannav_data] gives a default to. *)
Definition defaulted_attributes : list string :=
  ["zoneAlias"; "entitytype"; "activeZones"; "remoteNodeWwn"].

(** Between the two states the fetched switchport records stayed what
    they were. *)
Definition records_kept {St} (b : bool) (w w' : World St) : Prop :=
  sannav w' = sannav w.

(** ** The rows of the customer pass *)

(** The row of quoted values the customer pass sends for a fetched
    customer record: its identifier, its name with the apostrophes
    doubled, 1 or 0 for its live flag, and its stack. *)
Definition customer_row_sent (customer : row) : list string :=
  ["'" +:+ value_of customer "ID" +:+ "'";
   "'" +:+ double_apostrophes (value_of customer "NAME") +:+ "'";
   "'" +:+ (if String.eqb (value_of customer "L") "Y" then "1" else "0")
       +:+ "'";
   "'" +:+ value_of customer "STACKNUMBER" +:+ "'"].

(** One customer with an apostrophe in its name, fetched on a
    connection that takes everything. *)
Definition obrien_customer_world : World unit :=
  mkWorld tt ∅
    [[("L", "Y"); ("NAME", "O'Brien"); ("ID", "7"); ("STACKNUMBER", "3")]]
    [] [] [] ["2026-01-01 00:00:00"] [].

(** ** The customers table after the customer pass *)

(** The store of tables behind a driver that refuses the statements in
    [refused] with the [ResourceWarning] the writers catch, and takes the
    others as the store of tables does. *)
Definition warning_on (refused : sql -> bool) (q : sql) (s : TableStore.t)
    : result unit * TableStore.t :=
  if refused q then (Raise ResourceWarning, s) else TableStore.execute q s.

(** A multi-row [INSERT]. *)
Definition is_block (q : sql) : bool :=
  match q with
  | InsertBlock _ _ _ => true
  | _ => false
  end.

(** The row the store of tables holds for a fetched customer record:
    under [identifier], its [ID] and its [STACKNUMBER] as the store reads
    them (they are sent as they came), its [NAME] as it came, and 1 or 0
    for its live flag. *)
Definition customer_as_stored (identifier : string) (customer : row)
    : option row :=
  match TableStore.undouble (value_of customer "ID"),
        TableStore.undouble (value_of customer "STACKNUMBER") with
  | Some contextid, Some stackid =>
      Some [("ID", identifier); ("contextid", contextid);
            ("customer", value_of customer "NAME");
            ("status",
             if String.eqb (value_of customer "L") "Y" then "1" else "0");
            ("stackid", stackid)]
  | _, _ => None
  end.

(** A row as the store of tables keeps it: under an identifier. *)
Definition identified (stored written : row) : Prop :=
  exists identifier, stored = ("ID", identifier) :: written.

(** The rows are those of the customer records, one for each record in
    their order, and no other row. *)
Definition customers_stored (customers stored : list row) : Prop :=
  Forall2
    (fun customer r =>
       exists identifier, customer_as_stored identifier customer = Some r)
    customers stored.

(** ** The reloads of the cache in the stack pass *)

(** A store whose queries never raise [ResourceWarning].  The answer of
    the store stands for [cursor.execute] and [fetchall()] together, and
    [__read_sql_tables_to_cache] guards the first only: on such a store
    it matters to neither. *)
Definition reads_without_warning {St : Type}
    (db_fetchall : sql -> St -> result (list row) * St) : Prop :=
  forall q s, fst (db_fetchall q s) <> Raise ResourceWarning.

(** Where a pass stands with the webs cache: the cache has been read
    since the last webpool was handled ([Reloaded]), a webpool has been
    looked up ([AtWebpool]), or a web of that webpool has been looked up
    or inserted ([AtWebs]). *)
Inductive webs_turn := Reloaded | AtWebpool | AtWebs.

(** The webs of a webpool are looked up and inserted after the webpool
    has been looked up and before the webs cache is read; the cache is
    read once, after a web has been looked up and before the next
    webpool is. *)
Definition webs_turn_step (st : webs_turn) (ev : event)
    : option webs_turn :=
  if inserts_into "webs" ev then
    match st with
    | Reloaded => None
    | _ => Some AtWebs
    end
  else
    match ev with
    | EvLookup t =>
        if String.eqb t "webs" then
          match st with
          | Reloaded => None
          | _ => Some AtWebs
          end
        else if String.eqb t "webpools" then
          match st with
          | AtWebs => None
          | _ => Some AtWebpool
          end
        else Some st
    | EvSetCache t =>
        if String.eqb t "webs" then
          match st with
          | AtWebs => Some Reloaded
          | _ => None
          end
        else Some st
    | _ => Some st
    end.

(** The events keep to that order from [st] on: where they leave the
    pass, [None] when they do not keep to it. *)
Fixpoint webs_reloaded_per_webpool (st : webs_turn) (evs : list event)
    : option webs_turn :=
  match evs with
  | [] => Some st
  | ev :: rest =>
      match webs_turn_step st ev with
      | Some st' => webs_reloaded_per_webpool st' rest
      | None => None
      end
  end.

(** An event that is no part of the handling of a webpool. *)
Definition beside_webs (ev : event) : Prop :=
  forall st, webs_turn_step st ev = Some st.

(** Whether the computation returned. *)
Definition returned {A} (r : result A) : bool :=
  match r with
  | Ok _ => true
  | Raise _ => false
  end.

(** From [st] on, what the computation logs keeps to the order of the
    webs cache, and leaves the pass where [P] holds, which is told
    whether the computation returned. *)
Definition webs_turns_kept {St A} (st : webs_turn)
    (P : bool -> webs_turn -> Prop) (c : M (World St) A) : Prop :=
  forall w,
    exists evs st',
      trace (snd (c w)) = trace w ++ evs
      /\ webs_reloaded_per_webpool st evs = Some st'
      /\ P (returned (fst (c w))) st'.

(** ** The statements a pass sends, as texts *)

(** A value between apostrophes, with every apostrophe inside it
    doubled. *)
Definition closed_literal (quoted : string) : Prop :=
  exists inner,
    quoted = "'" +:+ inner +:+ "'" /\ apostrophes_paired inner = true.

(** A name between brackets, with no closing bracket inside it. *)
Definition bracketed_name (column : string) : Prop :=
  exists name,
    column = "[" +:+ name +:+ "]" /\ contains "]" name = false.

(** Every name and every value of the statement is closed: the columns
    of an [INSERT] are bracketed names and its values are closed
    literals, and an [UPDATE] sets the location columns to values that
    leave their apostrophes paired, for the stack of a name that does. *)
Definition literals_closed (q : sql) : Prop :=
  match q with
  | Insert _ column_insert value_insert =>
      Forall bracketed_name column_insert
      /\ Forall closed_literal value_insert
  | InsertBlock _ column_insert rows =>
      Forall bracketed_name column_insert
      /\ Forall (Forall closed_literal) rows
  | Update _ updates where_clause =>
      Forall (fun cv => In (fst cv) mutable_columns
                        /\ apostrophes_paired (snd cv) = true) updates
      /\ exists stack,
           where_clause = "stack = '" +:+ stack +:+ "'"
           /\ apostrophes_paired stack = true
  | _ => True
  end.

(** What is handed to [cursor.execute] is the text of one statement,
    which writes within [allowed] and whose names and values are
    closed. *)
Definition sends_one_statement (allowed : list write) (ev : event) : Prop :=
  match ev with
  | EvExecute text q =>
      text = statement_text q
      /\ writes_within allowed ev
      /\ literals_closed q
  | _ => True
  end.

(** The values of the record that the stack pass sends as they came
    hold no apostrophe. *)
Definition plain_stack_record (record : row) : Prop :=
  Forall (fun key => has_apostrophe (value_of record key) = false)
    ["stack"; "local_location"; "prod_location"; "remote_location"].

(** The values of the customer record that the customer pass sends as
    they came hold no apostrophe. *)
Definition plain_customer (customer : row) : Prop :=
  has_apostrophe (value_of customer "ID") = false
  /\ has_apostrophe (value_of customer "STACKNUMBER") = false.

(** * Properties *)

(** ** Python text *)

Lemma eqb_apostrophe (c : ascii) :
  Ascii.eqb c apostrophe = true <-> c = apostrophe.
Proof. apply Ascii.eqb_eq. Qed.

Lemma append_cons (c : ascii) (a b : string) :
  String c a +:+ b = String c (a +:+ b).
Proof. reflexivity. Qed.

Lemma append_nil_r (a : string) : a +:+ EmptyString = a.
Proof.
  induction a as [|c a IH]; [reflexivity | now rewrite append_cons, IH].
Qed.

Lemma append_assoc (a b c : string) : (a +:+ b) +:+ c = a +:+ (b +:+ c).
Proof.
  induction a as [|x a IH]; [reflexivity | now rewrite !append_cons, IH].
Qed.

Lemma concat_all_app (l1 l2 : list string) :
  concat_all (l1 ++ l2) = concat_all l1 +:+ concat_all l2.
Proof.
  induction l1 as [|x l1 IH]; simpl; [reflexivity |].
  now rewrite IH, append_assoc.
Qed.

Lemma append_last_inj (a b : string) (c : ascii) :
  a +:+ String c EmptyString = b +:+ String c EmptyString -> a = b.
Proof.
  revert b; induction a as [|x a IH]; intros [|y b] H.
  - reflexivity.
  - rewrite append_cons in H; injection H as _ H.
    destruct b; discriminate H.
  - rewrite append_cons in H; injection H as _ H.
    destruct a; discriminate H.
  - rewrite !append_cons in H; injection H as -> H.
    now rewrite (IH _ H).
Qed.

Lemma bracket_inj (a b : string) :
  "[" +:+ a +:+ "]" = "[" +:+ b +:+ "]" -> a = b.
Proof.
  intros H; rewrite !append_cons in H; injection H as H.
  exact (append_last_inj _ _ _ H).
Qed.

Lemma substring_0_length (a b : string) :
  substring 0 (String.length a) (a +:+ b) = a.
Proof.
  induction a as [|c a IH]; simpl.
  - destruct b; reflexivity.
  - now rewrite IH.
Qed.

Lemma length_append (a b : string) :
  String.length (a +:+ b) = (String.length a + String.length b)%nat.
Proof. induction a as [|c a IH]; simpl; [reflexivity | now rewrite IH]. Qed.

Lemma substring_0_le (n : nat) (s : string) :
  (n <= String.length s)%nat -> String.length (substring 0 n s) = n.
Proof.
  revert s; induction n as [|n IH]; intros [|c s] H; simpl in *;
    try reflexivity; try lia.
  rewrite IH; [reflexivity | lia].
Qed.

Lemma lookup_key_setitem_ne {V} (d : dict V) (k k' : string) (v : V) :
  k <> k' -> lookup_key k (setitem d k' v) = lookup_key k d.
Proof.
  intros Hne; induction d as [|[k0 v0] d IH]; simpl.
  - destruct (String.eqb_spec k k'); [contradiction | reflexivity].
  - destruct (String.eqb_spec k' k0) as [->|Hk0]; simpl.
    + destruct (String.eqb_spec k k0); [contradiction | reflexivity].
    + destruct (String.eqb_spec k k0); [reflexivity | exact IH].
Qed.

Lemma lookup_key_setitem_eq {V} (d : dict V) (k : string) (v : V) :
  lookup_key k (setitem d k v) = Some v.
Proof.
  induction d as [|[k0 v0] d IH]; simpl.
  - now rewrite String.eqb_refl.
  - destruct (String.eqb_spec k k0) as [->|Hk0]; simpl.
    + now rewrite String.eqb_refl.
    + destruct (String.eqb_spec k k0); [contradiction | exact IH].
Qed.

(** Splits a hypothesis [let* x := c in k = Ok v] along [c]. *)
Ltac bind_ok H :=
  match type of H with
  | Py.bind ?c _ = Ok _ =>
      let E := fresh "E" in
      destruct c eqn:E; simpl in H; [|discriminate H]
  end.

(** ** The device name of a switchport record *)

Lemma truncate_device_short (device : string) :
  len device <= 50 -> truncate_device device = device.
Proof.
  intros H; unfold truncate_device.
  destruct (Z.ltb_spec 50 (len device)); [lia | reflexivity].
Qed.

Lemma truncate_device_long (device : string) :
  50 < len device -> truncate_device device = substring 0 50 device.
Proof.
  intros H; unfold truncate_device, slice_to.
  destruct (Z.ltb_spec 50 (len device)) as [_|]; [|lia].
  destruct (Z.ltb_spec (- Z.abs (len device - 50)) 0) as [_|]; [|lia].
  replace (Z.max 0 (len device + - Z.abs (len device - 50))) with 50 by lia.
  reflexivity.
Qed.

Lemma resolve_device_setitem (o : dict pyval) (k : string) (v : pyval) :
  k <> "remoteDevice" -> k <> "remotePort" ->
  resolve_device (setitem o k v) = resolve_device o.
Proof.
  intros H1 H2.
  unfold resolve_device, present_and_filled, text_field, getitem, has_key.
  rewrite !(lookup_key_setitem_ne o _ k v) by congruence.
  reflexivity.
Qed.

Lemma resolve_device_classified (o o' : dict pyval) :
  classify_entitytype o = Ok o' -> resolve_device o' = resolve_device o.
Proof.
  unfold classify_entitytype; intros H.
  bind_ok H.
  repeat match type of H with
         | (if ?b then _ else _) = _ => destruct b
         end;
    injection H as <-;
    (reflexivity || (apply resolve_device_setitem; discriminate)).
Qed.

(** Whatever [remotePort] holds, a record with both keys gets its
    [remoteDevice]: one of the two inequalities always holds. *)
Lemma resolve_device_both_keys (o : dict pyval) (remoteDevice : string) :
  has_key "remoteDevice" o = true -> has_key "remotePort" o = true ->
  text_field o "remoteDevice" = Ok remoteDevice ->
  resolve_device o = Ok remoteDevice.
Proof.
  intros H1 H2 H3; unfold resolve_device.
  rewrite H1, H2, H3; simpl.
  destruct (String.eqb_spec remoteDevice EmptyString) as [->|]; reflexivity.
Qed.

Lemma resolve_id_columns_keeps (k : string) (cache : gmap string (list row))
    (o : dict pyval) (tables : list string) :
  Forall (fun t => source_label t +:+ "id" <> k) tables ->
  forall f f', resolve_id_columns cache o tables f = Ok f' ->
               lookup_key k f' = lookup_key k f.
Proof.
  induction 1 as [|t tables Ht _ IH]; intros f f' H; simpl in H.
  - now injection H as <-.
  - repeat bind_ok H.
    rewrite (IH _ _ H).
    apply lookup_key_setitem_ne; congruence.
Qed.

Arguments resolve_id_columns : simpl never.
Arguments format_activezones : simpl never.

(** C3 (code departs from the claim): a record with [remoteDevice]
    ['localhost'] and a filled [remotePort] is given the device name
    ['localhost'], also in the row built for the store, where the
    resolution order of the claim gives the port ['fc1/7']. *)
Theorem C3_localhost_device_kept :
  resolve_device Scenario.localhost_port = Ok "localhost"
  /\ device_as_specified Scenario.localhost_port = "fc1/7"
  /\ exists out,
       snd (__format_sannav_insert_data Scenario.reference_cache
              Scenario.localhost_port "9") = Ok out
       /\ lookup_key "devicename" (formated_sannav out) = Some "localhost".
Proof.
  split; [reflexivity | split; [reflexivity |]].
  eexists; split; [vm_compute; reflexivity | reflexivity].
Qed.

(** C2 (the claim fails as stated): for the device name of 51 characters
    [a] followed by fifty [b], the [devicename] written is not the last
    50 characters of the name. *)
Lemma C2_last_fifty_counterexample :
  resolve_device Scenario.long_name_port = Ok Scenario.long_name
  /\ 50 < len Scenario.long_name
  /\ exists out,
       snd (__format_sannav_insert_data Scenario.reference_cache
              Scenario.long_name_port "9") = Ok out
       /\ lookup_key "devicename" (formated_sannav out)
          <> Some (slice_from_end Scenario.long_name 50).
Proof.
  split; [reflexivity | split; [reflexivity |]].
  eexists; split; [vm_compute; reflexivity | vm_compute; discriminate].
Qed.

(** C2 (amended): for every record whose resolved device name is longer
    than 50 characters, the [devicename] of the row built for the store
    is exactly the first 50 characters of that name. *)
Theorem C2_devicename_first_fifty (cache : gmap string (list row))
    (sannav_object : dict pyval) (runid device : string)
    (out : formated_records) :
  resolve_device sannav_object = Ok device ->
  50 < len device ->
  snd (__format_sannav_insert_data cache sannav_object runid) = Ok out ->
  lookup_key "devicename" (formated_sannav out)
  = Some (substring 0 50 device).
Proof.
  intros Hdev Hlen H.
  unfold __format_sannav_insert_data in H.
  destruct (classify_entitytype sannav_object) as [o'|] eqn:Hc;
    [|discriminate H].
  apply resolve_device_classified in Hc.
  unfold format_classified in H.
  rewrite Hc, Hdev in H.
  destruct (text_field o' "remoteNodeWwn") as [wwn|]; [|discriminate H].
  simpl in H.
  repeat bind_ok H.
  injection H as <-; simpl.
  assert (Hk : Forall (fun t => source_label t +:+ "id" <> "devicename")
                 sannav_common_id_tables)
    by (repeat constructor; vm_compute; discriminate).
  match goal with
  | E : resolve_id_columns _ _ _ _ = Ok _ |- _ =>
      rewrite (resolve_id_columns_keeps _ _ _ _ Hk _ _ E)
  end.
  simpl. now rewrite truncate_device_long.
Qed.

Lemma C2_devicename_first_fifty_witness :
  lookup_key "devicename"
    (formated_sannav
       (mkFormated
          [("runid", "9"); ("id", "17"); ("wwn", "10:00");
           ("portnumber", "7"); ("slotnumber", "0");
           ("remotewwn", "20:00"); ("ipaddress", "10.0.0.1");
           ("devicename",
            "abbbbbbbbbbbbbbbbbbbbbbbbbbbbbbbbbbbbbbbbbbbbbbbbb");
           ("entitytypeid", "1"); ("fabricNameid", "2");
           ("healthid", "3"); ("statusid", "4");
           ("switchNameid", "5"); ("zoneid", "6")]
          [[("runid", "9"); ("sannaventityid", "17"); ("zoneid", "6")]]))
  = Some (substring 0 50 Scenario.long_name).
Proof.
  apply (C2_devicename_first_fifty Scenario.reference_cache
           Scenario.long_name_port "9" Scenario.long_name).
  - reflexivity.
  - reflexivity.
  - vm_compute; reflexivity.
Defined.

(** ** What a computation leaves behind

    A relation between the state before and after that holds across
    every primitive step holds across the computations built from them. *)

Section Keeps.

Context {W : Type}.
Variable R : W -> W -> Prop.
Hypothesis R_refl : forall w, R w w.
Hypothesis R_trans : forall a b c, R a b -> R b c -> R a c.

Lemma keeps_ret {A} (a : A) : keeps R (ret a).
Proof. intros w; apply R_refl. Qed.

Lemma keeps_raise {A} (e : exn) : keeps R (@raise W A e).
Proof. intros w; apply R_refl. Qed.

Lemma keeps_lift {A} (r : result A) : keeps R (lift r).
Proof. intros w; apply R_refl. Qed.

Lemma keeps_bind {A B} (c : M W A) (k : A -> M W B) :
  keeps R c -> (forall a, keeps R (k a)) -> keeps R (mbind c k).
Proof.
  intros Hc Hk w; unfold mbind.
  specialize (Hc w); destruct (c w) as [[a|e] w1]; simpl in *.
  - eapply R_trans; [exact Hc | apply Hk].
  - exact Hc.
Qed.

Lemma keeps_try_except {A} (c h : M W A) :
  keeps R c -> keeps R h -> keeps R (try_except c h).
Proof.
  intros Hc Hh w; unfold try_except.
  specialize (Hc w); destruct (c w) as [[a|e] w1]; simpl in *.
  - exact Hc.
  - destruct e; try exact Hc.
    eapply R_trans; [exact Hc | apply Hh].
Qed.

Lemma keeps_for_each {A} (l : list A) (body : A -> M W unit) :
  (forall x, In x l -> keeps R (body x)) -> keeps R (for_each l body).
Proof.
  induction l as [|x l IH]; intros H; simpl.
  - apply keeps_ret.
  - apply keeps_bind; [apply H; now left |].
    intros _; apply IH; intros y Hy; apply H; now right.
Qed.

Lemma keeps_if {A} (b : bool) (c d : M W A) :
  keeps R c -> keeps R d -> keeps R (if b then c else d).
Proof. destruct b; auto. Qed.

End Keeps.

Lemma emits_only_refl {St} (Q : event -> Prop) (w : World St) :
  emits_only Q w w.
Proof. exists []; split; [now rewrite app_nil_r | constructor]. Qed.

Lemma emits_only_trans {St} (Q : event -> Prop) (a b c : World St) :
  emits_only Q a b -> emits_only Q b c -> emits_only Q a c.
Proof.
  intros (e1 & H1 & F1) (e2 & H2 & F2); exists (e1 ++ e2); split.
  - now rewrite H2, H1, app_assoc.
  - now apply Forall_app.
Qed.

Lemma emits_only_same_trace {St} (Q : event -> Prop) (w w' : World St) :
  trace w' = trace w -> emits_only Q w w'.
Proof.
  intros H; exists []; split; [now rewrite app_nil_r | constructor].
Qed.

Lemma emitted_app {St} (w w' : World St) (evs : list event) :
  trace w' = trace w ++ evs -> emitted w w' = evs.
Proof. intros H; unfold emitted; rewrite H; apply drop_app_length. Qed.

Lemma emits_only_emitted {St} (Q : event -> Prop) (w w' : World St) :
  emits_only Q w w' -> Forall Q (emitted w w').
Proof. intros (evs & H & F); now rewrite (emitted_app _ _ _ H). Qed.

Section Emits.

Context {St : Type}.
Variable Q : event -> Prop.

Local Abbreviation W := (World St).

Lemma emits_ret {A} (a : A) : keeps (emits_only Q) (@ret W A a).
Proof. apply keeps_ret, emits_only_refl. Qed.

Lemma emits_raise {A} (e : exn) : keeps (emits_only Q) (@raise W A e).
Proof. apply keeps_raise, emits_only_refl. Qed.

Lemma emits_lift {A} (r : result A) : keeps (emits_only Q) (@lift W A r).
Proof. apply keeps_lift, emits_only_refl. Qed.

Lemma emits_bind {A B} (c : M W A) (k : A -> M W B) :
  keeps (emits_only Q) c -> (forall a, keeps (emits_only Q) (k a)) ->
  keeps (emits_only Q) (mbind c k).
Proof. apply keeps_bind, emits_only_trans. Qed.

Lemma emits_try_except {A} (c h : M W A) :
  keeps (emits_only Q) c -> keeps (emits_only Q) h ->
  keeps (emits_only Q) (try_except c h).
Proof. apply keeps_try_except, emits_only_trans. Qed.

Lemma emits_for_each {A} (l : list A) (body : A -> M W unit) :
  (forall x, In x l -> keeps (emits_only Q) (body x)) ->
  keeps (emits_only Q) (for_each l body).
Proof.
  apply keeps_for_each; [apply emits_only_refl | apply emits_only_trans].
Qed.

Lemma emits_bind_lift {A B} (r : result A) (k : A -> M W B) :
  (forall a, r = Ok a -> keeps (emits_only Q) (k a)) ->
  keeps (emits_only Q) (mbind (lift r) k).
Proof.
  intros H w; unfold mbind, lift; destruct r as [a|e]; simpl.
  - now apply H.
  - apply emits_only_refl.
Qed.

Lemma emits_silent {A} (c : M W A) :
  (forall w, trace (snd (c w)) = trace w) -> keeps (emits_only Q) c.
Proof. intros H w; apply emits_only_same_trace, H. Qed.

End Emits.

(** ** The connection primitives *)

Section Primitives.

Context {St : Type}.
Variable db_execute : sql -> St -> result unit * St.
Variable db_commit : St -> result unit * St.
Variable db_fetchall : sql -> St -> result (list row) * St.

Local Abbreviation W := (World St).

Lemma log_trace (e : event) (w : W) :
  log e w = (Ok tt, set_trace (trace w ++ [e]) w).
Proof. reflexivity. Qed.

Lemma cursor_execute_trace (text : string) (q : sql) (w : W) :
  trace (snd (cursor_execute db_execute text q w))
  = trace w ++ [EvExecute text q].
Proof.
  unfold cursor_execute, mbind, log; simpl.
  destruct (db_execute q (conn w)); reflexivity.
Qed.

Lemma conn_commit_trace (w : W) :
  trace (snd (conn_commit db_commit w)) = trace w ++ [EvCommit].
Proof.
  unfold conn_commit, mbind, log; simpl.
  destruct (db_commit (conn w)); reflexivity.
Qed.

Lemma cursor_fetchall_trace (q : sql) (w : W) :
  trace (snd (cursor_fetchall db_fetchall q w))
  = trace w ++ [EvExecute (statement_text q) q].
Proof.
  unfold cursor_fetchall, mbind, log; simpl.
  destruct (db_fetchall q (conn w)); reflexivity.
Qed.

Variable Q : event -> Prop.

Lemma emits_log (e : event) : Q e -> keeps (emits_only Q) (@log St e).
Proof.
  intros H w; exists [e]; split; [reflexivity | now constructor].
Qed.

Lemma emits_cursor_execute (text : string) (q : sql) :
  Q (EvExecute text q) ->
  keeps (emits_only Q) (cursor_execute db_execute text q).
Proof.
  intros H w; exists [EvExecute text q]; split;
    [apply cursor_execute_trace | now constructor].
Qed.

Lemma emits_conn_commit :
  Q EvCommit -> keeps (emits_only Q) (conn_commit db_commit).
Proof.
  intros H w; exists [EvCommit]; split;
    [apply conn_commit_trace | now constructor].
Qed.

Lemma emits_cursor_fetchall (q : sql) :
  Q (EvExecute (statement_text q) q) ->
  keeps (emits_only Q) (cursor_fetchall db_fetchall q).
Proof.
  intros H w; exists [EvExecute (statement_text q) q]; split;
    [apply cursor_fetchall_trace | now constructor].
Qed.

(** A statement run and committed under [except ResourceWarning]. *)
Lemma emits_flush (text : string) (q : sql) :
  Q (EvExecute text q) -> Q EvCommit ->
  keeps (emits_only Q)
    (try_except (cursor_execute db_execute text q ;; conn_commit db_commit)
       (ret tt)).
Proof.
  intros H1 H2.
  apply emits_try_except; [|apply emits_ret].
  apply emits_bind; [now apply emits_cursor_execute |].
  intros _; now apply emits_conn_commit.
Qed.

End Primitives.

(** ** The statement builders *)

Lemma not_in_batch_column_insert (column : string) (cols : list string) :
  column_written column = false ->
  ~ In ("[" +:+ column +:+ "]") (batch_column_insert cols).
Proof.
  intros Hw Hin; unfold batch_column_insert in Hin.
  apply in_map_iff in Hin as (c & Heq & Hc).
  apply bracket_inj in Heq; subst c.
  apply list_elem_of_In, list_elem_of_filter in Hc as [Hc _].
  congruence.
Qed.

Lemma batch_column_insert_cons (column : string) (cols : list string) :
  batch_column_insert (column :: cols)
  = if column_written column
    then ("[" +:+ column +:+ "]") :: batch_column_insert cols
    else batch_column_insert cols.
Proof.
  unfold batch_column_insert; rewrite filter_cons.
  destruct (column_written column); simpl; reflexivity.
Qed.

(** The single-row builder names the written columns of the record, in
    their order, and appends one value for each. *)
Lemma insert_columns_values_shape (cols : list string) :
  forall (d : row) (ci vi : list string) ci' vi' d',
    insert_columns_values cols d ci vi = Ok (ci', vi', d') ->
    ci' = ci ++ batch_column_insert cols
    /\ length vi' = (length vi + length (batch_column_insert cols))%nat.
Proof.
  induction cols as [|c cols IH]; intros d ci vi ci' vi' d' H; simpl in H.
  - injection H as <- <- <-; simpl; rewrite app_nil_r; split; [reflexivity|].
    unfold batch_column_insert; simpl; lia.
  - rewrite batch_column_insert_cons.
    destruct (column_written c).
    + repeat bind_ok H.
      apply IH in H as [-> ->]; rewrite <- app_assoc, length_app; simpl.
      split; [reflexivity | lia].
    + now apply IH in H.
Qed.

Lemma batch_value_insert_length (cols : list string) (entry : pyobj) :
  forall vals, batch_value_insert cols entry = Ok vals ->
               length vals = length (batch_column_insert cols).
Proof.
  induction cols as [|c cols IH]; intros vals H; simpl in H.
  - now injection H as <-.
  - rewrite batch_column_insert_cons.
    destruct (column_written c); [|now apply IH].
    destruct entry as [d|e]; [|discriminate H].
    repeat bind_ok H; injection H as <-; simpl.
    f_equal; now apply IH.
Qed.

(** What the single-row builder writes for a value without apostrophe
    is the value itself. *)
Lemma double_apostrophes_none (s : string) :
  has_apostrophe s = false -> double_apostrophes s = s.
Proof.
  induction s as [|c s IH]; simpl; [reflexivity |].
  destruct (Ascii.eqb c apostrophe); [discriminate |].
  intros H; now rewrite IH.
Qed.

Lemma double_apostrophes_paired (s : string) :
  apostrophes_paired (double_apostrophes s) = true.
Proof.
  induction s as [|c s IH]; simpl; [reflexivity |].
  destruct (Ascii.eqb c apostrophe) eqn:E;
    cbn [apostrophes_paired].
  - rewrite !Ascii.eqb_refl; exact IH.
  - now rewrite E.
Qed.

Lemma getitem_Ok {V} (d : dict V) (k : string) (v : V) :
  getitem d k = Ok v <-> lookup_key k d = Some v.
Proof.
  unfold getitem; destruct (lookup_key k d); split; congruence.
Qed.

(** The single-row builder writes every value with its apostrophes
    doubled. *)
Lemma insert_columns_values_doubled (cols : list string) :
  List.NoDup cols ->
  forall (d : row) (ci vi : list string) ci' vi' d',
    insert_columns_values cols d ci vi = Ok (ci', vi', d') ->
    vi' = vi ++ map (fun c => "'" +:+ double_apostrophes (value_of d c)
                               +:+ "'")
                    (filter (fun c => column_written c = true) cols).
Proof.
  induction 1 as [|c cols Hc _ IH]; intros d ci vi ci' vi' d' H;
    simpl in H.
  - injection H as <- <- <-; now rewrite app_nil_r.
  - rewrite filter_cons.
    destruct (column_written c) eqn:Hw; simpl.
    + bind_ok H; rename a into v.
      bind_ok H; rename a into v'.
      apply IH in H; rewrite H, <- app_assoc; simpl.
      assert (Hv' : v' = double_apostrophes v).
      { destruct (has_apostrophe v) eqn:Ha.
        - apply getitem_Ok in E0; rewrite lookup_key_setitem_eq in E0.
          congruence.
        - rewrite double_apostrophes_none by exact Ha. congruence. }
      apply getitem_Ok in E.
      unfold value_of at 2; rewrite E; simpl; subst v'.
      do 2 f_equal. apply map_ext_in; intros c' Hc'.
      apply list_elem_of_In, list_elem_of_filter in Hc' as [_ Hc'].
      apply list_elem_of_In in Hc'.
      unfold value_of; destruct (has_apostrophe v); [|reflexivity].
      rewrite lookup_key_setitem_ne; [reflexivity |].
      intros ->; contradiction.
    + now apply IH in H.
Qed.

(** C1 (code departs from the claim): the batched writer sends the value
    [O'Brien] with its apostrophe alone, in a statement the store
    refuses, where the single-row writer sends it doubled. *)
Theorem C1_batch_keeps_lone_apostrophe :
  let w := Scenario.empty_world in
  let batch :=
    insert_data_to_table_batch TableStore.execute TableStore.commit
      "zone" [Dict Scenario.obrien] 250 w in
  let single :=
    insert_data_to_table TableStore.execute TableStore.commit
      "zone" Scenario.obrien w in
  emitted w (snd batch)
  = [EvExecute
       ("INSERT INTO [dbo].[zone] ([name]) VALUES" +:+ CRLF
        +:+ "('O'Brien')")
       (InsertBlock "zone" ["[name]"] [["'O'Brien'"]])]
  /\ fst batch = Raise DatabaseError
  /\ emitted w (snd single)
     = [EvExecute "INSERT INTO [dbo].[zone] ([name]) VALUES('O''Brien')"
          (Insert "zone" ["[name]"] ["'O''Brien'"]);
        EvCommit]
  /\ fst single = Ok tt.
Proof. vm_compute. repeat split. Qed.

(** ** The two writers over any store *)

Section Writers.

Context {St : Type}.
Variable db_execute : sql -> St -> result unit * St.
Variable db_commit : St -> result unit * St.

Local Abbreviation W := (World St).

Lemma left_out_block (table_name : string) (columns_list : list string)
    (rows : list (list string)) :
  Forall (fun r => length r = length (batch_column_insert columns_list))
         rows ->
  store_columns_left_out
    (EvExecute
       (slice_to
          ((insert_head table_name
              (join "," (batch_column_insert columns_list)) +:+ CRLF)
           +:+ concat_all (map block_line rows)) (-3))
       (InsertBlock table_name (batch_column_insert columns_list) rows)).
Proof.
  intros H; split; (split; [|split]); simpl;
    try (now rewrite append_assoc);
    try (apply not_in_batch_column_insert; reflexivity);
    exact H.
Qed.

Lemma insert_data_to_table_leaves_out (table_name : string)
    (record_dict : row) :
  keeps (emits_only store_columns_left_out)
    (insert_data_to_table db_execute db_commit table_name record_dict).
Proof.
  unfold insert_data_to_table.
  apply emits_bind_lift; intros [[ci vi] d'] H.
  apply insert_columns_values_shape in H as [-> Hlen]; simpl in *.
  apply emits_flush; [|split; exact I].
  split; (split; [reflexivity | split]);
    try (apply not_in_batch_column_insert; reflexivity);
    simpl; constructor; auto.
Qed.

(** One turn of the loop of the batched writer. *)
Lemma batch_loop_cons (table_name : string) (columns_list : list string)
    (column_insert : list string) (size : Z) (entry : pyobj)
    (rest : list pyobj) (block : string) (count : Z)
    (pending : list (list string)) (w : W) :
  batch_loop db_execute db_commit table_name columns_list column_insert
    size (entry :: rest) block count pending w
  = match batch_value_insert columns_list entry with
    | Raise e => (Raise e, w)
    | Ok vals =>
        if size =? 0 then (Raise ZeroDivisionError, w)
        else if ((count + 1) mod size =? 0) && negb (count + 1 =? 0)
        then
          match
            try_except
              (cursor_execute db_execute
                 (slice_to (block +:+ block_line vals) (-3))
                 (InsertBlock table_name column_insert (pending ++ [vals]))
               ;; conn_commit db_commit)
              (ret tt) w
          with
          | (Ok _, w1) =>
              batch_loop db_execute db_commit table_name columns_list
                column_insert size rest
                (insert_head table_name (join "," column_insert) +:+ CRLF)
                0 [] w1
          | (Raise e, w1) => (Raise e, w1)
          end
        else
          batch_loop db_execute db_commit table_name columns_list
            column_insert size rest (block +:+ block_line vals) (count + 1)
            (pending ++ [vals]) w
    end.
Proof.
  cbn [batch_loop]; unfold mbind at 1, lift at 1.
  destruct (batch_value_insert columns_list entry) as [vals|e];
    [|reflexivity].
  destruct (size =? 0); [reflexivity |].
  destruct (((count + 1) mod size =? 0) && negb (count + 1 =? 0));
    reflexivity.
Qed.

(** The batched writer: the columns of the first record, the loop, and
    the last, partial block. *)
Lemma insert_data_to_table_batch_eq (table_name : string)
    (record_list : list pyobj) (size : Z) (w : W) :
  insert_data_to_table_batch db_execute db_commit table_name record_list
    size w
  = match first record_list with
    | Raise e => (Raise e, w)
    | Ok (ExcObj _) => (Raise (AttributeError "keys"), w)
    | Ok (Dict d) =>
        match
          batch_loop db_execute db_commit table_name (keys d)
            (batch_column_insert (keys d)) size record_list
            (insert_head table_name
               (join "," (batch_column_insert (keys d))) +:+ CRLF)
            0 [] w
        with
        | (Raise e, w1) => (Raise e, w1)
        | (Ok (b, c, p), w1) =>
            if 0 <? c then
              try_except
                (cursor_execute db_execute (slice_to b (-3))
                   (InsertBlock table_name (batch_column_insert (keys d)) p)
                 ;; conn_commit db_commit)
                (ret tt) w1
            else (Ok tt, w1)
        end
    end.
Proof.
  unfold insert_data_to_table_batch, mbind at 1, lift at 1.
  destruct (first record_list) as [[d|e]|e]; try reflexivity.
  unfold mbind at 1, ret at 1; unfold mbind at 1.
  destruct (batch_loop _ _ _ _ _ _ _ _ _ _ w) as [[[[b c] p]|e] w1];
    [|reflexivity].
  cbn [fst snd]; destruct (0 <? c); reflexivity.
Qed.

Lemma batch_loop_leaves_out (table_name : string)
    (columns_list : list string) (size : Z) (record_list : list pyobj) :
  forall (block : string) (count : Z) (pending : list (list string))
         (w : W),
    block = (insert_head table_name
               (join "," (batch_column_insert columns_list)) +:+ CRLF)
            +:+ concat_all (map block_line pending) ->
    Forall (fun r => length r = length (batch_column_insert columns_list))
           pending ->
    let out :=
      batch_loop db_execute db_commit table_name columns_list
        (batch_column_insert columns_list) size record_list block count
        pending w in
    emits_only store_columns_left_out w (snd out)
    /\ forall b c p,
         fst out = Ok (b, c, p) ->
         b = (insert_head table_name
                (join "," (batch_column_insert columns_list)) +:+ CRLF)
             +:+ concat_all (map block_line p)
         /\ Forall (fun r =>
                      length r = length (batch_column_insert columns_list))
                   p.
Proof.
  induction record_list as [|entry rest IH];
    intros block count pending w Hb Hp.
  - simpl; split; [apply emits_only_refl |].
    intros b c p H; injection H as <- <- <-; auto.
  - rewrite batch_loop_cons.
    destruct (batch_value_insert columns_list entry) as [vals|e] eqn:E.
    2:{ simpl; split; [apply emits_only_refl | discriminate]. }
    assert (Hb' : block +:+ block_line vals
                  = (insert_head table_name
                       (join "," (batch_column_insert columns_list))
                     +:+ CRLF)
                    +:+ concat_all (map block_line (pending ++ [vals]))).
    { rewrite Hb, map_app, concat_all_app, append_assoc; simpl.
      now rewrite append_nil_r. }
    assert (Hp' : Forall (fun r => length r
                            = length (batch_column_insert columns_list))
                    (pending ++ [vals])).
    { apply Forall_app; split; [exact Hp |].
      constructor; [|constructor].
      now apply batch_value_insert_length with entry. }
    destruct (size =? 0).
    { simpl; split; [apply emits_only_refl | discriminate]. }
    destruct (((count + 1) mod size =? 0) && negb (count + 1 =? 0)).
    2:{ now apply IH. }
    pose proof (emits_flush db_execute db_commit store_columns_left_out
                  (slice_to (block +:+ block_line vals) (-3))
                  (InsertBlock table_name
                     (batch_column_insert columns_list) (pending ++ [vals]))
                  ltac:(rewrite Hb'; now apply left_out_block)
                  ltac:(split; exact I) w) as Hf.
    destruct (try_except _ _ w) as [[u|e] w1]; simpl in Hf.
    + destruct (IH (insert_head table_name
                      (join "," (batch_column_insert columns_list))
                    +:+ CRLF) 0 [] w1) as [He Hs].
      * simpl; now rewrite append_nil_r.
      * constructor.
      * split; [eapply emits_only_trans; eassumption | exact Hs].
    + simpl; split; [exact Hf | discriminate].
Qed.

Lemma insert_data_to_table_batch_leaves_out (table_name : string)
    (record_list : list pyobj) (size : Z) :
  keeps (emits_only store_columns_left_out)
    (insert_data_to_table_batch db_execute db_commit table_name
       record_list size).
Proof.
  unfold insert_data_to_table_batch.
  apply emits_bind_lift; intros first_record _.
  apply emits_bind.
  { destruct first_record; [apply emits_ret | apply emits_raise]. }
  intros columns_list w; unfold mbind.
  destruct (batch_loop_leaves_out table_name columns_list size record_list
              (insert_head table_name
                 (join "," (batch_column_insert columns_list)) +:+ CRLF)
              0 [] w) as [He Hs].
  { simpl; now rewrite append_nil_r. }
  { constructor. }
  destruct (batch_loop _ _ _ _ _ _ _ _ _ _ w) as [[[[b c] p]|e] w1];
    simpl in *; [|exact He].
  destruct (Hs b c p eq_refl) as [-> Hp].
  destruct (0 <? c).
  - eapply emits_only_trans; [exact He |].
    apply emits_flush; [now apply left_out_block | split; exact I].
  - exact He.
Qed.

(** C10: whatever the record or the records hold, no statement sent by
    [insert_data_to_table] or by [insert_data_to_table_batch] names the
    column [ID] or [datecreated], and none carries more values in a row
    than it names columns: the identifier and creation time the store
    assigns are never written. *)
Theorem C10_store_columns_never_written (table_name : string)
    (record_dict : row) (record_list : list pyobj)
    (tranaction_block_size : Z) (w : W) :
  Forall store_columns_left_out
    (emitted w
       (snd (insert_data_to_table db_execute db_commit table_name
               record_dict w)))
  /\ Forall store_columns_left_out
       (emitted w
          (snd (insert_data_to_table_batch db_execute db_commit table_name
                  record_list tranaction_block_size w))).
Proof.
  split; apply emits_only_emitted.
  - apply insert_data_to_table_leaves_out.
  - apply insert_data_to_table_batch_leaves_out.
Qed.

End Writers.

(** ** The batch boundary on a store that accepts *)

Section BatchBoundary.

Context {St : Type}.
Variable db_execute : sql -> St -> result unit * St.
Variable db_commit : St -> result unit * St.
Hypothesis Haccept : accepting db_execute db_commit.

Local Abbreviation W := (World St).

Lemma flush_accepted (text : string) (q : sql) (w : W) :
  exists w',
    try_except (cursor_execute db_execute text q ;; conn_commit db_commit)
      (ret tt) w = (Ok tt, w')
    /\ trace w' = trace w ++ [EvExecute text q; EvCommit].
Proof.
  destruct Haccept as [He Hc].
  unfold try_except, mbind, cursor_execute, conn_commit, mbind, log; simpl.
  pose proof (He q (conn w)) as H1.
  destruct (db_execute q (conn w)) as [r s]; simpl in H1; subst r; simpl.
  pose proof (Hc s) as H2.
  destruct (db_commit s) as [r s2]; simpl in H2; subst r; simpl.
  eexists; split; [reflexivity |].
  simpl; now rewrite <- app_assoc.
Qed.

Lemma batch_rows_length (cols : list string) (record_list : list pyobj) :
  forall rows, batch_rows cols record_list = Ok rows ->
               length rows = length record_list.
Proof.
  induction record_list as [|entry rest IH]; intros rows H; simpl in H.
  - now injection H as <-.
  - repeat bind_ok H; injection H as <-; simpl; f_equal; now apply IH.
Qed.

Lemma batch_rows_in_order (cols : list string) (record_list : list pyobj) :
  forall rows, batch_rows cols record_list = Ok rows ->
               Forall2 (fun entry vals =>
                          batch_value_insert cols entry = Ok vals)
                       record_list rows.
Proof.
  induction record_list as [|entry rest IH]; intros rows H; simpl in H.
  - injection H as <-; constructor.
  - repeat bind_ok H; injection H as <-; constructor; auto.
Qed.

Lemma batch_rows_app (cols : list string) (l1 l2 : list pyobj) :
  forall rows, batch_rows cols (l1 ++ l2) = Ok rows ->
               batch_rows cols l1 = Ok (take (length l1) rows)
               /\ batch_rows cols l2 = Ok (drop (length l1) rows).
Proof.
  induction l1 as [|entry l1 IH]; intros rows H; simpl in *.
  - now rewrite drop_0.
  - repeat bind_ok H; injection H as <-; simpl.
    destruct (IH _ eq_refl) as [-> ->]; simpl; auto.
Qed.

(** Records that do not fill the block are joined to it and nothing is
    sent. *)
Lemma batch_loop_fill (table_name : string) (cols ci : list string)
    (size : Z) (record_list : list pyobj) :
  forall rows block count pending (w : W),
    batch_rows cols record_list = Ok rows ->
    0 <= count ->
    count + Z.of_nat (length record_list) < size ->
    batch_loop db_execute db_commit table_name cols ci size record_list
      block count pending w
    = (Ok (block +:+ concat_all (map block_line rows),
           count + Z.of_nat (length record_list), pending ++ rows), w).
Proof.
  induction record_list as [|entry rest IH];
    intros rows block count pending w Hr Hc Hlt; simpl in Hr.
  - injection Hr as <-; simpl.
    now rewrite append_nil_r, app_nil_r, Z.add_0_r.
  - repeat bind_ok Hr; injection Hr as <-.
    rewrite batch_loop_cons, E.
    cbn [length] in Hlt.
    destruct (Z.eqb_spec size 0); [lia |].
    replace ((count + 1) mod size =? 0) with false.
    2:{ symmetry; apply Z.eqb_neq. rewrite Z.mod_small; lia. }
    cbn [andb].
    rewrite (IH _ _ _ _ _ eq_refl) by lia.
    cbn [length map concat_all].
    rewrite append_assoc, <- app_assoc.
    replace (count + 1 + Z.of_nat (length rest))
      with (count + Z.of_nat (S (length rest))) by lia.
    reflexivity.
Qed.

(** Records that fill the block exactly are sent with it as one
    statement, committed, and the block starts anew. *)
Lemma batch_loop_fill_flush (table_name : string) (cols ci : list string)
    (size : Z) (record_list : list pyobj) :
  forall rows block count pending (w : W),
    batch_rows cols record_list = Ok rows ->
    0 <= count ->
    record_list <> [] ->
    count + Z.of_nat (length record_list) = size ->
    exists w',
      batch_loop db_execute db_commit table_name cols ci size record_list
        block count pending w
      = (Ok (insert_head table_name (join "," ci) +:+ CRLF, 0, []), w')
      /\ trace w'
         = trace w
           ++ [EvExecute
                 (slice_to (block +:+ concat_all (map block_line rows))
                    (-3))
                 (InsertBlock table_name ci (pending ++ rows));
               EvCommit].
Proof.
  induction record_list as [|entry rest IH];
    intros rows block count pending w Hr Hc Hne Hsz; [contradiction |].
  simpl in Hr; repeat bind_ok Hr; injection Hr as <-.
  rewrite batch_loop_cons, E.
  cbn [length] in Hsz.
  destruct (Z.eqb_spec size 0); [lia |].
  destruct rest as [|entry2 rest].
  - simpl in E0; injection E0 as <-.
    replace ((count + 1) mod size =? 0) with true.
    2:{ symmetry; apply Z.eqb_eq.
        replace (count + 1) with size by (simpl in Hsz; lia).
        apply Z_mod_same_full. }
    replace (negb (count + 1 =? 0)) with true.
    2:{ symmetry; apply negb_true_iff, Z.eqb_neq; lia. }
    cbn [andb].
    destruct (flush_accepted
                (slice_to (block +:+ block_line a) (-3))
                (InsertBlock table_name ci (pending ++ [a])) w)
      as (w' & -> & Ht).
    exists w'; split; [reflexivity |].
    rewrite Ht; simpl; now rewrite append_nil_r.
  - replace ((count + 1) mod size =? 0) with false.
    2:{ symmetry; apply Z.eqb_neq.
        cbn [length] in Hsz. rewrite Z.mod_small; lia. }
    cbn [andb].
    destruct (IH _ (block +:+ block_line a) (count + 1) (pending ++ [a]) w
                eq_refl ltac:(lia) ltac:(discriminate)
                ltac:(cbn [length] in *; lia))
      as (w' & -> & Ht).
    exists w'; split; [reflexivity |].
    rewrite Ht; cbn [map concat_all].
    now rewrite append_assoc, <- app_assoc.
Qed.

Lemma batch_loop_app (table_name : string) (cols ci : list string)
    (size : Z) (l1 l2 : list pyobj) :
  forall block count pending (w : W),
    batch_loop db_execute db_commit table_name cols ci size (l1 ++ l2)
      block count pending w
    = match batch_loop db_execute db_commit table_name cols ci size l1
              block count pending w with
      | (Ok (b, c, p), w1) =>
          batch_loop db_execute db_commit table_name cols ci size l2
            b c p w1
      | (Raise e, w1) => (Raise e, w1)
      end.
Proof.
  induction l1 as [|entry l1 IH]; intros block count pending w.
  - reflexivity.
  - rewrite <- app_comm_cons, !batch_loop_cons.
    destruct (batch_value_insert cols entry); [|reflexivity].
    destruct (size =? 0); [reflexivity |].
    destruct (((count + 1) mod size =? 0) && negb (count + 1 =? 0));
      [|apply IH].
    destruct (try_except _ _ w) as [[u|e] w1]; [apply IH | reflexivity].
Qed.

Lemma block_text (table_name : string) (ci : list string)
    (rows : list (list string)) :
  slice_to ((insert_head table_name (join "," ci) +:+ CRLF)
            +:+ concat_all (map block_line rows)) (-3)
  = statement_text (InsertBlock table_name ci rows).
Proof. simpl; now rewrite append_assoc. Qed.


End BatchBoundary.


(** ** The customer pass *)

Section CustomerPass.

Context {St : Type}.
Variable db_execute : sql -> St -> result unit * St.
Variable db_commit : St -> result unit * St.
Variable db_fetchall : sql -> St -> result (list row) * St.

Local Abbreviation W := (World St).

Lemma update_customer_data_eq (w : W) :
  update_customer_data db_execute db_commit db_fetchall w
  = match __clear_table db_execute db_commit "customers" w with
    | (Raise e, w1) => (Raise e, w1)
    | (Ok false, w1) =>
        (Raise (SystemExit
                  "No update to customers table due to table clear failure."),
         w1)
    | (Ok true, w1) =>
        let results :=
          map (fun customer_object =>
                 gathered (__format_customer_insert_data customer_object))
              (customers w) in
        if 0 <? Z.of_nat (length results) then
          (try_except
             (insert_data_to_table_batch db_execute db_commit "customers"
                results 250 ;;
              __read_sql_tables_to_cache db_fetchall "customers")
             (ret tt) ;;
           try_except
             (__update_source_refresh_timestamp db_execute db_commit
                "customers")
             (ret tt)) w1
        else (Ok tt, w1)
    end.
Proof.
  unfold update_customer_data, mbind at 1, __customer_lookup_async.
  unfold mbind at 1.
  destruct (__clear_table db_execute db_commit "customers" w)
    as [[[|]|e] w1]; cbn [negb]; try reflexivity.
  destruct (0 <? _); reflexivity.
Qed.

Lemma clear_table_emits (Q : event -> Prop) (table : string) :
  Q (EvExecute (statement_text (Truncate table)) (Truncate table)) ->
  Q EvCommit ->
  keeps (emits_only Q) (__clear_table db_execute db_commit table).
Proof.
  intros H1 H2; unfold __clear_table.
  apply emits_try_except; [|apply emits_ret].
  apply emits_bind; [now apply emits_cursor_execute |]; intros _.
  apply emits_bind; [now apply emits_conn_commit |]; intros _.
  apply emits_ret.
Qed.

(** C6: when clearing the customers table does not report success,
    whether it reports failure or raises, the customer pass stops there
    with an exception ([SystemExit] after a reported failure), in the
    state the clearing left, having sent no [INSERT] into the customers
    table. *)
Theorem C6_failed_clear_stops_the_pass (w : W) :
  fst (__clear_table db_execute db_commit "customers" w) <> Ok true ->
  let out := update_customer_data db_execute db_commit db_fetchall w in
  (exists e, fst out = Raise e)
  /\ (fst (__clear_table db_execute db_commit "customers" w) = Ok false ->
      exists msg, fst out = Raise (SystemExit msg))
  /\ snd out = snd (__clear_table db_execute db_commit "customers" w)
  /\ Forall (fun ev => inserts_into "customers" ev = false)
            (emitted w (snd out)).
Proof.
  intros Hclear out; subst out; rewrite update_customer_data_eq.
  pose proof (clear_table_emits
                (fun ev => inserts_into "customers" ev = false) "customers"
                eq_refl eq_refl w) as He.
  apply emits_only_emitted in He.
  destruct (__clear_table db_execute db_commit "customers" w)
    as [[[|]|e] w1]; cbn [fst snd] in *.
  - contradiction.
  - repeat split; eauto; discriminate.
  - repeat split; eauto; discriminate.
Qed.

End CustomerPass.

Lemma C6_failed_clear_stops_the_pass_witness :
  fst (__clear_table (refusing_execute ResourceWarning) Scenario.nod_commit
         "customers" Scenario.nod_world) <> Ok true
  /\ exists e,
       fst (update_customer_data (refusing_execute ResourceWarning)
              Scenario.nod_commit Scenario.nod_fetchall Scenario.nod_world)
       = Raise e.
Proof.
  assert (H : fst (__clear_table (refusing_execute ResourceWarning)
                     Scenario.nod_commit "customers" Scenario.nod_world)
              <> Ok true)
    by (vm_compute; discriminate).
  split; [exact H |].
  exact (proj1 (C6_failed_clear_stops_the_pass
                  (refusing_execute ResourceWarning) Scenario.nod_commit
                  Scenario.nod_fetchall Scenario.nod_world H)).
Defined.

(** ** The customer pass on the store of tables *)

Section OnTableStore.

Local Abbreviation W := (World TableStore.t).
Local Abbreviation ts_execute := TableStore.execute.
Local Abbreviation ts_commit := TableStore.commit.
Local Abbreviation ts_fetchall := TableStore.fetchall.

Lemma rows_of_append_rows (table : string) (rows : list row)
    (s : TableStore.t) :
  TableStore.rows_of table (TableStore.append_rows table rows s)
  = TableStore.rows_of table s
    ++ TableStore.with_ids (TableStore.next_id s) rows.
Proof.
  unfold TableStore.rows_of at 1, TableStore.append_rows; simpl.
  now rewrite lookup_key_setitem_eq.
Qed.

Lemma literals_error (vals : list string) (e : exn) :
  TableStore.literals vals = Raise e -> e = DatabaseError.
Proof.
  induction vals as [|v vals IH]; simpl; [discriminate |].
  unfold TableStore.literal.
  destruct (TableStore.undouble (TableStore.strip_ends v)); simpl.
  - destruct (TableStore.literals vals); simpl; [discriminate |].
    intros H; injection H as <-; now apply IH.
  - intros H; now injection H as <-.
Qed.

Lemma decode_row_error (ci vals : list string) (e : exn) :
  TableStore.decode_row ci vals = Raise e -> e = DatabaseError.
Proof.
  unfold TableStore.decode_row.
  destruct (Nat.eqb _ _); [|intros H; now injection H as <-].
  destruct (TableStore.literals vals) eqn:E; simpl; [discriminate |].
  intros H; injection H as <-; now apply literals_error with vals.
Qed.

Lemma decode_rows_error (ci : list string) (rows : list (list string))
    (e : exn) :
  TableStore.decode_rows ci rows = Raise e -> e = DatabaseError.
Proof.
  induction rows as [|r rows IH]; simpl; [discriminate |].
  destruct (TableStore.decode_row ci r) eqn:E; simpl.
  - destruct (TableStore.decode_rows ci rows); simpl; [discriminate |].
    intros H; injection H as <-; now apply IH.
  - intros H; injection H as <-; now apply decode_row_error with ci r.
Qed.

End OnTableStore.

(** ** What never leaves as [ResourceWarning]

    The handlers of the module catch [ResourceWarning] only.  The
    writers guard every statement and every commit they send, and let
    no [ResourceWarning] out. *)

Section Quiet.

Context {W : Type}.

Lemma quiet_ret {A} (a : A) : quiet (@ret W A a).
Proof. intros w; discriminate. Qed.

Lemma quiet_raise {A} (e : exn) :
  e <> ResourceWarning -> quiet (@raise W A e).
Proof. intros H w; simpl; congruence. Qed.

Lemma quiet_lift {A} (r : result A) :
  r <> Raise ResourceWarning -> quiet (@lift W A r).
Proof. intros H w; exact H. Qed.

Lemma quiet_bind {A B} (c : M W A) (k : A -> M W B) :
  quiet c -> (forall a, quiet (k a)) -> quiet (mbind c k).
Proof.
  intros Hc Hk w; unfold mbind.
  specialize (Hc w); destruct (c w) as [[a|e] w1]; simpl in *.
  - apply Hk.
  - intros H; apply Hc; injection H as ->; reflexivity.
Qed.

Lemma quiet_try_except {A} (c h : M W A) :
  quiet h -> quiet (try_except c h).
Proof.
  intros Hh w; unfold try_except.
  destruct (c w) as [[a|e] w1]; simpl; [discriminate |].
  destruct e; simpl; try discriminate. apply Hh.
Qed.

Lemma quiet_for_each {A} (l : list A) (body : A -> M W unit) :
  (forall x, quiet (body x)) -> quiet (for_each l body).
Proof.
  intros H; induction l as [|x l IH]; simpl.
  - apply quiet_ret.
  - apply quiet_bind; [apply H | intros _; exact IH].
Qed.

Lemma quiet_state {A} (f : W -> A * W) :
  quiet (fun w => (Ok (fst (f w)), snd (f w))).
Proof. intros w; discriminate. Qed.

Lemma for_each_cons {A} (x : A) (l : list A) (body : A -> M W unit)
    (w : W) :
  for_each (x :: l) body w
  = match body x w with
    | (Ok _, w1) => for_each l body w1
    | (Raise e, w1) => (Raise e, w1)
    end.
Proof. reflexivity. Qed.

Lemma try_except_quiet {A} (c h : M W A) (w : W) :
  quiet c -> try_except c h w = c w.
Proof.
  intros Hc; unfold try_except; specialize (Hc w).
  destruct (c w) as [[a|e] w1]; [reflexivity |].
  destruct e; try reflexivity. now contradiction Hc.
Qed.

Lemma mbind_Ok {A B} (c : M W A) (k : A -> M W B) (w w' : W) (b : B) :
  mbind c k w = (Ok b, w') ->
  exists a w1, c w = (Ok a, w1) /\ k a w1 = (Ok b, w').
Proof.
  unfold mbind; destruct (c w) as [[a|e] w1]; [eauto | discriminate].
Qed.

End Quiet.

(** The same exception at another result type. *)
Ltac same_exception H :=
  simpl in *;
  let X := fresh in intros X; apply H; injection X as ->; reflexivity.

Lemma getitem_quiet {V} (d : dict V) (k : string) :
  getitem d k <> Raise ResourceWarning.
Proof. unfold getitem; destruct (lookup_key k d); discriminate. Qed.

Lemma bind_quiet {A B} (r : result A) (k : A -> result B) :
  r <> Raise ResourceWarning ->
  (forall a, k a <> Raise ResourceWarning) ->
  Py.bind r k <> Raise ResourceWarning.
Proof.
  intros Hr Hk; destruct r as [a|e]; simpl; [apply Hk |].
  intros H; apply Hr; injection H as ->; reflexivity.
Qed.

Lemma first_quiet {A} (l : list A) : first l <> Raise ResourceWarning.
Proof. destruct l; discriminate. Qed.

Lemma batch_value_insert_quiet (cols : list string) (entry : pyobj) :
  batch_value_insert cols entry <> Raise ResourceWarning.
Proof.
  induction cols as [|c cols IH]; simpl; [discriminate |].
  destruct (column_written c); [|exact IH].
  destruct entry; [|discriminate].
  apply bind_quiet; [apply getitem_quiet | intros v].
  apply bind_quiet; [exact IH | discriminate].
Qed.

Lemma insert_columns_values_quiet (cols : list string) :
  forall d ci vi,
    insert_columns_values cols d ci vi <> Raise ResourceWarning.
Proof.
  induction cols as [|c cols IH]; intros d ci vi; simpl; [discriminate |].
  destruct (column_written c); [|apply IH].
  apply bind_quiet; [apply getitem_quiet | intros v].
  apply bind_quiet; [apply getitem_quiet | intros v'; apply IH].
Qed.

Lemma search_rows_quiet (key value : string) (rows : list row) :
  search_rows key value rows <> Raise ResourceWarning.
Proof.
  induction rows as [|r rows IH]; simpl; [discriminate |].
  apply bind_quiet; [apply getitem_quiet | intros v].
  apply bind_quiet; [exact IH | discriminate].
Qed.

Section QuietEngine.

Context {St : Type}.
Variable db_execute : sql -> St -> result unit * St.
Variable db_commit : St -> result unit * St.
Variable db_fetchall : sql -> St -> result (list row) * St.

Local Abbreviation W := (World St).

Lemma insert_data_to_table_quiet (table_name : string) (record_dict : row) :
  quiet (insert_data_to_table db_execute db_commit table_name record_dict).
Proof.
  unfold insert_data_to_table.
  apply quiet_bind; [apply quiet_lift, insert_columns_values_quiet |].
  intros built; apply quiet_try_except, quiet_ret.
Qed.

Lemma batch_loop_quiet (table_name : string) (cols ci : list string)
    (size : Z) (record_list : list pyobj) :
  forall block count pending,
    quiet (batch_loop db_execute db_commit table_name cols ci size
             record_list block count pending).
Proof.
  induction record_list as [|entry rest IH]; intros block count pending w.
  - discriminate.
  - rewrite batch_loop_cons.
    pose proof (batch_value_insert_quiet cols entry) as Hv.
    destruct (batch_value_insert cols entry) as [vals|e];
      [|same_exception Hv].
    destruct (size =? 0); [discriminate |].
    destruct (((count + 1) mod size =? 0) && negb (count + 1 =? 0));
      [|apply IH].
    pose proof (quiet_try_except
                  (cursor_execute db_execute
                     (slice_to (block +:+ block_line vals) (-3))
                     (InsertBlock table_name ci (pending ++ [vals]))
                   ;; conn_commit db_commit)
                  (ret tt) (quiet_ret tt) w) as Hq.
    destruct (try_except _ _ w) as [[u|e] w1];
      [apply IH | same_exception Hq].
Qed.

Lemma insert_data_to_table_batch_quiet (table_name : string)
    (record_list : list pyobj) (size : Z) :
  quiet (insert_data_to_table_batch db_execute db_commit table_name
           record_list size).
Proof.
  intros w; rewrite insert_data_to_table_batch_eq.
  pose proof (first_quiet record_list) as Hf.
  destruct (first record_list) as [[d|e]|e];
    [|discriminate | same_exception Hf].
  pose proof (batch_loop_quiet table_name (keys d)
                (batch_column_insert (keys d)) size record_list
                (insert_head table_name
                   (join "," (batch_column_insert (keys d))) +:+ CRLF)
                0 [] w) as Hl.
  destruct (batch_loop _ _ _ _ _ _ _ _ _ _ w) as [[[[b c] p]|e] w1];
    [|same_exception Hl].
  destruct (0 <? c); [|discriminate].
  apply quiet_try_except, quiet_ret.
Qed.

End QuietEngine.

(** ** Relations kept by the parts of a pass *)

Section Respects.

Context {W : Type}.
Variable R : bool -> W -> W -> Prop.
Hypothesis R_refl : forall b w, R b w w.
Hypothesis R_trans : forall b x y z, R true x y -> R b y z -> R b x z.

Lemma respects_ret {A} (a : A) : respects R (@ret W A a).
Proof. intros w; apply R_refl. Qed.

Lemma respects_raise {A} (e : exn) : respects R (@raise W A e).
Proof. intros w; apply R_refl. Qed.

Lemma respects_lift {A} (r : result A) : respects R (@lift W A r).
Proof. intros w; apply R_refl. Qed.

Lemma respects_bind {A B} (c : M W A) (k : A -> M W B) :
  respects R c -> (forall a, respects R (k a)) -> respects R (mbind c k).
Proof.
  intros Hc Hk w; unfold mbind.
  specialize (Hc w); destruct (c w) as [[a|e] w1]; simpl in *.
  - eapply R_trans; [exact Hc | apply Hk].
  - exact Hc.
Qed.

Lemma respects_try_except {A} (c h : M W A) :
  respects R c -> respects R h -> respects R (try_except c h).
Proof.
  intros Hc Hh w; unfold try_except.
  specialize (Hc w); destruct (c w) as [[a|e] w1]; simpl in *.
  - exact Hc.
  - destruct e; try exact Hc.
    eapply R_trans; [exact Hc | apply Hh].
Qed.

Lemma respects_for_each {A} (l : list A) (body : A -> M W unit) :
  (forall x, respects R (body x)) -> respects R (for_each l body).
Proof.
  intros H; induction l as [|x l IH]; simpl.
  - apply respects_ret.
  - apply respects_bind; [apply H | intros _; exact IH].
Qed.

End Respects.

Section EngineRespects.

Context {St : Type}.
Variable db_execute : sql -> St -> result unit * St.
Variable db_commit : St -> result unit * St.
Variable db_fetchall : sql -> St -> result (list row) * St.

Local Abbreviation W := (World St).

(** A relation [R] that holds across a logged event satisfying [Q],
    across a change of the connection or of the clock, and across the
    replacement of a cached table satisfying [P]. *)
Variable R : bool -> W -> W -> Prop.
Variable Q : event -> Prop.
Variable P : string -> Prop.
Hypothesis R_refl : forall b w, R b w w.
Hypothesis R_trans : forall b x y z, R true x y -> R b y z -> R b x z.
Hypothesis R_log :
  forall b e w, Q e -> R b w (set_trace (trace w ++ [e]) w).
Hypothesis R_conn : forall b s w, R b w (set_conn s w).
Hypothesis R_clock : forall b l w, R b w (set_clock l w).
Hypothesis R_cache :
  forall b t rows w,
    P t -> R b w (set_tables_cache (<[t:=rows]> (tables_cache w)) w).
Hypothesis Q_commit : Q EvCommit.
Hypothesis Q_lookup : forall t, Q (EvLookup t).
Hypothesis Q_select_all :
  forall t, Q (EvExecute (statement_text (SelectAll t)) (SelectAll t)).
Hypothesis Q_select_zones :
  Q (EvExecute (statement_text SelectActiveZones) SelectActiveZones).
Hypothesis Q_select_run :
  forall d, Q (EvExecute (statement_text (SelectRunId d)) (SelectRunId d)).
Hypothesis Q_tracking :
  forall text l d, Q (EvExecute text (UpdateTracking l d)).

Lemma respects_log (e : event) : Q e -> respects R (@log St e).
Proof. intros H w; simpl; now apply R_log. Qed.

Lemma respects_cursor_execute (text : string) (q : sql) :
  Q (EvExecute text q) -> respects R (cursor_execute db_execute text q).
Proof.
  intros H w; unfold cursor_execute, mbind, log; simpl.
  destruct (db_execute q _) as [r s]; simpl.
  eapply R_trans; [apply R_log, H | apply R_conn].
Qed.

Lemma respects_conn_commit : respects R (conn_commit db_commit).
Proof.
  intros w; unfold conn_commit, mbind, log; simpl.
  destruct (db_commit _) as [r s]; simpl.
  eapply R_trans; [apply R_log, Q_commit | apply R_conn].
Qed.

Lemma respects_cursor_fetchall (q : sql) :
  Q (EvExecute (statement_text q) q) ->
  respects R (cursor_fetchall db_fetchall q).
Proof.
  intros H w; unfold cursor_fetchall, mbind, log; simpl.
  destruct (db_fetchall q _) as [r s]; simpl.
  eapply R_trans; [apply R_log, H | apply R_conn].
Qed.

Lemma respects_cached (table : string) : respects R (@cached St table).
Proof.
  intros w; unfold cached, mbind, log; simpl.
  destruct (_ !! table); simpl; apply R_log, Q_lookup.
Qed.

Lemma respects_search_cache (table key value : string) :
  respects R (@search_cache St table key value).
Proof.
  unfold search_cache.
  apply respects_bind; auto using respects_cached.
  intros rows; now apply respects_lift.
Qed.

Lemma respects_flush (text : string) (q : sql) :
  Q (EvExecute text q) ->
  respects R
    (try_except (cursor_execute db_execute text q ;; conn_commit db_commit)
       (ret tt)).
Proof.
  intros H; apply respects_try_except; auto.
  - apply respects_bind; auto using respects_cursor_execute.
    intros _; apply respects_conn_commit.
  - now apply respects_ret.
Qed.

Lemma respects_insert_data_to_table (table_name : string)
    (record_dict : row) :
  (forall text ci vi, Q (EvExecute text (Insert table_name ci vi))) ->
  respects R
    (insert_data_to_table db_execute db_commit table_name record_dict).
Proof.
  intros H; unfold insert_data_to_table.
  apply respects_bind; auto; [now apply respects_lift |].
  intros built; apply respects_flush, H.
Qed.

Lemma respects_read (table_name : string) :
  P table_name -> Q (EvSetCache table_name) ->
  respects R (__read_sql_tables_to_cache db_fetchall table_name).
Proof.
  intros HP HQ; unfold __read_sql_tables_to_cache.
  apply respects_bind; auto.
  - apply respects_try_except; auto; [|now apply respects_raise].
    apply respects_cursor_fetchall.
    destruct (negb _); auto.
  - intros results; apply respects_bind; auto using respects_log.
    intros _ w; simpl; now apply R_cache.
Qed.

Lemma respects_refresh (data_label : string) :
  respects R
    (__update_source_refresh_timestamp db_execute db_commit data_label).
Proof.
  unfold __update_source_refresh_timestamp.
  apply respects_bind; auto.
  - intros w; unfold __format_current_datetime.
    destruct (clock w); simpl; auto.
  - intros now; apply respects_flush, Q_tracking.
Qed.

Lemma respects_update_data_table (table_name : string) (updates : row)
    (where_clause : string) :
  (forall text, Q (EvExecute text (Update table_name updates where_clause)))
  -> respects R
       (update_data_table db_execute db_commit table_name updates
          where_clause).
Proof. intros H; unfold update_data_table; apply respects_flush, H. Qed.

Lemma respects_write_then_read (table_name : string) (record_dict : row) :
  (forall text ci vi, Q (EvExecute text (Insert table_name ci vi))) ->
  P table_name -> Q (EvSetCache table_name) ->
  respects R
    (try_except
       (insert_data_to_table db_execute db_commit table_name record_dict ;;
        __read_sql_tables_to_cache db_fetchall table_name)
       (ret tt)).
Proof.
  intros H1 H2 H3; apply respects_try_except; auto;
    [|now apply respects_ret].
  apply respects_bind; auto using respects_insert_data_to_table.
  intros _; now apply respects_read.
Qed.

Lemma respects_update_web (webpoolid web : string) :
  (forall text ci vi, Q (EvExecute text (Insert "webs" ci vi))) ->
  respects R (update_web db_execute db_commit webpoolid web).
Proof.
  intros H; unfold update_web.
  apply respects_bind; auto using respects_search_cache.
  intros [|found rest]; [|now apply respects_ret].
  apply respects_try_except; auto; [|now apply respects_ret].
  now apply respects_insert_data_to_table.
Qed.

(** One webpool, given what holds across the insertion of a webpool
    followed by the reading of its table. *)
Lemma respects_update_webpool (record : row) (location : string) :
  (forall record_dict,
     respects R
       (try_except
          (insert_data_to_table db_execute db_commit "webpools"
             record_dict ;;
           __read_sql_tables_to_cache db_fetchall "webpools")
          (ret tt))) ->
  (forall text ci vi, Q (EvExecute text (Insert "webs" ci vi))) ->
  P "webs" -> Q (EvSetCache "webs") ->
  respects R
    (update_webpool db_execute db_commit db_fetchall record location).
Proof.
  intros Hunit Hweb HP HQ; unfold update_webpool.
  apply respects_bind; auto; [now apply respects_lift |]; intros name.
  apply respects_bind; auto; [now apply respects_lift |]; intros stack.
  apply respects_bind; auto using respects_search_cache; intros found.
  apply respects_bind; auto.
  - destruct found as [|f rest]; [|now apply respects_lift].
    apply respects_bind; auto; intros _.
    apply respects_bind; auto using respects_search_cache; intros again.
    apply respects_bind; auto; [now apply respects_lift |]; intros f.
    now apply respects_lift.
  - intros webpoolid.
    apply respects_bind; auto; [now apply respects_lift |]; intros webs.
    apply respects_bind; auto.
    + apply respects_for_each; auto.
      intros web; now apply respects_update_web.
    + intros _; now apply respects_read.
Qed.

(** The stack part of a record, given what holds across the insertion
    of a stack followed by the reading of its table. *)
Lemma respects_update_stack_record (record : row) :
  (forall record_dict,
     respects R
       (try_except
          (insert_data_to_table db_execute db_commit "stacks" record_dict ;;
           __read_sql_tables_to_cache db_fetchall "stacks")
          (ret tt))) ->
  (forall text u wc, Q (EvExecute text (Update "stacks" u wc))) ->
  respects R (update_stack_record db_execute db_commit db_fetchall record).
Proof.
  intros Hunit Hupd; unfold update_stack_record.
  apply respects_bind; auto; [now apply respects_lift |]; intros stack.
  apply respects_bind; auto; [now apply respects_lift |]; intros l.
  apply respects_bind; auto; [now apply respects_lift |]; intros p.
  apply respects_bind; auto; [now apply respects_lift |]; intros r.
  apply respects_bind; auto using respects_search_cache.
  intros [|entry rest]; [apply Hunit |].
  apply respects_bind; auto; [now apply respects_lift |]; intros checked.
  destruct (snd checked); [|now apply respects_ret].
  apply respects_update_data_table; intros text; apply Hupd.
Qed.

Lemma respects_update_stack_data :
  (forall record_dict,
     respects R
       (try_except
          (insert_data_to_table db_execute db_commit "stacks" record_dict ;;
           __read_sql_tables_to_cache db_fetchall "stacks")
          (ret tt))) ->
  (forall record_dict,
     respects R
       (try_except
          (insert_data_to_table db_execute db_commit "webpools"
             record_dict ;;
           __read_sql_tables_to_cache db_fetchall "webpools")
          (ret tt))) ->
  (forall text u wc, Q (EvExecute text (Update "stacks" u wc))) ->
  (forall text ci vi, Q (EvExecute text (Insert "webs" ci vi))) ->
  P "webs" -> Q (EvSetCache "webs") ->
  respects R (update_stack_data db_execute db_commit db_fetchall).
Proof.
  intros Hs Hw Hupd Hweb HP HQ; unfold update_stack_data.
  apply respects_bind; auto; [intros w; apply R_refl |]; intros records.
  apply respects_bind; auto.
  - apply respects_for_each; auto; intros record.
    apply respects_bind; auto using respects_update_stack_record.
    intros _; apply respects_for_each; auto; intros location.
    now apply respects_update_webpool.
  - intros _; apply respects_try_except; auto using respects_refresh.
    now apply respects_ret.
Qed.

(** The reference tables of the fabric pass. *)
Variable set_iteration : list string -> list string.
Hypothesis R_activezones :
  forall b l w, R b w (set_activezone_list l w).

Lemma respects_insert_missing_name (table record : string) :
  (forall text ci vi, Q (EvExecute text (Insert table ci vi))) ->
  respects R (insert_missing_name db_execute db_commit table record).
Proof.
  intros H; unfold insert_missing_name.
  apply respects_bind; auto using respects_search_cache.
  intros [|found rest]; [|now apply respects_ret].
  now apply respects_insert_data_to_table.
Qed.

Lemma respects_update_id_table (table : string) :
  let target :=
    if negb (String.eqb table "activeZones") then table else "zone" in
  (forall text ci vi, Q (EvExecute text (Insert target ci vi))) ->
  P target -> Q (EvSetCache target) ->
  respects R
    (update_id_table db_execute db_commit db_fetchall set_iteration table).
Proof.
  intros target H HP HQ; subst target; unfold update_id_table.
  destruct (negb (String.eqb table "activeZones")).
  - apply respects_bind; auto; [intros w; apply R_refl |]; intros records.
    apply respects_bind; auto; [now apply respects_lift |]; intros values.
    apply respects_bind; auto.
    + apply respects_for_each; auto; intros record.
      now apply respects_insert_missing_name.
    + intros _; now apply respects_read.
  - apply respects_bind; auto; [intros w; apply R_activezones |].
    intros collected; apply respects_bind; auto.
    + apply respects_for_each; auto; intros record.
      now apply respects_insert_missing_name.
    + intros _; now apply respects_read.
Qed.

Lemma respects_get_runid :
  (forall text ci vi, Q (EvExecute text (Insert "run" ci vi))) ->
  respects R (__get_runid db_execute db_commit db_fetchall).
Proof.
  intros H; unfold __get_runid.
  apply respects_bind; auto.
  { intros w; unfold __format_current_datetime.
    destruct (clock w); simpl; auto. }
  intros now; apply respects_bind; auto.
  - apply respects_try_except; auto; [|now apply respects_raise].
    now apply respects_insert_data_to_table.
  - intros _; apply respects_try_except; auto; [|now apply respects_raise].
    apply respects_cursor_fetchall, Q_select_run.
Qed.

End EngineRespects.

(** ** The stack pass *)

Lemma stack_column_check_spec (column : string) (incoming cached : row)
    (acc : row * bool) (out : row * bool) :
  stack_column_check column incoming cached acc = Ok out ->
  exists a b,
    lookup_key column incoming = Some a
    /\ lookup_key column cached = Some b
    /\ out = if String.eqb a b then acc
             else (setitem (fst acc) column a, true).
Proof.
  unfold stack_column_check; intros H.
  bind_ok H; bind_ok H.
  apply getitem_Ok in E, E0.
  exists a, a0; repeat split; auto.
  destruct (String.eqb a a0); simpl in H; congruence.
Qed.

(** The update set built by the pass is the set of differing columns,
    and an update is needed exactly when the set is not empty. *)
Lemma stacks_columns_update_spec (incoming cached : row) (u : row)
    (needed : bool) :
  stacks_columns_update incoming cached = Ok (u, needed) ->
  u = differing_columns incoming cached
  /\ needed = match u with [] => false | _ :: _ => true end.
Proof.
  unfold stacks_columns_update; intros H.
  bind_ok H; bind_ok H.
  apply stack_column_check_spec in E as (a1 & b1 & Ha1 & Hb1 & ->).
  apply stack_column_check_spec in E0 as (a2 & b2 & Ha2 & Hb2 & ->).
  apply stack_column_check_spec in H as (a3 & b3 & Ha3 & Hb3 & H).
  unfold differing_columns, mutable_columns; cbn [flat_map].
  rewrite Ha1, Hb1, Ha2, Hb2, Ha3, Hb3.
  destruct (String.eqb a1 b1), (String.eqb a2 b2), (String.eqb a3 b3);
    cbn in H; injection H as -> ->; split; reflexivity.
Qed.

Lemma stacks_columns_update_total (incoming cached : row) :
  Forall (fun c => lookup_key c incoming <> None) mutable_columns ->
  Forall (fun c => lookup_key c cached <> None) mutable_columns ->
  exists u needed, stacks_columns_update incoming cached = Ok (u, needed).
Proof.
  unfold mutable_columns; intros Hi Hc.
  repeat match goal with
         | H : Forall _ (_ :: _) |- _ => inversion_clear H
         end.
  unfold stacks_columns_update, stack_column_check, getitem.
  repeat match goal with
         | H : lookup_key ?c ?d <> None |- _ =>
             destruct (lookup_key c d); [clear H | contradiction]
         end.
  simpl.
  repeat match goal with
         | |- context [if ?b then _ else _] => destruct b; simpl
         end; eauto.
Qed.

Section StackPass.

Context {St : Type}.
Variable db_execute : sql -> St -> result unit * St.
Variable db_commit : St -> result unit * St.
Variable db_fetchall : sql -> St -> result (list row) * St.

Local Abbreviation W := (World St).

Lemma flush_trace (text : string) (q : sql) (w : W) :
  let w' :=
    snd (try_except
           (cursor_execute db_execute text q ;; conn_commit db_commit)
           (ret tt) w) in
  trace w' = trace w ++ [EvExecute text q]
  \/ trace w' = trace w ++ [EvExecute text q; EvCommit].
Proof.
  unfold try_except, mbind, cursor_execute, conn_commit, mbind, log; simpl.
  destruct (db_execute q (conn w)) as [[[]|e] s]; simpl.
  - destruct (db_commit s) as [[[]|e] s']; simpl;
      [| destruct e; simpl]; right; now rewrite <- app_assoc.
  - destruct e; simpl; now left.
Qed.

(** A record that the cache holds: the lookup, and then the [UPDATE] of
    the update set when one is needed. *)
Lemma update_stack_record_found (record incoming : row) (rows : list row)
    (entry : row) (rest : list row) (w : W) :
  stack_row record = Ok incoming ->
  tables_cache w !! "stacks" = Some rows ->
  search_rows "Stack" (value_of incoming "Stack") rows
  = Ok (entry :: rest) ->
  update_stack_record db_execute db_commit db_fetchall record w
  = let w1 := set_trace (trace w ++ [EvLookup "stacks"]) w in
    match stacks_columns_update incoming entry with
    | Raise e => (Raise e, w1)
    | Ok (u, needed) =>
        if needed
        then update_data_table db_execute db_commit "stacks" u
               ("stack = '" +:+ value_of incoming "Stack" +:+ "'") w1
        else (Ok tt, w1)
    end.
Proof.
  unfold stack_row; intros H Hc Hs.
  repeat bind_ok H; injection H as <-.
  unfold update_stack_record, mbind at 1, lift at 1; rewrite E.
  unfold mbind at 1, lift at 1; rewrite E0.
  unfold mbind at 1, lift at 1; rewrite E1.
  unfold mbind at 1, lift at 1; rewrite E2.
  unfold mbind at 1, search_cache, mbind at 1, cached, mbind at 1, log;
    cbn [fst snd tables_cache set_trace].
  rewrite Hc; unfold lift at 1.
  change (value_of _ "Stack") with a in Hs |- *.
  rewrite Hs.
  unfold mbind at 1, lift at 1.
  destruct (stacks_columns_update _ entry) as [[u needed]|e];
    [|reflexivity].
  cbn [fst snd]; destruct needed; reflexivity.
Qed.

Lemma kept_refl (b : bool) (w : W) : stacks_cache_kept b w w.
Proof. split; [apply emits_only_refl | reflexivity]. Qed.

Lemma kept_trans (b : bool) (x y z : W) :
  stacks_cache_kept true x y -> stacks_cache_kept b y z ->
  stacks_cache_kept b x z.
Proof.
  intros [E1 C1] [E2 C2]; split;
    [eapply emits_only_trans; eassumption | congruence].
Qed.

Lemma kept_log (b : bool) (e : event) (w : W) :
  no_stack_update e ->
  stacks_cache_kept b w (set_trace (trace w ++ [e]) w).
Proof.
  intros H; split; [|reflexivity].
  exists [e]; split; [reflexivity | now constructor].
Qed.

Lemma kept_conn (b : bool) (s : St) (w : W) :
  stacks_cache_kept b w (set_conn s w).
Proof. split; [now apply emits_only_same_trace | reflexivity]. Qed.

Lemma kept_clock (b : bool) (l : list string) (w : W) :
  stacks_cache_kept b w (set_clock l w).
Proof. split; [now apply emits_only_same_trace | reflexivity]. Qed.

Lemma kept_cache (b : bool) (t : string) (rows : list row) (w : W) :
  t <> "stacks" ->
  stacks_cache_kept b w
    (set_tables_cache (<[t:=rows]> (tables_cache w)) w).
Proof.
  intros H; split; [now apply emits_only_same_trace |].
  simpl; now apply lookup_insert_ne.
Qed.

(** Side conditions of the lemmas on relations, for the relation
    [stacks_cache_kept]. *)
Ltac kept_side :=
  solve [ exact kept_refl | exact kept_trans | exact kept_log
        | exact kept_conn | exact kept_clock | exact kept_cache
        | intros; reflexivity | intros; discriminate ].

Lemma update_webpool_kept (record : row) (location : string) :
  respects stacks_cache_kept
    (update_webpool db_execute db_commit db_fetchall record location).
Proof.
  eapply respects_update_webpool
    with (Q := no_stack_update) (P := fun t => t <> "stacks");
    try kept_side.
  intros record_dict.
  eapply respects_write_then_read
    with (Q := no_stack_update) (P := fun t => t <> "stacks");
    kept_side.
Qed.

Lemma refresh_kept (data_label : string) :
  respects stacks_cache_kept
    (try_except
       (__update_source_refresh_timestamp db_execute db_commit data_label)
       (ret tt)).
Proof.
  apply respects_try_except; try kept_side.
  - eapply respects_refresh with (Q := no_stack_update); kept_side.
  - apply respects_ret; kept_side.
Qed.

(** A settled record costs one lookup and nothing else. *)
Lemma update_stack_record_settled (rows : list row) (record : row)
    (w : W) :
  settled rows record = true ->
  tables_cache w !! "stacks" = Some rows ->
  update_stack_record db_execute db_commit db_fetchall record w
  = (Ok tt, set_trace (trace w ++ [EvLookup "stacks"]) w).
Proof.
  unfold settled; intros H Hc.
  destruct (stack_row record) as [incoming|] eqn:Hr; [|discriminate H].
  destruct (search_rows _ _ rows) as [[|entry rest]|] eqn:Hs;
    try discriminate H.
  rewrite (update_stack_record_found _ _ _ _ _ _ Hr Hc Hs); cbv zeta.
  unfold mutable_columns in H; cbn [forallb] in H.
  destruct (lookup_key "locallocation" incoming) as [a1|] eqn:Ha1;
    [|discriminate H].
  destruct (lookup_key "locallocation" entry) as [b1|] eqn:Hb1;
    [|discriminate H].
  destruct (lookup_key "prodlocation" incoming) as [a2|] eqn:Ha2;
    [|rewrite andb_false_r in H; discriminate H].
  destruct (lookup_key "prodlocation" entry) as [b2|] eqn:Hb2;
    [|rewrite andb_false_r in H; discriminate H].
  destruct (lookup_key "remotelocation" incoming) as [a3|] eqn:Ha3;
    [|rewrite !andb_false_r in H; discriminate H].
  destruct (lookup_key "remotelocation" entry) as [b3|] eqn:Hb3;
    [|rewrite !andb_false_r in H; discriminate H].
  apply andb_prop in H as [H1 H]; apply andb_prop in H as [H2 H].
  apply andb_prop in H as [H3 _].
  unfold stacks_columns_update, stack_column_check, getitem.
  rewrite Ha1, Hb1, Ha2, Hb2, Ha3, Hb3; simpl.
  rewrite H1, H2, H3; reflexivity.
Qed.

Lemma stack_loop_kept (rows : list row) (records : list row) :
  forall w : W,
    tables_cache w !! "stacks" = Some rows ->
    Forall (fun record => settled rows record = true) records ->
    stacks_cache_kept true w
      (snd (for_each records
              (fun record =>
                 update_stack_record db_execute db_commit db_fetchall
                   record ;;
                 for_each ["prod"; "remote"]
                   (update_webpool db_execute db_commit db_fetchall
                      record)) w)).
Proof.
  induction records as [|record records IH]; intros w Hc Hall.
  - apply kept_refl.
  - inversion_clear Hall as [|? ? Hrec Hrest].
    rewrite for_each_cons; cbv beta; unfold mbind at 1.
    rewrite (update_stack_record_settled rows record w Hrec Hc).
    pose proof (respects_for_each stacks_cache_kept kept_refl kept_trans
                  ["prod"; "remote"]
                  (update_webpool db_execute db_commit db_fetchall record)
                  (update_webpool_kept record)
                  (set_trace (trace w ++ [EvLookup "stacks"]) w)) as Hw.
    destruct (for_each ["prod"; "remote"] _ _) as [[[]|e] w2];
      cbn [fst snd continues] in Hw |- *.
    + apply kept_trans with (set_trace (trace w ++ [EvLookup "stacks"]) w);
        [now apply kept_log |].
      apply kept_trans with w2; [exact Hw |].
      apply IH; [|exact Hrest].
      destruct Hw as [_ Hw]; rewrite Hw; exact Hc.
    + apply kept_trans with (set_trace (trace w ++ [EvLookup "stacks"]) w);
        [now apply kept_log |].
      destruct Hw as [Hw1 Hw2]; split; assumption.
Qed.

(** C7 (amended): for every stack record whose key the stacks cache
    holds, the pass sends, after its lookup, an [UPDATE] whose column set
    is exactly the mutable columns whose incoming value differs from the
    cached row, and sends nothing when none differs; hence a run over
    source data that the cache already agrees with sends no [UPDATE] of
    the stacks table. *)
Theorem C7_update_set_is_the_difference (w : W) (record incoming : row)
    (rows : list row) (entry : row) (rest : list row) :
  stack_row record = Ok incoming ->
  tables_cache w !! "stacks" = Some rows ->
  search_rows "Stack" (value_of incoming "Stack") rows
  = Ok (entry :: rest) ->
  Forall (fun c => lookup_key c entry <> None) mutable_columns ->
  let u := differing_columns incoming entry in
  let q :=
    Update "stacks" u ("stack = '" +:+ value_of incoming "Stack" +:+ "'") in
  let evs :=
    emitted w
      (snd (update_stack_record db_execute db_commit db_fetchall record w))
  in
  (u = [] -> evs = [EvLookup "stacks"])
  /\ (u <> [] ->
      evs = [EvLookup "stacks"; EvExecute (statement_text q) q]
      \/ evs = [EvLookup "stacks"; EvExecute (statement_text q) q;
                EvCommit])
  /\ (Forall (fun r => settled rows r = true) (stacks w) ->
      Forall no_stack_update
        (emitted w
           (snd (update_stack_data db_execute db_commit db_fetchall w)))).
Proof.
  intros Hr Hc Hs He u q evs.
  assert (Hi : Forall (fun c => lookup_key c incoming <> None)
                 mutable_columns).
  { unfold stack_row in Hr; repeat bind_ok Hr; injection Hr as <-.
    repeat constructor; discriminate. }
  destruct (stacks_columns_update_total incoming entry Hi He)
    as (u' & needed & Hu).
  destruct (stacks_columns_update_spec _ _ _ _ Hu) as [Hu' Hn].
  fold u in Hu'; subst u'.
  assert (Hevs : evs
                 = emitted w
                     (if needed
                      then snd (update_data_table db_execute db_commit
                                  "stacks" u
                                  ("stack = '" +:+ value_of incoming "Stack"
                                   +:+ "'")
                                  (set_trace (trace w ++ [EvLookup "stacks"])
                                     w))
                      else set_trace (trace w ++ [EvLookup "stacks"]) w)).
  { subst evs.
    rewrite (update_stack_record_found _ _ _ _ _ _ Hr Hc Hs); cbv zeta.
    rewrite Hu; destruct needed; reflexivity. }
  split; [|split].
  - intros H0; rewrite H0 in Hn; subst needed.
    rewrite Hevs; now apply emitted_app.
  - intros Hne.
    destruct u as [|c0 u0] eqn:Eu; [contradiction |]; subst needed.
    rewrite Hevs; unfold update_data_table.
    destruct (flush_trace (statement_text q) q
                (set_trace (trace w ++ [EvLookup "stacks"]) w)) as [Ht|Ht];
      [left | right]; apply emitted_app; subst q;
      rewrite Ht; simpl; now rewrite <- app_assoc.
  - intros Hall.
    apply emits_only_emitted.
    unfold update_stack_data, mbind at 1; cbn [fst snd]; unfold mbind at 1.
    pose proof (stack_loop_kept rows (stacks w) w Hc Hall) as Hl.
    destruct (for_each (stacks w) _ w) as [[[]|e] w1]; cbn [fst snd] in *.
    + pose proof (refresh_kept "stacks" w1) as Hf.
      destruct (kept_trans _ _ _ _ Hl Hf) as [H _]; exact H.
    + destruct Hl as [H _]; exact H.
Qed.

End StackPass.

(** C7 (the claim fails as stated): with the production location of the
    cached stack [S1] changed in the source, the stack pass run again on
    the state the first run left sends the same [UPDATE] again, the
    stacks cache not having been read again after the first; and with a
    source naming [S1] twice, at [B] and at [B2], a second pass sends an
    [UPDATE] even though each pass reads every table into the cache
    first. *)
Lemma C7_second_run_counterexample :
  let run w :=
    snd (update_stack_data TableStore.execute TableStore.commit
           TableStore.fetchall w) in
  let warm w := snd (read_tables_to_cache TableStore.fetchall w) in
  existsb (updates_table "stacks")
    (emitted (run Scenario.s1_moved) (run (run Scenario.s1_moved))) = true
  /\ existsb (updates_table "stacks")
       (emitted (warm (run (warm Scenario.s1_twice)))
          (run (warm (run (warm Scenario.s1_twice))))) = true.
Proof. vm_compute; split; reflexivity. Qed.

Lemma C7_update_set_is_the_difference_witness :
  let w := Scenario.s1_moved in
  let q := Update "stacks" [("prodlocation", "B2")] "stack = 'S1'" in
  let evs :=
    emitted w
      (snd (update_stack_record TableStore.execute TableStore.commit
              TableStore.fetchall (Scenario.stack_record "S1" "B2") w)) in
  evs = [EvLookup "stacks"; EvExecute (statement_text q) q]
  \/ evs = [EvLookup "stacks"; EvExecute (statement_text q) q; EvCommit].
Proof.
  refine (proj1 (proj2
            (C7_update_set_is_the_difference TableStore.execute
               TableStore.commit TableStore.fetchall Scenario.s1_moved
               (Scenario.stack_record "S1" "B2")
               [("Stack", "S1"); ("locallocation", "A");
                ("prodlocation", "B2"); ("remotelocation", "C")]
               [[("ID", "1"); ("Stack", "S1"); ("locallocation", "A");
                 ("prodlocation", "B"); ("remotelocation", "C")]]
               [("ID", "1"); ("Stack", "S1"); ("locallocation", "A");
                ("prodlocation", "B"); ("remotelocation", "C")]
               [] _ _ _ _)) _).
  - reflexivity.
  - vm_compute; reflexivity.
  - reflexivity.
  - repeat constructor; discriminate.
  - discriminate.
Defined.

(** ** Lookups and the freshness of the cache *)

Lemma lookups_fresh_app (u : bool) (table : string) (evs1 : list event) :
  forall st evs2,
    lookups_fresh u table st (evs1 ++ evs2)
    = match lookups_fresh u table st evs1 with
      | Some s => lookups_fresh u table s evs2
      | None => None
      end.
Proof.
  induction evs1 as [|ev evs1 IH]; intros st evs2; simpl; [reflexivity |].
  destruct (writes_table u table ev); [apply IH |].
  destruct ev; try apply IH.
  destruct (String.eqb table0 table); [|apply IH].
  destruct st; [apply IH | reflexivity].
Qed.

Lemma lookups_fresh_harmless (table : string) (ev : event) :
  writes_table false table ev = false ->
  lookups_fresh false table Fresh [ev] = Some Fresh.
Proof.
  intros H; simpl; rewrite H.
  destruct ev; try reflexivity;
    destruct (String.eqb _ table); reflexivity.
Qed.

Lemma lookups_fresh_insert (table text : string) (ci vi : list string)
    (st : freshness) (rest : list event) :
  lookups_fresh false table st (EvExecute text (Insert table ci vi) :: rest)
  = lookups_fresh false table Stale rest.
Proof.
  simpl; unfold writes_table; simpl; now rewrite String.eqb_refl.
Qed.

Lemma continues_quiet {A} (r : result A) :
  r <> Raise ResourceWarning ->
  (exists a, r = Ok a) \/ continues r = false.
Proof.
  destruct r as [a|e]; [eauto |].
  intros H; right; destruct e; try reflexivity; now contradiction H.
Qed.

Section Freshness.

Context {St : Type}.
Variable db_execute : sql -> St -> result unit * St.
Variable db_commit : St -> result unit * St.
Variable db_fetchall : sql -> St -> result (list row) * St.
Variable table : string.

Local Abbreviation W := (World St).

Lemma fresh_refl (b : bool) (w : W) : lookups_stay_fresh table b w w.
Proof. exists []; split; [now rewrite app_nil_r | simpl; auto]. Qed.

Lemma fresh_trans (b : bool) (x y z : W) :
  lookups_stay_fresh table true x y -> lookups_stay_fresh table b y z ->
  lookups_stay_fresh table b x z.
Proof.
  intros (e1 & H1 & F1) (e2 & H2 & F2); exists (e1 ++ e2); split.
  - now rewrite H2, H1, app_assoc.
  - rewrite lookups_fresh_app.
    destruct (lookups_fresh false table Fresh e1) as [s|]; [|contradiction].
    now rewrite (F1 eq_refl).
Qed.

Lemma fresh_silent (b : bool) (w w' : W) :
  trace w' = trace w -> lookups_stay_fresh table b w w'.
Proof.
  intros H; exists []; split; [now rewrite app_nil_r | simpl; auto].
Qed.

Lemma fresh_log (b : bool) (e : event) (w : W) :
  writes_table false table e = false ->
  lookups_stay_fresh table b w (set_trace (trace w ++ [e]) w).
Proof.
  intros H; exists [e]; split; [reflexivity |].
  now rewrite lookups_fresh_harmless.
Qed.

Lemma fresh_conn (b : bool) (s : St) (w : W) :
  lookups_stay_fresh table b w (set_conn s w).
Proof. now apply fresh_silent. Qed.

Lemma fresh_clock (b : bool) (l : list string) (w : W) :
  lookups_stay_fresh table b w (set_clock l w).
Proof. now apply fresh_silent. Qed.

Lemma fresh_cache (b : bool) (t : string) (rows : list row) (w : W) :
  True ->
  lookups_stay_fresh table b w
    (set_tables_cache (<[t:=rows]> (tables_cache w)) w).
Proof. intros _; now apply fresh_silent. Qed.

(** What [insert_data_to_table] leaves in the trace. *)
Lemma insert_trace (t : string) (record_dict : row) (w : W) :
  let out := insert_data_to_table db_execute db_commit t record_dict w in
  (fst out = Ok tt \/ continues (fst out) = false)
  /\ (trace (snd out) = trace w
      \/ exists text ci vi,
           trace (snd out) = trace w ++ [EvExecute text (Insert t ci vi)]
           \/ trace (snd out)
              = trace w ++ [EvExecute text (Insert t ci vi); EvCommit]).
Proof.
  intros out; split.
  - destruct (continues_quiet (fst out)
                (insert_data_to_table_quiet db_execute db_commit t
                   record_dict w)) as [[[] H]|H]; auto.
  - subst out; unfold insert_data_to_table, mbind at 1, lift at 1.
    destruct (insert_columns_values _ _ _ _) as [built|e]; [|now left].
    right; exists (statement_text
                     (Insert t (fst (fst built)) (snd (fst built)))),
             (fst (fst built)), (snd (fst built)).
    apply flush_trace.
Qed.

(** What [__read_sql_tables_to_cache] leaves in the trace. *)
Lemma read_trace (t : string) (w : W) :
  let out := __read_sql_tables_to_cache db_fetchall t w in
  exists q,
    inserts_into table (EvExecute (statement_text q) q) = false
    /\ ((fst out = Ok tt
         /\ trace (snd out)
            = trace w ++ [EvExecute (statement_text q) q; EvSetCache t])
        \/ (continues (fst out) = false
            /\ trace (snd out)
               = trace w ++ [EvExecute (statement_text q) q])).
Proof.
  intros out; subst out.
  exists (if negb (String.eqb t "activezones")
          then SelectAll t else SelectActiveZones).
  split; [destruct (negb _); reflexivity |].
  unfold __read_sql_tables_to_cache, mbind, try_except, cursor_fetchall,
    mbind, log; simpl.
  destruct (db_fetchall _ (conn w)) as [[rows|e] s]; simpl.
  - left; split; [reflexivity | now rewrite <- app_assoc].
  - right; destruct e; simpl; split; reflexivity.
Qed.

(** On a store that reads without warning, the reading of a table
    raises no [ResourceWarning]. *)
Lemma read_without_warning_quiet (t : string) :
  reads_without_warning db_fetchall ->
  quiet (__read_sql_tables_to_cache db_fetchall t).
Proof.
  intros Hreads w.
  unfold __read_sql_tables_to_cache, mbind, try_except, cursor_fetchall,
    mbind, log; simpl.
  pose proof (Hreads (if negb (String.eqb t "activezones")
                      then SelectAll t else SelectActiveZones)
                (conn w)) as H.
  destruct (db_fetchall _ (conn w)) as [[rows|e] s]; simpl in *;
    [discriminate |].
  destruct e; simpl; try (now contradiction H); discriminate.
Qed.

(** On a store that reads without warning, an insertion into [table]
    followed by the reading of [table] leaves its cache fresh whenever
    what follows still runs. *)
Lemma write_then_read_fresh (record_dict : row) :
  reads_without_warning db_fetchall ->
  respects (lookups_stay_fresh table)
    (try_except
       (insert_data_to_table db_execute db_commit table record_dict ;;
        __read_sql_tables_to_cache db_fetchall table)
       (ret tt)).
Proof.
  intros Hreads w; rewrite try_except_quiet.
  2:{ apply quiet_bind; [apply insert_data_to_table_quiet |].
      intros _; now apply read_without_warning_quiet. }
  unfold mbind.
  destruct (insert_trace table record_dict w) as [Hres Htr].
  destruct (insert_data_to_table _ _ _ _ w) as [r w1]; simpl in Hres, Htr.
  destruct Hres as [-> | Hres].
  - destruct (read_trace table w1) as (q & Hq & Hread).
    destruct (__read_sql_tables_to_cache _ _ w1) as [r2 w2];
      simpl in Hread |- *.
    unfold inserts_into in Hq.
    destruct Hread as [[-> Ht2] | [Hc Ht2]]; [|rewrite Hc];
      (destruct Htr as [Ht1 | (text & ci & vi & [Ht1 | Ht1])];
       rewrite Ht1 in Ht2;
       eexists; (split; [rewrite Ht2, <- ?app_assoc; reflexivity |]);
       cbn [app]; rewrite ?lookups_fresh_insert;
       simpl; unfold writes_table, inserts_into; simpl;
       try rewrite Hq; simpl; rewrite ?String.eqb_refl; auto;
       try discriminate).
  - destruct r as [[]|e]; [discriminate Hres |]; cbn [fst snd].
    rewrite Hres.
    destruct Htr as [Ht1 | (text & ci & vi & [Ht1 | Ht1])];
      eexists; (split; [rewrite Ht1; try reflexivity;
                        now rewrite app_nil_r |]);
      rewrite ?lookups_fresh_insert; simpl; discriminate.
Qed.

End Freshness.

(** ** The webs cache is read once for each webpool *)

Lemma webs_reloaded_app (evs1 : list event) :
  forall st evs2,
    webs_reloaded_per_webpool st (evs1 ++ evs2)
    = match webs_reloaded_per_webpool st evs1 with
      | Some s => webs_reloaded_per_webpool s evs2
      | None => None
      end.
Proof.
  induction evs1 as [|ev evs1 IH]; intros st evs2; simpl; [reflexivity |].
  destruct (webs_turn_step st ev); [apply IH | reflexivity].
Qed.

Lemma webs_reloaded_beside (evs : list event) (st : webs_turn) :
  Forall beside_webs evs -> webs_reloaded_per_webpool st evs = Some st.
Proof.
  induction 1 as [|ev evs H _ IH]; simpl; [reflexivity |].
  now rewrite H.
Qed.

Section WebsTurns.

Context {St : Type}.

Local Abbreviation W := (World St).

Lemma turns_beside {A} (c : M W A) (st : webs_turn)
    (P : bool -> webs_turn -> Prop) :
  keeps (emits_only beside_webs) c -> (forall b, P b st) ->
  webs_turns_kept st P c.
Proof.
  intros Hc HP w; destruct (Hc w) as (evs & Ht & Hq).
  exists evs, st; split; [exact Ht | split; [|apply HP]].
  now apply webs_reloaded_beside.
Qed.

Lemma turns_bind {A B} (c : M W A) (k : A -> M W B) (st : webs_turn)
    (P Q : bool -> webs_turn -> Prop) :
  webs_turns_kept st P c ->
  (forall a s, P true s -> webs_turns_kept s Q (k a)) ->
  (forall s, P false s -> Q false s) ->
  webs_turns_kept st Q (mbind c k).
Proof.
  intros Hc Hk Hf w; unfold mbind.
  destruct (Hc w) as (evs & s & Ht & Hr & HP).
  destruct (c w) as [[a|e] w1]; simpl in *.
  - destruct (Hk a s HP w1) as (evs2 & s2 & Ht2 & Hr2 & HQ).
    exists (evs ++ evs2), s2; split; [|split; [|exact HQ]].
    + now rewrite Ht2, Ht, app_assoc.
    + now rewrite webs_reloaded_app, Hr.
  - exists evs, s; auto.
Qed.

Lemma turns_try_except {A} (c : M W A) (a : A) (st st' : webs_turn) :
  webs_turns_kept st (fun _ s => s = st') c ->
  webs_turns_kept st (fun _ s => s = st') (try_except c (ret a)).
Proof.
  intros Hc w; unfold try_except.
  destruct (Hc w) as (evs & s & Ht & Hr & HP).
  destruct (c w) as [[x|e] w1]; simpl in *.
  - exists evs, s; auto.
  - destruct e; simpl; exists evs, s; auto.
Qed.

Lemma turns_for_each {A} (l : list A) (body : A -> M W unit)
    (st : webs_turn) (P : bool -> webs_turn -> Prop) :
  P true st ->
  (forall x s, P true s -> webs_turns_kept s P (body x)) ->
  webs_turns_kept st P (for_each l body).
Proof.
  intros Hst Hbody; revert st Hst.
  induction l as [|x l IH]; intros st Hst; simpl.
  - intros w; exists [], st; simpl; rewrite app_nil_r; auto.
  - apply turns_bind with (P := P); auto.
Qed.

Lemma turns_log (e : event) (st st' : webs_turn) :
  webs_turn_step st e = Some st' ->
  webs_turns_kept st (fun _ s => s = st') (@log St e).
Proof.
  intros H w; exists [e], st'; simpl; now rewrite H.
Qed.

Variable db_execute : sql -> St -> result unit * St.
Variable db_commit : St -> result unit * St.
Variable db_fetchall : sql -> St -> result (list row) * St.

Lemma turns_search_cache (table key value : string) (st st' : webs_turn) :
  webs_turn_step st (EvLookup table) = Some st' ->
  webs_turns_kept st (fun _ s => s = st')
    (@search_cache St table key value).
Proof.
  intros H w; exists [EvLookup table], st'; simpl; rewrite H.
  split; [|auto].
  unfold search_cache, mbind, cached, mbind, log; simpl.
  destruct (_ !! table); reflexivity.
Qed.

Lemma beside_commit : beside_webs EvCommit.
Proof. intros st; reflexivity. Qed.

Lemma beside_statement (text : string) (q : sql) :
  inserts_into "webs" (EvExecute text q) = false ->
  beside_webs (EvExecute text q).
Proof. intros H st; unfold webs_turn_step; now rewrite H. Qed.

Lemma beside_lookup (t : string) :
  t <> "webs" -> t <> "webpools" -> beside_webs (EvLookup t).
Proof.
  intros H1 H2 st; unfold webs_turn_step; simpl.
  apply String.eqb_neq in H1, H2; now rewrite H1, H2.
Qed.

Lemma beside_set_cache (t : string) :
  t <> "webs" -> beside_webs (EvSetCache t).
Proof.
  intros H st; unfold webs_turn_step; simpl.
  apply String.eqb_neq in H; now rewrite H.
Qed.

(** The single-row writer on a table other than webs. *)
Lemma insert_beside_webs (table_name : string) (record_dict : row) :
  table_name <> "webs" ->
  keeps (emits_only beside_webs)
    (insert_data_to_table db_execute db_commit table_name record_dict).
Proof.
  intros H; unfold insert_data_to_table.
  apply emits_bind; [apply emits_lift |]; intros built.
  apply emits_flush; [|apply beside_commit].
  apply beside_statement; simpl; now apply String.eqb_neq.
Qed.

(** The reading of a table other than webs. *)
Lemma read_beside_webs (table_name : string) :
  table_name <> "webs" ->
  keeps (emits_only beside_webs)
    (__read_sql_tables_to_cache db_fetchall table_name).
Proof.
  intros H; unfold __read_sql_tables_to_cache.
  apply emits_bind.
  - apply emits_try_except; [|apply emits_raise].
    apply emits_cursor_fetchall, beside_statement.
    destruct (negb _); reflexivity.
  - intros results; apply emits_bind;
      [apply emits_log, beside_set_cache, H |].
    intros _; apply emits_silent; reflexivity.
Qed.

Lemma write_then_read_beside_webs (table_name : string)
    (record_dict : row) :
  table_name <> "webs" ->
  keeps (emits_only beside_webs)
    (try_except
       (insert_data_to_table db_execute db_commit table_name record_dict ;;
        __read_sql_tables_to_cache db_fetchall table_name)
       (ret tt)).
Proof.
  intros H; apply emits_try_except; [|apply emits_ret].
  apply emits_bind; [now apply insert_beside_webs |].
  intros _; now apply read_beside_webs.
Qed.

(** The stack part of a record is no part of the handling of a
    webpool. *)
Lemma update_stack_record_beside_webs (record : row) :
  keeps (emits_only beside_webs)
    (update_stack_record db_execute db_commit db_fetchall record).
Proof.
  unfold update_stack_record.
  apply emits_bind; [apply emits_lift |]; intros stack.
  apply emits_bind; [apply emits_lift |]; intros l.
  apply emits_bind; [apply emits_lift |]; intros p.
  apply emits_bind; [apply emits_lift |]; intros r.
  apply emits_bind.
  { unfold search_cache; apply emits_bind; [|intros; apply emits_lift].
    unfold cached; apply emits_bind;
      [apply emits_log, beside_lookup; discriminate |].
    intros _; apply emits_silent; intros w.
    destruct (_ !! "stacks"); reflexivity. }
  intros [|entry rest].
  - apply write_then_read_beside_webs; discriminate.
  - apply emits_bind; [apply emits_lift |]; intros checked.
    destruct (snd checked); [|apply emits_ret].
    unfold update_data_table.
    apply emits_flush; [|apply beside_commit].
    now apply beside_statement.
Qed.

Lemma refresh_beside_webs (data_label : string) :
  keeps (emits_only beside_webs)
    (try_except
       (__update_source_refresh_timestamp db_execute db_commit data_label)
       (ret tt)).
Proof.
  apply emits_try_except; [|apply emits_ret].
  unfold __update_source_refresh_timestamp.
  apply emits_bind.
  - apply emits_silent; intros w; unfold __format_current_datetime.
    destruct (clock w); reflexivity.
  - intros now; apply emits_flush; [|apply beside_commit].
    now apply beside_statement.
Qed.

(** One web: its lookup, and its insertion when it is not cached. *)
Lemma update_web_turn (webpoolid web : string) (st : webs_turn) :
  st <> Reloaded ->
  webs_turns_kept st (fun _ s => s = AtWebs)
    (update_web db_execute db_commit webpoolid web).
Proof.
  intros Hst; unfold update_web.
  apply turns_bind with (P := fun _ s => s = AtWebs); [| |auto].
  { apply turns_search_cache; destruct st; [contradiction | |]; reflexivity. }
  intros found s ->.
  destruct found as [|f rest].
  2:{ intros w; exists [], AtWebs; simpl; rewrite app_nil_r; auto. }
  apply turns_try_except.
  unfold insert_data_to_table.
  apply turns_bind with (P := fun _ s => s = AtWebs); [| |auto].
  { intros w; exists [], AtWebs; simpl; rewrite app_nil_r; auto. }
  intros built s ->.
  intros w.
  destruct (flush_trace db_execute db_commit
              (statement_text
                 (Insert "webs" (fst (fst built)) (snd (fst built))))
              (Insert "webs" (fst (fst built)) (snd (fst built))) w)
    as [H | H]; cbv zeta in H;
    eexists _, AtWebs; (split; [exact H | split; reflexivity]).
Qed.

(** The reading of the webs table once the webs of a webpool have been
    looked up. *)
Lemma read_webs_turn :
  webs_turns_kept AtWebs (fun b s => b = true -> s = Reloaded)
    (__read_sql_tables_to_cache db_fetchall "webs").
Proof.
  intros w.
  unfold __read_sql_tables_to_cache, mbind, try_except, cursor_fetchall,
    mbind, log; simpl.
  destruct (db_fetchall _ (conn w)) as [[rows|e] s]; simpl.
  - exists [EvExecute (statement_text (SelectAll "webs")) (SelectAll "webs");
            EvSetCache "webs"], Reloaded.
    split; [now rewrite <- app_assoc | split; [reflexivity | auto]].
  - exists [EvExecute (statement_text (SelectAll "webs")) (SelectAll "webs")],
      AtWebs.
    split; [destruct e; reflexivity | split; [reflexivity |]].
    destruct e; simpl; discriminate.
Qed.

(** [split(',')] gives at least one text. *)
Lemma split_comma_some (s : string) : split_comma s <> [].
Proof.
  unfold split_comma; generalize EmptyString.
  induction s as [|c s IH]; intros cur; simpl; [discriminate |].
  destruct (Ascii.eqb c ","); [discriminate | apply IH].
Qed.

(** One webpool: from the reading of the webs cache to the next. *)
Lemma update_webpool_turn (record : row) (location : string) :
  webs_turns_kept Reloaded (fun b s => b = true -> s = Reloaded)
    (update_webpool db_execute db_commit db_fetchall record location).
Proof.
  unfold update_webpool.
  apply turns_bind with (P := fun _ s => s = Reloaded);
    [apply turns_beside; [apply emits_lift | auto] | | discriminate].
  intros name s ->.
  apply turns_bind with (P := fun _ s => s = Reloaded);
    [apply turns_beside; [apply emits_lift | auto] | | discriminate].
  intros stack s ->.
  apply turns_bind with (P := fun _ s => s = AtWebpool);
    [now apply turns_search_cache | | discriminate].
  intros found s ->.
  apply turns_bind with (P := fun _ s => s = AtWebpool); [| | discriminate].
  { destruct found as [|f rest];
      [|apply turns_beside; [apply emits_lift | auto]].
    apply turns_bind with (P := fun _ s => s = AtWebpool); [| |auto].
    { apply turns_beside; [|auto].
      apply write_then_read_beside_webs; discriminate. }
    intros _ s ->.
    apply turns_bind with (P := fun _ s => s = AtWebpool);
      [now apply turns_search_cache | | auto].
    intros again s ->.
    apply turns_bind with (P := fun _ s => s = AtWebpool);
      [apply turns_beside; [apply emits_lift | auto] | | auto].
    intros f s ->.
    apply turns_beside; [apply emits_lift | auto]. }
  intros webpoolid s ->.
  apply turns_bind with (P := fun _ s => s = AtWebpool);
    [apply turns_beside; [apply emits_lift | auto] | | discriminate].
  intros webs s ->.
  apply turns_bind with (P := fun _ s => s = AtWebs); [| | discriminate].
  - pose proof (split_comma_some webs) as Hsome.
    destruct (split_comma webs) as [|web webs_list]; [congruence |].
    cbn [for_each].
    apply turns_bind with (P := fun _ s => s = AtWebs); [| | auto].
    { apply update_web_turn; discriminate. }
    intros _ s ->.
    apply turns_for_each; [reflexivity |].
    intros web' s ->; apply update_web_turn; discriminate.
  - intros _ s ->; apply read_webs_turn.
Qed.

Lemma update_stack_data_turns :
  webs_turns_kept Reloaded (fun b s => b = true -> s = Reloaded)
    (update_stack_data db_execute db_commit db_fetchall).
Proof.
  unfold update_stack_data.
  apply turns_bind with (P := fun _ s => s = Reloaded); [| | discriminate].
  { apply turns_beside; [apply emits_silent; reflexivity | auto]. }
  intros records s ->.
  apply turns_bind with (P := fun b s => b = true -> s = Reloaded);
    [| | discriminate].
  - apply turns_for_each; [auto |].
    intros record s Hs; rewrite (Hs eq_refl).
    apply turns_bind with (P := fun _ s => s = Reloaded); [| | discriminate].
    { apply turns_beside; [apply update_stack_record_beside_webs | auto]. }
    intros _ s' ->.
    apply turns_for_each; [auto |].
    intros location s' Hs'; rewrite (Hs' eq_refl).
    apply update_webpool_turn.
  - intros _ s Hs; rewrite (Hs eq_refl).
    apply turns_beside; [apply refresh_beside_webs | auto].
Qed.

End WebsTurns.

Section StackPassFresh.

Context {St : Type}.
Variable db_execute : sql -> St -> result unit * St.
Variable db_commit : St -> result unit * St.
Variable db_fetchall : sql -> St -> result (list row) * St.

Local Abbreviation W := (World St).

(** Side conditions of the lemmas on relations, for the relation
    [lookups_stay_fresh]. *)
Ltac fresh_side table :=
  solve [ exact (fresh_refl table) | exact (fresh_trans table)
        | exact (fresh_log table) | exact (fresh_conn table)
        | exact (fresh_clock table) | exact (fresh_cache table)
        | intros; reflexivity | intros; exact I | exact I ].

Lemma update_stack_data_fresh_stacks :
  reads_without_warning db_fetchall ->
  respects (lookups_stay_fresh "stacks")
    (update_stack_data db_execute db_commit db_fetchall).
Proof.
  intros Hreads.
  eapply respects_update_stack_data
    with (Q := fun e => writes_table false "stacks" e = false)
         (P := fun _ => True);
    try fresh_side "stacks".
  - intros record_dict; now apply write_then_read_fresh.
  - intros record_dict.
    eapply respects_write_then_read
      with (Q := fun e => writes_table false "stacks" e = false)
           (P := fun _ => True);
      fresh_side "stacks".
Qed.

Lemma update_stack_data_fresh_webpools :
  reads_without_warning db_fetchall ->
  respects (lookups_stay_fresh "webpools")
    (update_stack_data db_execute db_commit db_fetchall).
Proof.
  intros Hreads.
  eapply respects_update_stack_data
    with (Q := fun e => writes_table false "webpools" e = false)
         (P := fun _ => True);
    try fresh_side "webpools".
  - intros record_dict.
    eapply respects_write_then_read
      with (Q := fun e => writes_table false "webpools" e = false)
           (P := fun _ => True);
      fresh_side "webpools".
  - intros record_dict; now apply write_then_read_fresh.
Qed.


End StackPassFresh.



(** ** The fabric pass *)

Lemma search_by_field_text (rows : list row) (o : dict pyval)
    (label n : string) :
  text_field o label = Ok n ->
  search_by_field rows o label = search_rows "name" n rows.
Proof.
  intros H; induction rows as [|item rows IH]; simpl; [reflexivity |].
  destruct (getitem item "name") as [name|e]; simpl; [|reflexivity].
  now rewrite H, IH.
Qed.

Lemma text_field_setitem (o : dict pyval) (k k' : string) (v : pyval) :
  k <> k' -> text_field (setitem o k' v) k = text_field o k.
Proof.
  intros H; unfold text_field, getitem.
  now rewrite lookup_key_setitem_ne.
Qed.

Lemma text_field_classified (o o' : dict pyval) (k : string) :
  k <> "entitytype" ->
  classify_entitytype o = Ok o' -> text_field o' k = text_field o k.
Proof.
  intros Hk; unfold classify_entitytype; intros H.
  bind_ok H.
  repeat match type of H with
         | (if ?b then _ else _) = _ => destruct b
         end;
    injection H as <-;
    (reflexivity || now apply text_field_setitem).
Qed.

Lemma resolve_id_columns_cons (cache : gmap string (list row))
    (o : dict pyval) (t : string) (tables : list string) (f : row) :
  resolve_id_columns cache o (t :: tables) f
  = let* rows := getattr cache t in
    let* search_id_table := search_by_field rows o (source_label t) in
    let* found := first search_id_table in
    let* search_id := getitem found "ID" in
    resolve_id_columns cache o tables
      (setitem f (source_label t +:+ "id") search_id).
Proof. reflexivity. Qed.

(** The identifier columns once the loop over the reference tables has
    passed [switch]: the column [switchNameid] holds the [ID] of the first
    cached switch of the record's [switchName]. *)
Lemma resolve_id_columns_switch (cache : gmap string (list row))
    (o : dict pyval) (n : string) (rows : list row) (base out : row) :
  text_field o "switchName" = Ok n ->
  cache !! "switch" = Some rows ->
  resolve_id_columns cache o sannav_common_id_tables base = Ok out ->
  exists found rest id,
    search_rows "name" n rows = Ok (found :: rest)
    /\ getitem found "ID" = Ok id
    /\ lookup_key "switchNameid" out = Some id.
Proof.
  intros Hn Hc H.
  unfold sannav_common_id_tables in H.
  do 4 (rewrite resolve_id_columns_cons in H; repeat bind_ok H).
  rewrite resolve_id_columns_cons in H.
  unfold getattr at 1 in H; rewrite Hc in H; cbn [bind] in H.
  change (source_label "switch") with "switchName" in H.
  rewrite (search_by_field_text _ _ _ _ Hn) in H.
  destruct (search_rows "name" n rows) as [[|found rest]|e] eqn:Hs;
    try discriminate H.
  cbn [bind first] in H.
  destruct (getitem found "ID") as [id|e] eqn:Hid; [|discriminate H].
  cbn [bind] in H.
  exists found, rest, id; repeat split; auto.
  assert (Hk : Forall (fun t => source_label t +:+ "id" <> "switchNameid")
                 ["zone"])
    by (repeat constructor; vm_compute; discriminate).
  rewrite (resolve_id_columns_keeps _ _ _ _ Hk _ _ H).
  apply lookup_key_setitem_eq.
Qed.

(** The row built for a record has no column of the source's name
    [switchName]: the switch is written under [switchNameid] only. *)
Lemma format_no_switch_name (cache : gmap string (list row))
    (o : dict pyval) (runid : string) (f : formated_records) :
  snd (__format_sannav_insert_data cache o runid) = Ok f ->
  lookup_key "switchName" (formated_sannav f) = None.
Proof.
  intros H.
  unfold __format_sannav_insert_data in H.
  destruct (classify_entitytype o) as [o'|]; [|discriminate H].
  unfold format_classified in H.
  destruct (resolve_device o') as [device|]; [|discriminate H].
  destruct (text_field o' "remoteNodeWwn") as [wwn|]; [|discriminate H].
  cbn [snd] in H.
  repeat bind_ok H.
  injection H as <-; cbn [formated_sannav].
  assert (Hk : Forall (fun t => source_label t +:+ "id" <> "switchName")
                 sannav_common_id_tables)
    by (repeat constructor; vm_compute; discriminate).
  match goal with
  | E : resolve_id_columns _ _ _ _ = Ok _ |- _ =>
      rewrite (resolve_id_columns_keeps _ _ _ _ Hk _ _ E)
  end.
  reflexivity.
Qed.

(** The row built for a record carries, in its switch column, the [ID]
    of the first cached switch of the record's name. *)
Lemma format_switch_column (cache : gmap string (list row))
    (o : dict pyval) (runid n : string) (rows : list row)
    (f : formated_records) :
  text_field o "switchName" = Ok n ->
  cache !! "switch" = Some rows ->
  snd (__format_sannav_insert_data cache o runid) = Ok f ->
  exists found rest id,
    search_rows "name" n rows = Ok (found :: rest)
    /\ getitem found "ID" = Ok id
    /\ lookup_key "switchNameid" (formated_sannav f) = Some id.
Proof.
  intros Hn Hc H.
  unfold __format_sannav_insert_data in H.
  destruct (classify_entitytype o) as [o'|] eqn:Hcl; [|discriminate H].
  rewrite <- (text_field_classified o o' "switchName"
                ltac:(discriminate) Hcl) in Hn.
  unfold format_classified in H.
  destruct (resolve_device o') as [device|]; [|discriminate H].
  destruct (text_field o' "remoteNodeWwn") as [wwn|]; [|discriminate H].
  cbn [snd] in H.
  set (o2 := if String.eqb wwn EmptyString
             then setitem o' "remoteNodeWwn" (PyStr "none") else o') in *.
  assert (Hn2 : text_field o2 "switchName" = Ok n).
  { subst o2; destruct (String.eqb wwn EmptyString); [|exact Hn].
    rewrite text_field_setitem; [exact Hn | discriminate]. }
  repeat bind_ok H.
  injection H as <-; cbn [formated_sannav].
  match goal with
  | E : resolve_id_columns _ _ _ _ = Ok _ |- _ =>
      exact (resolve_id_columns_switch _ _ _ _ _ _ Hn2 Hc E)
  end.
Qed.

Lemma source_values_In (source : string) (records : list (dict pyval))
    (o : dict pyval) (n : string) :
  forall values,
    source_values source records = Ok values ->
    In o records -> text_field o source = Ok n -> In n values.
Proof.
  induction records as [|r records IH]; intros values H Hin Hn;
    [contradiction |].
  simpl in H; repeat bind_ok H; injection H as <-.
  destruct Hin as [-> | Hin].
  - left; congruence.
  - right; now apply (IH _ eq_refl).
Qed.

Lemma subscript_all_lookup (results : list (result formated_records)) :
  forall formatted i f,
    subscript_all results = Ok formatted ->
    formatted !! i = Some f -> results !! i = Some (Ok f).
Proof.
  induction results as [|r results IH]; intros formatted i f H Hi;
    simpl in H.
  - injection H as <-; discriminate Hi.
  - destruct r as [d|e]; [|discriminate H].
    bind_ok H; injection H as <-.
    destruct i as [|i]; simpl in *; [congruence |].
    now apply (IH _ _ _ eq_refl).
Qed.

(** The single-row statement for a new reference row of name [n]. *)
Lemma insert_name_values (n : string) :
  exists d',
    insert_columns_values (keys [("name", n)]) [("name", n)] [] []
    = Ok (["[name]"], ["'" +:+ double_apostrophes n +:+ "'"], d').
Proof.
  cbn [keys map fst insert_columns_values column_written String.eqb
       Ascii.eqb Bool.eqb orb negb].
  unfold getitem at 1; cbn [lookup_key String.eqb Ascii.eqb Bool.eqb].
  cbn [bind].
  destruct (has_apostrophe n) eqn:Ha.
  - cbn [setitem String.eqb Ascii.eqb Bool.eqb].
    unfold getitem; cbn [lookup_key String.eqb Ascii.eqb Bool.eqb bind].
    eexists; reflexivity.
  - unfold getitem; cbn [lookup_key String.eqb Ascii.eqb Bool.eqb bind].
    rewrite (double_apostrophes_none _ Ha).
    eexists; reflexivity.
Qed.

Section FabricPass.

Context {St : Type}.
Variable db_execute : sql -> St -> result unit * St.
Variable db_commit : St -> result unit * St.
Variable db_fetchall : sql -> St -> result (list row) * St.
Variable set_iteration : list string -> list string.
Hypothesis set_iteration_In :
  forall l x, In x (set_iteration l) <-> In x l.

Local Abbreviation W := (World St).

Lemma swk_refl (b : bool) (w : W) : switch_cache_kept b w w.
Proof.
  split; [exists []; now rewrite app_nil_r | split; reflexivity].
Qed.

Lemma swk_trans (b : bool) (x y z : W) :
  switch_cache_kept true x y -> switch_cache_kept b y z ->
  switch_cache_kept b x z.
Proof.
  intros ((e1 & H1) & C1 & S1) ((e2 & H2) & C2 & S2).
  split; [|split; congruence].
  exists (e1 ++ e2); now rewrite H2, H1, app_assoc.
Qed.

Lemma swk_log (b : bool) (e : event) (w : W) :
  True -> switch_cache_kept b w (set_trace (trace w ++ [e]) w).
Proof. intros _; split; [now exists [e] | split; reflexivity]. Qed.

Lemma swk_silent (b : bool) (w w' : W) :
  trace w' = trace w ->
  tables_cache w' !! "switch" = tables_cache w !! "switch" ->
  sannav w' = sannav w ->
  switch_cache_kept b w w'.
Proof.
  intros H1 H2 H3; split; [|split; assumption].
  exists []; now rewrite app_nil_r.
Qed.

Lemma swk_conn (b : bool) (s : St) (w : W) :
  switch_cache_kept b w (set_conn s w).
Proof. now apply swk_silent. Qed.

Lemma swk_clock (b : bool) (l : list string) (w : W) :
  switch_cache_kept b w (set_clock l w).
Proof. now apply swk_silent. Qed.

Lemma swk_activezones (b : bool) (l : list (list string)) (w : W) :
  switch_cache_kept b w (set_activezone_list l w).
Proof. now apply swk_silent. Qed.

Lemma swk_cache (b : bool) (t : string) (rows : list row) (w : W) :
  t <> "switch" ->
  switch_cache_kept b w
    (set_tables_cache (<[t:=rows]> (tables_cache w)) w).
Proof.
  intros H; apply swk_silent; try reflexivity.
  simpl; now apply lookup_insert_ne.
Qed.

(** Side conditions of the lemmas on relations, for the relation
    [switch_cache_kept]. *)
Ltac swk_side :=
  solve [ exact swk_refl | exact swk_trans | exact swk_log
        | exact swk_conn | exact swk_clock | exact swk_cache
        | exact swk_activezones
        | intros; exact I | exact I | discriminate ].

Lemma update_id_table_kept (table : string) :
  (if negb (String.eqb table "activeZones") then table else "zone")
  <> "switch" ->
  respects switch_cache_kept
    (update_id_table db_execute db_commit db_fetchall set_iteration table).
Proof.
  intros H.
  eapply respects_update_id_table
    with (Q := fun _ => True) (P := fun t => t <> "switch");
    try swk_side; exact H.
Qed.

Lemma insert_missing_name_kept (table record : string) :
  respects switch_cache_kept
    (insert_missing_name db_execute db_commit table record).
Proof.
  eapply respects_insert_missing_name with (Q := fun _ => True);
    swk_side.
Qed.

Lemma get_runid_kept :
  respects switch_cache_kept
    (__get_runid db_execute db_commit db_fetchall).
Proof.
  eapply respects_get_runid with (Q := fun _ => True);
    swk_side.
Qed.

(** A name the cached switches do not hold is sent as a new switch. *)
Lemma insert_missing_name_sends (n : string) (rows0 : list row) (w : W) :
  tables_cache w !! "switch" = Some rows0 ->
  search_rows "name" n rows0 = Ok [] ->
  exists text tail,
    trace (snd (insert_missing_name db_execute db_commit "switch" n w))
    = trace w
      ++ EvLookup "switch"
         :: EvExecute text
              (Insert "switch" ["[name]"]
                 ["'" +:+ double_apostrophes n +:+ "'"])
         :: tail.
Proof.
  intros Hc Hs.
  unfold insert_missing_name, mbind at 1, search_cache, mbind at 1, cached,
    mbind at 1, log; cbn [fst snd tables_cache set_trace].
  rewrite Hc; unfold lift at 1; rewrite Hs.
  unfold insert_data_to_table, mbind at 1, lift at 1.
  destruct (insert_name_values n) as (d' & ->); cbn [fst snd].
  match goal with
  | |- context [try_except (cursor_execute _ ?t ?q ;; _) _ ?w0] =>
      destruct (flush_trace db_execute db_commit t q w0) as [Ht|Ht];
      exists t; rewrite Ht; cbn [trace set_trace];
      rewrite <- app_assoc; eexists; reflexivity
  end.
Qed.

Lemma for_each_Ok {A} (x : A) (l : list A) (body : A -> M W unit)
    (w w' : W) :
  for_each (x :: l) body w = (Ok tt, w') ->
  exists w1, body x w = (Ok tt, w1) /\ for_each l body w1 = (Ok tt, w').
Proof.
  rewrite for_each_cons.
  destruct (body x w) as [[[]|e] w1]; [eauto | discriminate].
Qed.

(** The loop over the names of the switches sends every name that the
    cached switches do not hold. *)
Lemma switch_names_sent (n : string) (rows0 : list row)
    (names : list string) :
  forall w w' : W,
    for_each names (insert_missing_name db_execute db_commit "switch") w
    = (Ok tt, w') ->
    In n names ->
    tables_cache w !! "switch" = Some rows0 ->
    search_rows "name" n rows0 = Ok [] ->
    exists pre text post,
      trace w'
      = trace w
        ++ pre
        ++ EvExecute text
             (Insert "switch" ["[name]"]
                ["'" +:+ double_apostrophes n +:+ "'"])
           :: post.
Proof.
  induction names as [|x names IH]; intros w w' H Hin Hc Hs;
    [contradiction |].
  apply for_each_Ok in H as (w1 & Hx & Hrest).
  pose proof (insert_missing_name_kept "switch" x w) as Hk.
  rewrite Hx in Hk; cbn [fst snd continues] in Hk.
  destruct Hk as ((evx & Htx) & Hcx & _).
  pose proof (respects_for_each switch_cache_kept swk_refl swk_trans names
                (insert_missing_name db_execute db_commit "switch")
                (insert_missing_name_kept "switch") w1) as Hk.
  rewrite Hrest in Hk; cbn [fst snd continues] in Hk.
  destruct Hk as ((evr & Htr) & _ & _).
  destruct Hin as [-> | Hin].
  - destruct (insert_missing_name_sends n rows0 w Hc Hs)
      as (text & tail & Ht).
    rewrite Hx in Ht; cbn [snd] in Ht.
    exists [EvLookup "switch"], text, (tail ++ evr).
    rewrite Htr, Ht, <- app_assoc; reflexivity.
  - destruct (IH w1 w' Hrest Hin) as (pre & text & post & Ht);
      [congruence | exact Hs |].
    exists (evx ++ pre), text, post.
    rewrite Ht, Htx, <- !app_assoc; reflexivity.
Qed.

Lemma read_Ok (t : string) (w w' : W) :
  __read_sql_tables_to_cache db_fetchall t w = (Ok tt, w') ->
  exists q rows,
    trace w' = trace w ++ [EvExecute (statement_text q) q; EvSetCache t]
    /\ tables_cache w' !! t = Some rows
    /\ sannav w' = sannav w.
Proof.
  unfold __read_sql_tables_to_cache, mbind, try_except, cursor_fetchall,
    mbind, log; simpl.
  destruct (db_fetchall _ (conn w)) as [[rows|e] s]; simpl.
  - intros H; injection H as <-; simpl.
    eexists _, rows; rewrite <- app_assoc; repeat split.
    apply lookup_insert_eq.
  - destruct e; discriminate.
Qed.

(** The turn of the loop for the switch table: the new name is sent, and
    then the switch table is read into the cache. *)
Lemma switch_step (o : dict pyval) (n : string) (rows0 : list row)
    (w w' : W) :
  update_id_table db_execute db_commit db_fetchall set_iteration "switch" w
  = (Ok tt, w') ->
  In o (sannav w) ->
  text_field o "switchName" = Ok n ->
  tables_cache w !! "switch" = Some rows0 ->
  search_rows "name" n rows0 = Ok [] ->
  exists pre text mid rows,
    trace w'
    = trace w
      ++ pre
      ++ EvExecute text
           (Insert "switch" ["[name]"]
              ["'" +:+ double_apostrophes n +:+ "'"])
         :: mid ++ [EvSetCache "switch"]
    /\ tables_cache w' !! "switch" = Some rows
    /\ sannav w' = sannav w.
Proof.
  intros H Hin Hn Hc Hs.
  unfold update_id_table in H.
  change (negb (String.eqb "switch" "activeZones")) with true in H.
  cbv iota in H.
  unfold mbind at 1 in H; cbn [fst snd] in H.
  change (id_table_source "switch") with "switchName" in H.
  unfold mbind at 1, lift at 1 in H.
  destruct (source_values "switchName" (sannav w)) as [values|e] eqn:Hv;
    [|discriminate H].
  apply mbind_Ok in H as ([] & w1 & Hloop & Hread).
  pose proof (source_values_In _ _ _ _ _ Hv Hin Hn) as Hval.
  apply set_iteration_In in Hval.
  destruct (switch_names_sent n rows0 _ w w1 Hloop Hval Hc Hs)
    as (pre & text & post & Ht1).
  pose proof (respects_for_each switch_cache_kept swk_refl swk_trans
                (set_iteration values)
                (insert_missing_name db_execute db_commit "switch")
                (insert_missing_name_kept "switch") w) as Hk.
  rewrite Hloop in Hk; cbn [fst snd continues] in Hk.
  destruct Hk as (_ & _ & Hs1).
  apply read_Ok in Hread as (q & rows & Ht2 & Hc2 & Hs2).
  exists pre, text, (post ++ [EvExecute (statement_text q) q]), rows.
  repeat split; [|exact Hc2 | congruence].
  rewrite Ht2, Ht1, <- !app_assoc; reflexivity.
Qed.

Lemma switch_step_sannav (w w' : W) :
  update_id_table db_execute db_commit db_fetchall set_iteration "switch" w
  = (Ok tt, w') ->
  sannav w' = sannav w.
Proof.
  intros H; unfold update_id_table in H.
  change (negb (String.eqb "switch" "activeZones")) with true in H.
  cbv iota in H.
  unfold mbind at 1 in H; cbn [fst snd] in H.
  unfold mbind at 1, lift at 1 in H.
  destruct (source_values _ (sannav w)) as [values|e]; [|discriminate H].
  apply mbind_Ok in H as ([] & w1 & Hloop & Hread).
  pose proof (respects_for_each switch_cache_kept swk_refl swk_trans
                (set_iteration values)
                (insert_missing_name db_execute db_commit "switch")
                (insert_missing_name_kept "switch") w) as Hk.
  rewrite Hloop in Hk; cbn [fst snd continues] in Hk.
  destruct Hk as (_ & _ & Hs1).
  apply read_Ok in Hread as (q & rows & _ & _ & Hs2).
  congruence.
Qed.

(** A turn of the loop for another table, when it returns. *)
Lemma other_step (table : string) (w w' : W) :
  (if negb (String.eqb table "activeZones") then table else "zone")
  <> "switch" ->
  update_id_table db_execute db_commit db_fetchall set_iteration table w
  = (Ok tt, w') ->
  switch_cache_kept true w w'.
Proof.
  intros Ht H.
  pose proof (update_id_table_kept table Ht w) as Hk.
  now rewrite H in Hk.
Qed.

(** C9: for every switchport record naming a switch that the switch
    cache does not hold when the fabric pass starts, bringing the
    reference tables up to date sends an [INSERT] of the new switch and
    then reads the switch table into the cache, all before the rows are
    built; and the row built for the record holds, in its switch column
    [switchNameid], the [ID] of the first row of that name in the cache
    so read, which is still the cache when the rows have been built, and
    has no column [switchName] for the name itself. *)
Theorem C9_new_switch_resolved (w w1 w2 : W)
    (formatted : list formated_records) (i : nat) (o : dict pyval)
    (f : formated_records) (n : string) (rows0 : list row) :
  resolve_reference_tables db_execute db_commit db_fetchall set_iteration w
  = (Ok tt, w1) ->
  build_fabric_rows db_execute db_commit db_fetchall w1
  = (Ok formatted, w2) ->
  sannav w1 !! i = Some o ->
  formatted !! i = Some f ->
  text_field o "switchName" = Ok n ->
  tables_cache w !! "switch" = Some rows0 ->
  search_rows "name" n rows0 = Ok [] ->
  exists rows found rest id pre text mid post,
    emitted w w1
    = pre
      ++ EvExecute text
           (Insert "switch" ["[name]"]
              ["'" +:+ double_apostrophes n +:+ "'"])
         :: mid ++ EvSetCache "switch" :: post
    /\ tables_cache w1 !! "switch" = Some rows
    /\ tables_cache w2 !! "switch" = Some rows
    /\ search_rows "name" n rows = Ok (found :: rest)
    /\ getitem found "ID" = Ok id
    /\ lookup_key "switchNameid" (formated_sannav f) = Some id
    /\ lookup_key "switchName" (formated_sannav f) = None.
Proof.
  intros Hres Hbuild Hi Hf Hn Hc Hs.
  unfold resolve_reference_tables in Hres.
  unfold mbind at 1 in Hres; cbn [fst snd] in Hres.
  set (wd := set_sannav (map fill_defaults (sannav w)) w) in *.
  apply for_each_Ok in Hres as (wa & Ha & Hres).
  apply for_each_Ok in Hres as (wf & Hfa & Hres).
  apply for_each_Ok in Hres as (wh & Hh & Hres).
  apply for_each_Ok in Hres as (ws & Hst & Hres).
  apply for_each_Ok in Hres as (wsw & Hsw & Hres).
  apply for_each_Ok in Hres as (wz & Hz & Hres).
  simpl in Hres; injection Hres as <-.
  apply other_step in Ha; [|discriminate].
  apply other_step in Hfa; [|discriminate].
  apply other_step in Hh; [|discriminate].
  apply other_step in Hst; [|discriminate].
  apply other_step in Hz; [|discriminate].
  pose proof (swk_trans _ _ _ _ Ha
                (swk_trans _ _ _ _ Hfa (swk_trans _ _ _ _ Hh Hst)))
    as ((ev1 & Ht1) & Hc1 & Hs1).
  destruct Hz as ((ev3 & Ht3) & Hc3 & Hs3).
  assert (Hin : In o (sannav ws)).
  { apply list_elem_of_In, list_elem_of_lookup; exists i.
    pose proof (switch_step_sannav ws wsw Hsw) as Hss.
    congruence. }
  destruct (switch_step o n rows0 ws wsw Hsw Hin Hn
              ltac:(rewrite Hc1; exact Hc) Hs)
    as (pre & text & mid & rows & Ht2 & Hc2 & Hs2).
  (* the rows are built on the cache so read *)
  unfold build_fabric_rows in Hbuild.
  apply mbind_Ok in Hbuild as (runs & wr & Hrun & Hbuild).
  unfold mbind at 1, lift at 1 in Hbuild.
  destruct (first runs) as [first_run|e]; [|discriminate Hbuild].
  unfold mbind at 1, lift at 1 in Hbuild.
  destruct (getitem first_run "ID") as [runid|e]; [|discriminate Hbuild].
  unfold mbind at 1, __sannav_lookup_async in Hbuild.
  cbn [fst snd] in Hbuild; unfold lift in Hbuild.
  injection Hbuild as Hsub Hw2.
  pose proof (get_runid_kept wz) as Hk.
  rewrite Hrun in Hk; cbn [fst snd continues] in Hk.
  destruct Hk as (_ & Hcr & Hsr).
  pose proof (subscript_all_lookup _ _ _ _ Hsub Hf) as Hri.
  rewrite !list_lookup_fmap, Hsr, Hi in Hri; cbn in Hri.
  injection Hri as Hri.
  destruct (format_switch_column (tables_cache wr) o runid n rows f Hn
              ltac:(rewrite Hcr, Hc3; exact Hc2) Hri)
    as (found & rest & id & Hfound & Hid & Hcol).
  pose proof (format_no_switch_name (tables_cache wr) o runid f Hri) as Hbare.
  exists rows, found, rest, id, (ev1 ++ pre), text, mid, ev3.
  repeat split; auto.
  - apply emitted_app.
    rewrite Ht3, Ht2, Ht1; subst wd; cbn [trace set_sannav].
    rewrite <- !app_assoc; cbn [app]; now rewrite <- app_assoc.
  - now rewrite Hc3.
  - subst w2; cbn [tables_cache set_sannav]; now rewrite Hcr, Hc3.
Qed.

End FabricPass.

Lemma result_pair {W A} (c : result A * W) (a : A) :
  fst c = Ok a -> c = (Ok a, snd c).
Proof. destruct c as [r w]; simpl; now intros ->. Qed.

Lemma C9_new_switch_resolved_witness :
  (forall l x, In x (Scenario.first_occurrences l) <-> In x l)
  /\ sannav fabric_resolved !! 0%nat
     = Some (fill_defaults Scenario.port_on_sw9)
  /\ search_rows "name" "sw9" [[("ID", "5"); ("name", "sw1")]] = Ok []
  /\ exists id,
       lookup_key "switchNameid" (formated_sannav Scenario.sw9_row)
       = Some id
       /\ lookup_key "switchName" (formated_sannav Scenario.sw9_row)
          = None.
Proof.
  assert (Hset : forall l x, In x (Scenario.first_occurrences l) <-> In x l)
    by (intros l x; apply nodup_In).
  assert (H1 : fst (resolve_reference_tables TableStore.execute
                      TableStore.commit TableStore.fetchall
                      Scenario.first_occurrences Scenario.fabric_world)
               = Ok tt) by (vm_compute; reflexivity).
  assert (H2 : fst (build_fabric_rows TableStore.execute TableStore.commit
                      TableStore.fetchall fabric_resolved)
               = Ok [Scenario.sw9_row]) by (vm_compute; reflexivity).
  assert (H3 : sannav fabric_resolved !! 0%nat
               = Some (fill_defaults Scenario.port_on_sw9))
    by (vm_compute; reflexivity).
  assert (H5 : text_field (fill_defaults Scenario.port_on_sw9) "switchName"
               = Ok "sw9") by (vm_compute; reflexivity).
  assert (H6 : tables_cache Scenario.fabric_world !! "switch"
               = Some [[("ID", "5"); ("name", "sw1")]])
    by (vm_compute; reflexivity).
  assert (H7 : search_rows "name" "sw9" [[("ID", "5"); ("name", "sw1")]]
               = Ok []) by (vm_compute; reflexivity).
  split; [exact Hset | split; [exact H3 | split; [exact H7 |]]].
  destruct (C9_new_switch_resolved TableStore.execute TableStore.commit
              TableStore.fetchall Scenario.first_occurrences Hset
              Scenario.fabric_world fabric_resolved
              (snd (build_fabric_rows TableStore.execute TableStore.commit
                      TableStore.fetchall fabric_resolved))
              [Scenario.sw9_row] 0 (fill_defaults Scenario.port_on_sw9)
              Scenario.sw9_row "sw9" [[("ID", "5"); ("name", "sw1")]]
              (result_pair _ _ H1) (result_pair _ _ H2) H3 eq_refl H5 H6 H7)
    as (rows & found & rest & id & pre & text & mid & post & _ & _ & _ & _
        & _ & Hcol & Hbare).
  exists id; split; [exact Hcol | exact Hbare].
Defined.

(** ** The blocks of the batched writer *)

Lemma statements_app (a b : list event) :
  statements (a ++ b) = statements a ++ statements b.
Proof. unfold statements; apply flat_map_app. Qed.

Section BatchBlocks.

Context {St : Type}.
Variable db_execute : sql -> St -> result unit * St.
Variable db_commit : St -> result unit * St.
Hypothesis Hwarn : warns_only db_execute db_commit.

Local Abbreviation W := (World St).

(** A statement run and committed under [except ResourceWarning] on a
    store that only warns: the statement is sent and the writer goes on. *)
Lemma flush_warned (text : string) (q : sql) (w : W) :
  exists w' evs,
    try_except (cursor_execute db_execute text q ;; conn_commit db_commit)
      (ret tt) w = (Ok tt, w')
    /\ trace w' = trace w ++ evs
    /\ statements evs = [q].
Proof.
  destruct Hwarn as [He Hc].
  unfold try_except, mbind, cursor_execute, conn_commit, mbind, log; simpl.
  pose proof (He q (conn w)) as H1.
  destruct (db_execute q (conn w)) as [[[]|e] s]; simpl in *.
  - pose proof (Hc s) as H2.
    destruct (db_commit s) as [[[]|e] s2]; simpl in *.
    + eexists _, [EvExecute text q; EvCommit]; repeat split.
      simpl; now rewrite <- app_assoc.
    + destruct e; try discriminate H2.
      eexists _, [EvExecute text q; EvCommit]; repeat split.
      simpl; now rewrite <- app_assoc.
  - destruct e; try discriminate H1.
    eexists _, [EvExecute text q]; repeat split.
Qed.

(** The loop of the batched writer from a block that is not full: the
    full blocks it sends, and the rows it leaves pending. *)
Lemma batch_loop_blocks (table_name : string) (cols ci : list string)
    (size : Z) (record_list : list pyobj) :
  0 < size ->
  forall rows block pending (w : W),
    batch_rows cols record_list = Ok rows ->
    Z.of_nat (length pending) < size ->
    exists b p w' blocks evs,
      batch_loop db_execute db_commit table_name cols ci size record_list
        block (Z.of_nat (length pending)) pending w
      = (Ok (b, Z.of_nat (length p), p), w')
      /\ trace w' = trace w ++ evs
      /\ statements evs = map (InsertBlock table_name ci) blocks
      /\ concat blocks ++ p = pending ++ rows
      /\ Forall (fun r => Z.of_nat (length r) = size) blocks
      /\ Z.of_nat (length p) < size.
Proof.
  intros Hsize.
  induction record_list as [|entry rest IH];
    intros rows block pending w Hrows Hp; simpl in Hrows.
  - injection Hrows as <-.
    exists block, pending, w, [], []; simpl.
    rewrite !app_nil_r; repeat split; auto.
  - repeat bind_ok Hrows; injection Hrows as <-.
    rename a into vals, a0 into rows'.
    rewrite batch_loop_cons, E.
    replace (size =? 0) with false by (symmetry; apply Z.eqb_neq; lia).
    assert (Hlen : Z.of_nat (length (pending ++ [vals]))
                   = Z.of_nat (length pending) + 1)
      by (rewrite length_app; simpl; lia).
    destruct (Z.eq_dec (Z.of_nat (length pending) + 1) size) as [Hfull|Hnot].
    + rewrite Hfull, Z_mod_same_full.
      replace (size =? 0) with false by (symmetry; apply Z.eqb_neq; lia).
      cbn [andb negb Z.eqb].
      destruct (flush_warned
                  (slice_to (block +:+ block_line vals) (-3))
                  (InsertBlock table_name ci (pending ++ [vals])) w)
        as (w1 & evs1 & -> & Ht1 & Hs1).
      destruct (IH rows'
                  (insert_head table_name (join "," ci) +:+ CRLF) [] w1
                  eq_refl ltac:(simpl; lia))
        as (b & p & w' & blocks & evs & Hrun & Ht & Hs & Hcat & Hfullb & Hlt).
      simpl in Hrun.
      exists b, p, w', ((pending ++ [vals]) :: blocks), (evs1 ++ evs).
      repeat split; auto.
      * now rewrite Ht, Ht1, app_assoc.
      * now rewrite statements_app, Hs1, Hs.
      * simpl; rewrite <- !app_assoc, Hcat; reflexivity.
      * constructor; [lia | exact Hfullb].
    + replace ((Z.of_nat (length pending) + 1) mod size =? 0) with false.
      2:{ symmetry; apply Z.eqb_neq.
          rewrite Z.mod_small by lia; lia. }
      cbn [andb].
      destruct (IH rows' (block +:+ block_line vals) (pending ++ [vals]) w
                  eq_refl ltac:(lia))
        as (b & p & w' & blocks & evs & Hrun & Ht & Hs & Hcat & Hfullb & Hlt).
      rewrite Hlen in Hrun.
      exists b, p, w', blocks, evs; repeat split; auto.
      rewrite Hcat, <- app_assoc; reflexivity.
Qed.

(** The blocks the batched writer sends on a store that only warns. *)
Lemma insert_data_to_table_batch_blocks (table_name : string)
    (record_list : list pyobj) (first_record : row)
    (rows : list (list string)) (tranaction_block_size : Z) (w : W) :
  first record_list = Ok (Dict first_record) ->
  batch_rows (keys first_record) record_list = Ok rows ->
  0 < tranaction_block_size ->
  let out :=
    insert_data_to_table_batch db_execute db_commit table_name record_list
      tranaction_block_size w in
  fst out = Ok tt
  /\ exists blocks,
       statements (emitted w (snd out))
       = map (InsertBlock table_name
                (batch_column_insert (keys first_record))) blocks
       /\ concat blocks = rows
       /\ Forall (fun r => (0 < length r)%nat
                           /\ Z.of_nat (length r) <= tranaction_block_size)
                 blocks
       /\ forall i r, blocks !! i = Some r -> (S i < length blocks)%nat ->
                      Z.of_nat (length r) = tranaction_block_size.
Proof.
  intros Hfirst Hrows Hsize out; subst out.
  rewrite insert_data_to_table_batch_eq, Hfirst.
  destruct (batch_loop_blocks table_name (keys first_record)
              (batch_column_insert (keys first_record))
              tranaction_block_size record_list Hsize rows
              (insert_head table_name
                 (join "," (batch_column_insert (keys first_record)))
               +:+ CRLF) [] w Hrows ltac:(simpl; lia))
    as (b & p & w1 & blocks & evs & Hrun & Ht & Hs & Hcat & Hfull & Hlt).
  change (Z.of_nat (length (@nil (list string)))) with 0 in Hrun.
  simpl in Hcat; rewrite Hrun.
  destruct p as [|r p].
  - simpl; split; [reflexivity |].
    exists blocks; rewrite (emitted_app _ _ _ Ht).
    rewrite app_nil_r in Hcat.
    repeat split; auto.
    + eapply List.Forall_impl; [|exact Hfull]; simpl; intros r Hr; lia.
    + intros i r Hi _.
      apply (proj1 (List.Forall_forall _ _) Hfull), list_elem_of_In.
      eapply list_elem_of_lookup_2; exact Hi.
  - replace (0 <? Z.of_nat (length (r :: p))) with true
      by (symmetry; apply Z.ltb_lt; simpl; lia).
    destruct (flush_warned (slice_to b (-3))
                (InsertBlock table_name
                   (batch_column_insert (keys first_record)) (r :: p)) w1)
      as (w2 & evs2 & -> & Ht2 & Hs2).
    simpl; split; [reflexivity |].
    exists (blocks ++ [r :: p]).
    rewrite (emitted_app w w2 (evs ++ evs2))
      by (now rewrite Ht2, Ht, app_assoc).
    rewrite statements_app, Hs, Hs2, map_app, concat_app; simpl.
    rewrite app_nil_r.
    repeat split; auto.
    + apply Forall_app; split.
      * eapply List.Forall_impl; [|exact Hfull]; simpl; intros x Hx; lia.
      * constructor; [simpl in *; lia | constructor].
    + intros i x Hi Hlast.
      rewrite length_app in Hlast; simpl in Hlast.
      rewrite lookup_app_l in Hi by lia.
      apply (proj1 (List.Forall_forall _ _) Hfull), list_elem_of_In.
      eapply list_elem_of_lookup_2; exact Hi.
Qed.


End BatchBlocks.


(** ** The writers at their edges *)

Lemma lookup_key_keys {V} (d : dict V) (k : string) :
  In k (keys d) -> exists v, lookup_key k d = Some v.
Proof.
  induction d as [|[k' v'] d IH]; simpl; [tauto |].
  intros [->|H].
  - rewrite String.eqb_refl; eauto.
  - destruct (String.eqb k k'); eauto.
Qed.

Lemma keys_setitem {V} (d : dict V) (k : string) (v : V) :
  In k (keys d) -> keys (setitem d k v) = keys d.
Proof.
  induction d as [|[k' v'] d IH]; simpl; [tauto |].
  intros H; destruct (String.eqb k k') eqn:E; [reflexivity |].
  simpl; f_equal; apply IH.
  destruct H as [->|H]; [|exact H].
  now rewrite String.eqb_refl in E.
Qed.

(** A record gives a value for each of its own columns. *)
Lemma batch_value_insert_own_keys (d : row) (cols : list string) :
  (forall c, In c cols -> In c (keys d)) ->
  exists vals, batch_value_insert cols (Dict d) = Ok vals.
Proof.
  induction cols as [|c cols IH]; intros H; simpl; [eauto |].
  destruct IH as [vals Hv]; [intros x Hx; apply H; now right |].
  destruct (column_written c); [|eauto].
  destruct (lookup_key_keys d c) as [v Hl]; [apply H; now left |].
  unfold getitem; rewrite Hl; cbn [bind]; rewrite Hv; cbn [bind]; eauto.
Qed.

Lemma insert_columns_values_own_keys (cols : list string) :
  forall (d : row) (ci vi : list string),
    (forall c, In c cols -> In c (keys d)) ->
    exists out, insert_columns_values cols d ci vi = Ok out.
Proof.
  induction cols as [|c cols IH]; intros d ci vi H; simpl; [eauto |].
  destruct (column_written c); [|apply IH; intros x Hx; apply H; now right].
  assert (Hc : In c (keys d)) by (apply H; now left).
  destruct (lookup_key_keys d c Hc) as [v Hl].
  unfold getitem at 1; rewrite Hl; cbn [bind].
  destruct (has_apostrophe v).
  - unfold getitem at 1; rewrite lookup_key_setitem_eq; cbn [bind].
    apply IH; intros x Hx; rewrite keys_setitem by exact Hc.
    apply H; now right.
  - unfold getitem at 1; rewrite Hl; cbn [bind].
    apply IH; intros x Hx; apply H; now right.
Qed.

Section WriterEdges.

Context {St : Type}.
Variable db_execute : sql -> St -> result unit * St.
Variable db_commit : St -> result unit * St.

Local Abbreviation W := (World St).

(** X2: the batched writer takes its columns from the first record and
    divides by the block size before it sends anything: an empty list
    raises [IndexError], a first entry that is an exception raises
    [AttributeError], a block size of 0 raises [ZeroDivisionError], and
    in each case nothing was sent and the state is as it was. *)
Theorem batch_raises_before_sending (table_name : string)
    (tranaction_block_size : Z) (w : W) :
  insert_data_to_table_batch db_execute db_commit table_name []
    tranaction_block_size w = (Raise IndexError, w)
  /\ (forall e rest,
        insert_data_to_table_batch db_execute db_commit table_name
          (ExcObj e :: rest) tranaction_block_size w
        = (Raise (AttributeError "keys"), w))
  /\ (forall d rest,
        insert_data_to_table_batch db_execute db_commit table_name
          (Dict d :: rest) 0 w
        = (Raise ZeroDivisionError, w)).
Proof.
  split; [reflexivity | split].
  - intros e rest; now rewrite insert_data_to_table_batch_eq.
  - intros d rest; rewrite insert_data_to_table_batch_eq.
    cbn [first]; rewrite batch_loop_cons.
    destruct (batch_value_insert_own_keys d (keys d)) as [vals ->]; auto.
Qed.

(** What a statement run and committed under [except ResourceWarning]
    adds to the trace. *)
Lemma flush_emitted (text : string) (q : sql) (w : W) :
  emitted w
    (snd (try_except
            (cursor_execute db_execute text q ;; conn_commit db_commit)
            (ret tt) w))
  = EvExecute text q
    :: match fst (db_execute q (conn w)) with
       | Ok _ => [EvCommit]
       | Raise _ => []
       end.
Proof.
  apply emitted_app.
  unfold try_except, mbind, cursor_execute, conn_commit, mbind, log; simpl.
  destruct (db_execute q (conn w)) as [[[]|e] s]; simpl.
  - destruct (db_commit s) as [[[]|e] s']; simpl;
      [| destruct e; simpl]; now rewrite <- app_assoc.
  - destruct e; reflexivity.
Qed.

(** X3: the single-row writer sends one [INSERT] that names the written
    columns of the record in their order and gives, for each, the value
    of the record between apostrophes with every apostrophe inside it
    doubled; the commit follows if the store took the statement. *)
Theorem insert_statement_doubles_apostrophes (table_name : string)
    (record_dict : row) (w : W) :
  List.NoDup (keys record_dict) ->
  let written :=
    filter (fun c => column_written c = true) (keys record_dict) in
  let q :=
    Insert table_name
      (map (fun c => "[" +:+ c +:+ "]") written)
      (map (fun c => "'" +:+ double_apostrophes (value_of record_dict c)
                     +:+ "'") written) in
  emitted w
    (snd (insert_data_to_table db_execute db_commit table_name
            record_dict w))
  = EvExecute (statement_text q) q
    :: match fst (db_execute q (conn w)) with
       | Ok _ => [EvCommit]
       | Raise _ => []
       end
  /\ Forall (fun c => apostrophes_paired
                        (double_apostrophes (value_of record_dict c))
                      = true) written.
Proof.
  intros Hnd written q; split.
  2:{ apply List.Forall_forall; intros c _; apply double_apostrophes_paired. }
  unfold insert_data_to_table, mbind at 1, lift at 1.
  destruct (insert_columns_values_own_keys (keys record_dict) record_dict
              [] []) as [[[ci vi] d'] Hb]; [auto |].
  rewrite Hb; cbn [fst snd].
  pose proof (insert_columns_values_shape _ _ _ _ _ _ _ Hb) as [-> _].
  pose proof (insert_columns_values_doubled _ Hnd _ _ _ _ _ _ Hb) as ->.
  cbn [app]; apply flush_emitted.
Qed.

End WriterEdges.

Lemma insert_statement_doubles_apostrophes_witness :
  List.NoDup (keys Scenario.obrien)
  /\ emitted Scenario.nod_world
       (snd (insert_data_to_table Scenario.nod_execute Scenario.nod_commit
               "zone" Scenario.obrien Scenario.nod_world))
     = [EvExecute "INSERT INTO [dbo].[zone] ([name]) VALUES('O''Brien')"
          (Insert "zone" ["[name]"] ["'O''Brien'"]);
        EvCommit].
Proof.
  assert (H : List.NoDup (keys Scenario.obrien))
    by (repeat constructor; simpl; tauto).
  split; [exact H |].
  exact (proj1 (insert_statement_doubles_apostrophes Scenario.nod_execute
                  Scenario.nod_commit "zone" Scenario.obrien
                  Scenario.nod_world H)).
Defined.

(** ** The text of a multi-row statement *)

Lemma block_line_tuple (value_insert : list string) :
  block_line value_insert = tuple_text value_insert +:+ ("," +:+ CRLF).
Proof.
  unfold block_line, tuple_text; rewrite !append_assoc; reflexivity.
Qed.

Lemma concat_block_lines (r : list string) (rows : list (list string)) :
  concat_all (map block_line (r :: rows))
  = join ("," +:+ CRLF) (map tuple_text (r :: rows)) +:+ ("," +:+ CRLF).
Proof.
  revert r; induction rows as [|r' rows IH]; intros r.
  - simpl; now rewrite append_nil_r, block_line_tuple.
  - change (concat_all (map block_line (r :: r' :: rows)))
      with (block_line r +:+ concat_all (map block_line (r' :: rows))).
    rewrite IH, block_line_tuple.
    change (join ("," +:+ CRLF) (map tuple_text (r :: r' :: rows)))
      with (tuple_text r +:+ ("," +:+ CRLF)
            +:+ join ("," +:+ CRLF) (map tuple_text (r' :: rows))).
    now rewrite !append_assoc.
Qed.

(** [s[:-3]] takes a tail of three characters away. *)
Lemma slice_to_tail (a b : string) :
  String.length b = 3%nat -> slice_to (a +:+ b) (-3) = a.
Proof.
  intros Hb; unfold slice_to, len.
  rewrite length_append, Hb.
  change (-3 <? 0) with true; cbv iota.
  replace (Z.to_nat (Z.max 0 (Z.of_nat (String.length a + 3) + -3)))
    with (String.length a) by lia.
  apply substring_0_length.
Qed.

Lemma block_text_joined (table_name : string) (ci : list string)
    (rows : list (list string)) :
  rows <> [] ->
  slice_to ((insert_head table_name (join "," ci) +:+ CRLF)
            +:+ concat_all (map block_line rows)) (-3)
  = insert_head table_name (join "," ci) +:+ CRLF
    +:+ join ("," +:+ CRLF) (map tuple_text rows).
Proof.
  destruct rows as [|r rows]; [congruence | intros _].
  rewrite concat_block_lines, <- append_assoc, slice_to_tail by reflexivity.
  now rewrite append_assoc.
Qed.

Section BlockText.

Context {St : Type}.
Variable db_execute : sql -> St -> result unit * St.
Variable db_commit : St -> result unit * St.

Local Abbreviation W := (World St).

Lemma batch_loop_well_formed (table_name : string)
    (columns_list ci : list string) (size : Z) (record_list : list pyobj) :
  forall (block : string) (count : Z) (pending : list (list string))
         (w : W),
    block = (insert_head table_name (join "," ci) +:+ CRLF)
            +:+ concat_all (map block_line pending) ->
    count = Z.of_nat (length pending) ->
    let out :=
      batch_loop db_execute db_commit table_name columns_list ci size
        record_list block count pending w in
    emits_only block_well_formed w (snd out)
    /\ forall b c p,
         fst out = Ok (b, c, p) ->
         b = (insert_head table_name (join "," ci) +:+ CRLF)
             +:+ concat_all (map block_line p)
         /\ c = Z.of_nat (length p).
Proof.
  induction record_list as [|entry rest IH];
    intros block count pending w Hb Hc.
  - simpl; split; [apply emits_only_refl |].
    intros b c p H; injection H as <- <- <-; auto.
  - rewrite batch_loop_cons.
    destruct (batch_value_insert columns_list entry) as [vals|e] eqn:E.
    2:{ simpl; split; [apply emits_only_refl | discriminate]. }
    assert (Hb' : block +:+ block_line vals
                  = (insert_head table_name (join "," ci) +:+ CRLF)
                    +:+ concat_all (map block_line (pending ++ [vals]))).
    { rewrite Hb, map_app, concat_all_app, append_assoc; simpl.
      now rewrite append_nil_r. }
    assert (Hc' : count + 1 = Z.of_nat (length (pending ++ [vals])))
      by (rewrite length_app; simpl; lia).
    destruct (size =? 0).
    { simpl; split; [apply emits_only_refl | discriminate]. }
    destruct (((count + 1) mod size =? 0) && negb (count + 1 =? 0)).
    2:{ now apply IH. }
    assert (Hq : block_well_formed
                   (EvExecute (slice_to (block +:+ block_line vals) (-3))
                      (InsertBlock table_name ci (pending ++ [vals])))).
    { split; [now destruct pending |].
      rewrite Hb'; apply block_text_joined; now destruct pending. }
    pose proof (emits_flush db_execute db_commit block_well_formed _ _
                  Hq I w) as Hf.
    destruct (try_except _ _ w) as [[u|e] w1]; simpl in Hf.
    + destruct (IH (insert_head table_name (join "," ci) +:+ CRLF) 0 [] w1)
        as [He Hs].
      * simpl; now rewrite append_nil_r.
      * reflexivity.
      * split; [eapply emits_only_trans; eassumption | exact Hs].
    + simpl; split; [exact Hf | discriminate].
Qed.

(** X4: whatever the records, the block size and the store, every
    multi-row [INSERT] the batched writer sends holds at least one row,
    and its text is the head of the statement, a line break, and the
    rows, each between parentheses, separated by a comma and a line
    break, with nothing after the last row. *)
Theorem batch_statements_well_formed (table_name : string)
    (record_list : list pyobj) (tranaction_block_size : Z) (w : W) :
  Forall block_well_formed
    (emitted w
       (snd (insert_data_to_table_batch db_execute db_commit table_name
               record_list tranaction_block_size w))).
Proof.
  apply emits_only_emitted.
  rewrite insert_data_to_table_batch_eq.
  destruct (first record_list) as [[d|e]|e]; try apply emits_only_refl.
  destruct (batch_loop_well_formed table_name (keys d)
              (batch_column_insert (keys d)) tranaction_block_size
              record_list
              (insert_head table_name
                 (join "," (batch_column_insert (keys d))) +:+ CRLF)
              0 [] w) as [He Hs].
  { simpl; now rewrite append_nil_r. }
  { reflexivity. }
  destruct (batch_loop _ _ _ _ _ _ _ _ _ _ w) as [[[[b c] p]|e] w1];
    simpl in *; [|exact He].
  destruct (Hs b c p eq_refl) as [-> ->].
  destruct (Z.ltb_spec 0 (Z.of_nat (length p))) as [Hp|Hp]; [|exact He].
  eapply emits_only_trans; [exact He |].
  apply emits_flush; [|exact I].
  assert (Hne : p <> []) by (destruct p; [simpl in Hp; lia | discriminate]).
  split; [exact Hne | now apply block_text_joined].
Qed.

End BlockText.


(** ** The tables a pass writes *)

Section Footprint.

Context {St : Type}.
Variable db_execute : sql -> St -> result unit * St.
Variable db_commit : St -> result unit * St.
Variable db_fetchall : sql -> St -> result (list row) * St.
Variable set_iteration : list string -> list string.

Local Abbreviation W := (World St).

Lemma batch_loop_emits (Q : event -> Prop) (table_name : string)
    (cols ci : list string) (size : Z) (record_list : list pyobj) :
  (forall text rows, Q (EvExecute text (InsertBlock table_name ci rows))) ->
  Q EvCommit ->
  forall block count pending,
    keeps (emits_only Q)
      (batch_loop db_execute db_commit table_name cols ci size record_list
         block count pending).
Proof.
  intros HQ Hc.
  induction record_list as [|entry rest IH]; intros block count pending w.
  - apply emits_only_refl.
  - rewrite batch_loop_cons.
    destruct (batch_value_insert cols entry) as [vals|e];
      [|apply emits_only_refl].
    destruct (size =? 0); [apply emits_only_refl |].
    destruct (((count + 1) mod size =? 0) && negb (count + 1 =? 0));
      [|apply IH].
    pose proof (emits_flush db_execute db_commit Q
                  (slice_to (block +:+ block_line vals) (-3))
                  (InsertBlock table_name ci (pending ++ [vals]))
                  (HQ _ _) Hc w) as Hf.
    destruct (try_except _ _ w) as [[u|e] w1]; simpl in Hf; [|exact Hf].
    eapply emits_only_trans; [exact Hf | apply IH].
Qed.

Lemma insert_data_to_table_batch_emits (Q : event -> Prop)
    (table_name : string) (record_list : list pyobj) (size : Z) :
  (forall text ci rows, Q (EvExecute text (InsertBlock table_name ci rows)))
  -> Q EvCommit ->
  keeps (emits_only Q)
    (insert_data_to_table_batch db_execute db_commit table_name
       record_list size).
Proof.
  intros HQ Hc w; rewrite insert_data_to_table_batch_eq.
  destruct (first record_list) as [[d|e]|e]; try apply emits_only_refl.
  pose proof (batch_loop_emits Q table_name (keys d)
                (batch_column_insert (keys d)) size record_list
                (fun text rows => HQ text _ rows) Hc
                (insert_head table_name
                   (join "," (batch_column_insert (keys d))) +:+ CRLF)
                0 [] w) as He.
  destruct (batch_loop _ _ _ _ _ _ _ _ _ _ w) as [[[[b c] p]|e] w1];
    simpl in *; [|exact He].
  destruct (0 <? c); [|exact He].
  eapply emits_only_trans; [exact He |].
  apply emits_flush; auto.
Qed.

(** Side conditions of the lemmas on relations, for the relation that
    bounds the writes. *)
Ltac writes_side :=
  solve [ intros; apply emits_only_refl
        | intros; eapply emits_only_trans; eassumption
        | intros; eexists [_]; split; [reflexivity | now constructor]
        | intros; now apply emits_only_same_trace
        | intros; exact I
        | intros; simpl; tauto ].

Lemma update_stack_data_writes :
  keeps (emits_only (writes_within stack_pass_writes))
    (update_stack_data db_execute db_commit db_fetchall).
Proof.
  change (respects (fun _ => emits_only (writes_within stack_pass_writes))
            (update_stack_data db_execute db_commit db_fetchall)).
  eapply respects_update_stack_data
    with (Q := writes_within stack_pass_writes) (P := fun _ => True);
    try writes_side.
  - intros record_dict.
    eapply respects_write_then_read
      with (Q := writes_within stack_pass_writes) (P := fun _ => True);
      writes_side.
  - intros record_dict.
    eapply respects_write_then_read
      with (Q := writes_within stack_pass_writes) (P := fun _ => True);
      writes_side.
Qed.


Lemma read_writes (allowed : list write) (table_name : string) :
  keeps (emits_only (writes_within allowed))
    (__read_sql_tables_to_cache db_fetchall table_name).
Proof.
  change (respects (fun _ => emits_only (writes_within allowed))
            (__read_sql_tables_to_cache db_fetchall table_name)).
  eapply respects_read
    with (Q := writes_within allowed) (P := fun _ => True);
    writes_side.
Qed.

End Footprint.


(** ** Loading the cache *)

Section CacheLoad.

Context {St : Type}.
Variable db_fetchall : sql -> St -> result (list row) * St.
Hypothesis Hanswer : answering db_fetchall.

Local Abbreviation W := (World St).

Lemma read_answered (table_name : string) (w : W) :
  exists rows w',
    __read_sql_tables_to_cache db_fetchall table_name w = (Ok tt, w')
    /\ trace w'
       = trace w ++ [EvExecute (statement_text (cache_query table_name))
                       (cache_query table_name);
                     EvSetCache table_name]
    /\ tables_cache w' = <[table_name := rows]> (tables_cache w).
Proof.
  unfold __read_sql_tables_to_cache, cache_query.
  set (q := if negb (String.eqb table_name "activezones")
            then SelectAll table_name else SelectActiveZones).
  destruct (Hanswer q (conn w)) as [rows Hrows].
  unfold mbind, try_except, cursor_fetchall, mbind, log; simpl.
  destruct (db_fetchall q (conn w)) as [r s]; simpl in Hrows; subst r.
  simpl; exists rows; eexists; repeat split.
  simpl; now rewrite <- app_assoc.
Qed.

Lemma load_loop (l : list string) :
  forall w : W,
    exists w',
      for_each l
        (fun table =>
           try_except (__read_sql_tables_to_cache db_fetchall table)
             (ret tt)) w = (Ok tt, w')
      /\ (exists evs, trace w' = trace w ++ evs
                      /\ statements evs = map cache_query l)
      /\ (forall t, In t l -> is_Some (tables_cache w' !! t))
      /\ (forall t, ~ In t l -> tables_cache w' !! t = tables_cache w !! t).
Proof.
  induction l as [|table l IH]; intros w.
  - exists w; repeat split; auto; [|intros t []].
    exists []; now rewrite app_nil_r.
  - destruct (read_answered table w) as (rows & w1 & Hr & Ht & Hc).
    destruct (IH w1) as (w' & Hrun & (evs & Ht' & Hs) & Hin & Hout).
    exists w'; cbn [for_each]; unfold mbind at 1, try_except at 1.
    rewrite Hr; repeat split.
    + exact Hrun.
    + eexists; split; [rewrite Ht', Ht, <- app_assoc; reflexivity |].
      rewrite statements_app, Hs; reflexivity.
    + intros t [<- | Ht0]; [|now apply Hin].
      destruct (in_dec string_dec table l) as [Hl|Hl]; [now apply Hin |].
      rewrite (Hout _ Hl), Hc, lookup_insert_eq; eauto.
    + intros t Hnot.
      rewrite Hout by (intros H; apply Hnot; now right).
      rewrite Hc, lookup_insert_ne; [reflexivity |].
      intros ->; apply Hnot; now left.
Qed.

(** X6: on a store that answers every query, the loading step of
    [update_data_from_sources] returns, sends one query for each of the
    nine identifier tables and then for each of the three core tables,
    in their listed order, and leaves every one of these twelve tables in
    the cache; what the cache holds under any other name stays as it
    was. *)
Theorem cache_load_reads_every_table (w : W) :
  let out := read_tables_to_cache db_fetchall w in
  fst out = Ok tt
  /\ statements (emitted w (snd out))
     = map cache_query (Storage_Id_Tables ++ Storage_Core_Tables)
  /\ (forall t, In t (Storage_Id_Tables ++ Storage_Core_Tables) ->
                is_Some (tables_cache (snd out) !! t))
  /\ (forall t, ~ In t (Storage_Id_Tables ++ Storage_Core_Tables) ->
                tables_cache (snd out) !! t = tables_cache w !! t).
Proof.
  intros out; subst out; unfold read_tables_to_cache, mbind.
  destruct (load_loop Storage_Id_Tables w)
    as (w1 & -> & (evs1 & Ht1 & Hs1) & Hin1 & Hout1).
  destruct (load_loop Storage_Core_Tables w1)
    as (w2 & -> & (evs2 & Ht2 & Hs2) & Hin2 & Hout2).
  cbn [fst snd]; repeat split.
  - rewrite (emitted_app w w2 (evs1 ++ evs2))
      by (now rewrite Ht2, Ht1, app_assoc).
    now rewrite statements_app, Hs1, Hs2, map_app.
  - intros t Ht; apply in_app_or in Ht as [Ht | Ht]; [|now apply Hin2].
    destruct (in_dec string_dec t Storage_Core_Tables) as [Hc|Hc];
      [now apply Hin2 |].
    rewrite (Hout2 _ Hc); now apply Hin1.
  - intros t Hnot.
    rewrite Hout2, Hout1; [reflexivity | |];
      intros H; apply Hnot, in_or_app; auto.
Qed.

End CacheLoad.

Lemma cache_load_reads_every_table_witness :
  answering Scenario.nod_fetchall
  /\ fst (read_tables_to_cache Scenario.nod_fetchall Scenario.nod_world)
     = Ok tt.
Proof.
  assert (H : answering Scenario.nod_fetchall)
    by (intros q s; exists []; reflexivity).
  split; [exact H |].
  exact (proj1 (cache_load_reads_every_table Scenario.nod_fetchall H
                  Scenario.nod_world)).
Defined.


(** ** The customer pass at its edges *)

Lemma format_customer_keys (customer d : row) :
  __format_customer_insert_data customer = Ok d ->
  keys d = ["contextid"; "customer"; "status"; "stackid"].
Proof.
  unfold __format_customer_insert_data; intros H.
  repeat bind_ok H; now injection H as <-.
Qed.

Lemma batch_value_insert_exception (cols : list string) (e : exn) :
  (exists c, In c cols /\ column_written c = true) ->
  batch_value_insert cols (ExcObj e) = Raise TypeError.
Proof.
  induction cols as [|c cols IH]; intros (x & Hx & Hw); [destruct Hx |].
  simpl; destruct (column_written c) eqn:E; [reflexivity |].
  apply IH; exists x; split; [|exact Hw].
  destruct Hx as [-> | Hx]; [congruence | exact Hx].
Qed.

(** An exception other than [ResourceWarning] leaves the [try] it was
    raised in and what follows it. *)
Lemma raise_through {W A B C} (c : M W A) (k : A -> M W B) (h : M W B)
    (k' : B -> M W C) (w w' : W) (e : exn) :
  c w = (Raise e, w') -> e <> ResourceWarning ->
  mbind (try_except (mbind c k) h) k' w = (Raise e, w').
Proof.
  intros H Hne; unfold mbind, try_except; rewrite H.
  destruct e; congruence.
Qed.

Section CustomerEdges.

Context {St : Type}.
Variable db_execute : sql -> St -> result unit * St.
Variable db_commit : St -> result unit * St.
Variable db_fetchall : sql -> St -> result (list row) * St.

Local Abbreviation W := (World St).

(** A clearing that reports success has sent the [TRUNCATE] and the
    commit, and nothing else. *)
Lemma clear_table_true (table : string) (w : W) :
  fst (__clear_table db_execute db_commit table w) = Ok true ->
  trace (snd (__clear_table db_execute db_commit table w))
  = trace w ++ [EvExecute (statement_text (Truncate table)) (Truncate table);
                EvCommit]
  /\ tables_cache (snd (__clear_table db_execute db_commit table w))
     = tables_cache w.
Proof.
  unfold __clear_table, try_except, mbind, cursor_execute, conn_commit,
    mbind, log, ret; simpl.
  destruct (db_execute (Truncate table) (conn w)) as [[[]|e] s]; simpl.
  - destruct (db_commit s) as [[[]|e] s']; simpl.
    + intros _; split; [now rewrite <- app_assoc | reflexivity].
    + destruct e; simpl; discriminate.
  - destruct e; simpl; discriminate.
Qed.

(** X7: with no customer record fetched, a customer pass whose clearing
    succeeds returns having sent the [TRUNCATE] of the customers table
    and its commit and nothing more: the table is left empty, no row is
    inserted, the cache is not read again and no refresh is recorded. *)
Theorem no_customers_only_clears (w : W) :
  customers w = [] ->
  fst (__clear_table db_execute db_commit "customers" w) = Ok true ->
  let out := update_customer_data db_execute db_commit db_fetchall w in
  fst out = Ok tt
  /\ emitted w (snd out)
     = [EvExecute "TRUNCATE TABLE [dbo].[customers]" (Truncate "customers");
        EvCommit]
  /\ tables_cache (snd out) = tables_cache w.
Proof.
  intros Hnone Hclear out; subst out.
  rewrite update_customer_data_eq.
  destruct (clear_table_true "customers" w Hclear) as [Ht Hc].
  destruct (__clear_table db_execute db_commit "customers" w)
    as [r w1]; simpl in Hclear, Ht, Hc; subst r.
  rewrite Hnone; simpl; repeat split; auto.
  now apply emitted_app.
Qed.

(** Past an entry that is an exception the loop of the batched writer
    does not return. *)
Lemma batch_loop_exception (table_name : string) (cols ci : list string)
    (size : Z) (e : exn) (record_list : list pyobj) :
  In (ExcObj e) record_list ->
  (exists c, In c cols /\ column_written c = true) ->
  forall block count pending (w : W),
    exists e',
      fst (batch_loop db_execute db_commit table_name cols ci size
             record_list block count pending w) = Raise e'.
Proof.
  intros Hin Hcols.
  induction record_list as [|entry rest IH]; [destruct Hin |].
  intros block count pending w; rewrite batch_loop_cons.
  destruct Hin as [-> | Hin].
  { rewrite batch_value_insert_exception by exact Hcols; simpl; eauto. }
  destruct (batch_value_insert cols entry) as [vals|e0]; [|simpl; eauto].
  destruct (size =? 0); [simpl; eauto |].
  destruct (((count + 1) mod size =? 0) && negb (count + 1 =? 0));
    [|now apply IH].
  destruct (try_except _ _ w) as [[u|e0] w1]; [now apply IH | simpl; eauto].
Qed.

(** X8: a customer record that cannot be formatted does not stop the
    clearing.  When the clearing succeeds, the pass sends the
    [TRUNCATE] and its commit, then at most blocks of rows and their
    commits, and raises; the cache is not read again and no refresh is
    recorded. *)
Theorem unformattable_customer_stops_after_clearing (w : W)
    (customer : row) (e : exn) :
  In customer (customers w) ->
  __format_customer_insert_data customer = Raise e ->
  fst (__clear_table db_execute db_commit "customers" w) = Ok true ->
  let out := update_customer_data db_execute db_commit db_fetchall w in
  (exists e', fst out = Raise e')
  /\ exists rest,
       emitted w (snd out)
       = EvExecute "TRUNCATE TABLE [dbo].[customers]" (Truncate "customers")
         :: EvCommit :: rest
       /\ Forall (fun ev =>
                    match ev with
                    | EvExecute _ (InsertBlock table _ _) =>
                        table = "customers"
                    | EvCommit => True
                    | _ => False
                    end) rest.
Proof.
  intros Hin Hbad Hclear out; subst out.
  rewrite update_customer_data_eq.
  destruct (clear_table_true "customers" w Hclear) as [Ht Hc].
  destruct (__clear_table db_execute db_commit "customers" w)
    as [r w1]; simpl in Hclear, Ht, Hc; subst r.
  cbv zeta.
  set (results := map (fun customer_object =>
                         gathered (__format_customer_insert_data
                                     customer_object)) (customers w)).
  assert (Hexc : In (ExcObj e) results).
  { apply in_map_iff; exists customer; split; [now rewrite Hbad | exact Hin]. }
  replace (0 <? Z.of_nat (length results)) with true.
  2:{ symmetry; apply Z.ltb_lt.
      destruct results; [destruct Hexc | simpl; lia]. }
  set (Q := fun ev =>
              match ev with
              | EvExecute _ (InsertBlock table _ _) => table = "customers"
              | EvCommit => True
              | _ => False
              end).
  pose proof (insert_data_to_table_batch_emits db_execute db_commit Q
                "customers" results 250
                ltac:(intros; reflexivity) I w1) as (rest & Hrest & HQ).
  pose proof (insert_data_to_table_batch_quiet db_execute db_commit
                "customers" results 250 w1) as Hquiet.
  assert (Hraise : exists e',
             fst (insert_data_to_table_batch db_execute db_commit
                    "customers" results 250 w1) = Raise e').
  { rewrite insert_data_to_table_batch_eq.
    destruct results as [|[d|e0] results'] eqn:Eres; [destruct Hexc | |];
      cbn [first]; [|simpl; eauto].
    assert (Hk : keys d = ["contextid"; "customer"; "status"; "stackid"]).
    { subst results; destruct (customers w) as [|c0 cs]; [discriminate |].
      injection Eres as Hd _.
      destruct (__format_customer_insert_data c0) as [d0|] eqn:E0;
        [|discriminate Hd].
      injection Hd as <-; now apply format_customer_keys with c0. }
    destruct (batch_loop_exception "customers" (keys d)
                (batch_column_insert (keys d)) 250 e
                (Dict d :: results') Hexc
                ltac:(exists "contextid"; rewrite Hk; split;
                      [now left | reflexivity])
                (insert_head "customers"
                   (join "," (batch_column_insert (keys d))) +:+ CRLF)
                0 [] w1) as [e' He'].
    destruct (batch_loop _ _ _ _ _ _ _ _ _ _ w1) as [[x|e0] wb];
      simpl in He'; [discriminate He' | simpl; eauto]. }
  destruct Hraise as [e' He'].
  destruct (insert_data_to_table_batch db_execute db_commit "customers"
              results 250 w1) as [r wb] eqn:Eb; simpl in *; subst r.
  rewrite (raise_through _ _ _ _ _ _ _ Eb)
    by (intros ->; now apply Hquiet).
  split; [simpl; eauto |].
  exists rest; split; [|exact HQ].
  apply emitted_app; simpl; rewrite Hrest, Ht, <- app_assoc; reflexivity.
Qed.

End CustomerEdges.

Lemma no_customers_only_clears_witness :
  customers Scenario.nod_world = []
  /\ update_customer_data Scenario.nod_execute Scenario.nod_commit
       Scenario.nod_fetchall Scenario.nod_world
     = (Ok tt,
        set_trace
          [EvExecute "TRUNCATE TABLE [dbo].[customers]"
             (Truncate "customers"); EvCommit] Scenario.nod_world).
Proof.
  split; [reflexivity |].
  pose proof (no_customers_only_clears Scenario.nod_execute
                Scenario.nod_commit Scenario.nod_fetchall Scenario.nod_world
                eq_refl eq_refl) as [H _].
  vm_compute in H |- *; reflexivity.
Defined.

Lemma unformattable_customer_stops_after_clearing_witness :
  __format_customer_insert_data nameless_customer = Raise (KeyError "NAME")
  /\ exists e',
       fst (update_customer_data Scenario.nod_execute Scenario.nod_commit
              Scenario.nod_fetchall nameless_customer_world) = Raise e'.
Proof.
  split; [reflexivity |].
  exact (proj1 (unformattable_customer_stops_after_clearing
                  Scenario.nod_execute Scenario.nod_commit
                  Scenario.nod_fetchall nameless_customer_world
                  nameless_customer (KeyError "NAME")
                  (or_introl eq_refl) eq_refl eq_refl)).
Defined.


(** ** The rows of a fabric pass *)

Lemma getitem_setitem_ne {V} (d : dict V) (k k' : string) (v : V) :
  k <> k' -> getitem (setitem d k' v) k = getitem d k.
Proof. intros H; unfold getitem; now rewrite lookup_key_setitem_ne. Qed.

Lemma getitem_classified (o o' : dict pyval) (k : string) :
  k <> "entitytype" ->
  classify_entitytype o = Ok o' -> getitem o' k = getitem o k.
Proof.
  intros Hk; unfold classify_entitytype; intros H.
  bind_ok H.
  repeat match type of H with
         | (if ?b then _ else _) = _ => destruct b
         end;
    injection H as <-;
    (reflexivity || now apply getitem_setitem_ne).
Qed.

Lemma format_activezones_cons (cache : gmap string (list row))
    (runid entity_id zone_name : string) (rest : list string) :
  format_activezones cache runid entity_id (zone_name :: rest)
  = let* rows := getattr cache "zone" in
    let* zone_id_table := search_rows "name" zone_name rows in
    let* found := first zone_id_table in
    let* zone_id := getitem found "ID" in
    let* others := format_activezones cache runid entity_id rest in
    Ok ([("runid", runid); ("sannaventityid", entity_id);
         ("zoneid", zone_id)] :: others).
Proof. reflexivity. Qed.

Lemma format_activezones_rows (cache : gmap string (list row))
    (runid entity_id : string) (zones : list string) :
  forall rows,
    format_activezones cache runid entity_id zones = Ok rows ->
    Forall2
      (fun (zone_name : string) (activezones_formatted : row) =>
         exists zone_id,
           activezones_formatted
           = [("runid", runid); ("sannaventityid", entity_id);
              ("zoneid", zone_id)])
      zones rows.
Proof.
  induction zones as [|z zones IH]; intros rows H.
  - injection H as <-; constructor.
  - rewrite format_activezones_cons in H.
    repeat bind_ok H; injection H as <-.
    constructor; [eauto | now apply (IH _ eq_refl)].
Qed.

Lemma format_row_of_record (cache : gmap string (list row))
    (o : dict pyval) (runid : string) (f : formated_records) :
  snd (__format_sannav_insert_data cache o runid) = Ok f ->
  row_of_record runid o f.
Proof.
  intros H; unfold __format_sannav_insert_data in H.
  destruct (classify_entitytype o) as [o'|] eqn:Hcl; [|discriminate H].
  unfold format_classified in H.
  destruct (resolve_device o') as [device|]; [|discriminate H].
  destruct (text_field o' "remoteNodeWwn") as [wwn|]; [|discriminate H].
  cbn [snd] in H.
  set (o2 := if String.eqb wwn EmptyString
             then setitem o' "remoteNodeWwn" (PyStr "none") else o') in *.
  assert (Hid : text_field o2 "id" = text_field o "id").
  { rewrite <- (text_field_classified o o' "id" ltac:(discriminate) Hcl).
    subst o2; destruct (String.eqb wwn EmptyString); [|reflexivity].
    apply text_field_setitem; discriminate. }
  assert (Hz : getitem o2 "activeZones" = getitem o "activeZones").
  { rewrite <- (getitem_classified o o' "activeZones"
                  ltac:(discriminate) Hcl).
    subst o2; destruct (String.eqb wwn EmptyString); [|reflexivity].
    apply getitem_setitem_ne; discriminate. }
  destruct (text_field o2 "id") as [id|] eqn:Eid; [|discriminate H].
  cbn [bind] in H.
  repeat bind_ok H.
  injection H as <-.
  assert (Hk1 : Forall (fun t => source_label t +:+ "id" <> "runid")
                  sannav_common_id_tables)
    by (repeat constructor; vm_compute; discriminate).
  assert (Hk2 : Forall (fun t => source_label t +:+ "id" <> "id")
                  sannav_common_id_tables)
    by (repeat constructor; vm_compute; discriminate).
  match goal with
  | E : resolve_id_columns _ _ _ _ = Ok ?sdf,
    Ez : getitem o2 "activeZones" = Ok ?zones,
    Ee : getitem ?sdf "id" = Ok ?entity_id,
    Ea : format_activezones _ _ _ _ = Ok ?azs |- _ =>
      pose proof (resolve_id_columns_keeps _ _ _ _ Hk1 _ _ E) as H1;
      pose proof (resolve_id_columns_keeps _ _ _ _ Hk2 _ _ E) as H2;
      apply getitem_Ok in Ee; rewrite H2 in Ee; cbn in Ee;
      injection Ee as <-;
      exists id, zones; cbn [formated_sannav formated_activezones];
      repeat split;
      [ now rewrite <- Hid | now rewrite <- Hz | rewrite H1; reflexivity
      | rewrite H2; reflexivity | now apply format_activezones_rows with cache ]
  end.
Qed.

Lemma subscript_all_Forall2 (results : list (result formated_records)) :
  forall formatted,
    subscript_all results = Ok formatted ->
    Forall2 (fun r f => r = Ok f) results formatted.
Proof.
  induction results as [|r results IH]; intros formatted H; simpl in H.
  - injection H as <-; constructor.
  - destruct r as [d|e]; [|discriminate H].
    bind_ok H; injection H as <-.
    constructor; [reflexivity | now apply IH].
Qed.

Section FabricRows.

Context {St : Type}.
Variable db_execute : sql -> St -> result unit * St.
Variable db_commit : St -> result unit * St.
Variable db_fetchall : sql -> St -> result (list row) * St.

Local Abbreviation W := (World St).

(** X9: when the row-building part of the fabric pass returns, it
    returns one entry for each fetched switchport record, in their
    order, all under one run identifier: the entity row of a record
    carries that run and the record's own [id], and the record's active
    zones give one active-zone row each, in their order, carrying the
    run and the [id] of the entity. *)
Theorem fabric_rows_match_the_records (w1 w2 : W)
    (formatted : list formated_records) :
  build_fabric_rows db_execute db_commit db_fetchall w1
  = (Ok formatted, w2) ->
  exists runid, Forall2 (row_of_record runid) (sannav w1) formatted.
Proof.
  intros Hbuild; unfold build_fabric_rows in Hbuild.
  apply mbind_Ok in Hbuild as (runs & wr & Hrun & Hbuild).
  unfold mbind at 1, lift at 1 in Hbuild.
  destruct (first runs) as [first_run|e]; [|discriminate Hbuild].
  unfold mbind at 1, lift at 1 in Hbuild.
  destruct (getitem first_run "ID") as [runid|e]; [|discriminate Hbuild].
  unfold mbind at 1, __sannav_lookup_async in Hbuild.
  cbn [fst snd] in Hbuild; unfold lift in Hbuild.
  injection Hbuild as Hsub Hw2.
  pose proof (get_runid_kept db_execute db_commit db_fetchall w1) as Hk.
  rewrite Hrun in Hk; cbn [fst snd continues] in Hk.
  destruct Hk as (_ & _ & Hsr).
  exists runid.
  apply subscript_all_Forall2 in Hsub.
  rewrite Hsr, !Forall2_fmap_l in Hsub.
  eapply Forall2_impl; [exact Hsub |].
  intros o f Hf; simpl in Hf.
  now apply format_row_of_record with (tables_cache wr).
Qed.

End FabricRows.

Lemma fabric_rows_match_the_records_witness :
  exists runid,
    Forall2 (row_of_record runid) (sannav fabric_resolved)
      [Scenario.sw9_row].
Proof.
  assert (H : fst (build_fabric_rows TableStore.execute TableStore.commit
                     TableStore.fetchall fabric_resolved)
              = Ok [Scenario.sw9_row]) by (vm_compute; reflexivity).
  exact (fabric_rows_match_the_records TableStore.execute TableStore.commit
           TableStore.fetchall fabric_resolved _ [Scenario.sw9_row]
           (result_pair _ _ H)).
Defined.


(** ** The run of a fabric pass *)

(** What the single-row builder makes of a record with distinct keys. *)
Lemma insert_columns_values_built (record_dict : row) :
  List.NoDup (keys record_dict) ->
  exists d',
    insert_columns_values (keys record_dict) record_dict [] []
    = Ok (batch_column_insert (keys record_dict),
          map (fun c => "'" +:+ double_apostrophes (value_of record_dict c)
                        +:+ "'")
              (filter (fun c => column_written c = true)
                      (keys record_dict)),
          d').
Proof.
  intros Hnd.
  destruct (insert_columns_values_own_keys (keys record_dict) record_dict
              [] []) as [[[ci vi] d'] Hb]; [auto |].
  pose proof (insert_columns_values_shape _ _ _ _ _ _ _ Hb) as [-> _].
  pose proof (insert_columns_values_doubled _ Hnd _ _ _ _ _ _ Hb) as ->.
  exists d'; exact Hb.
Qed.

Lemma mbind_eq {W A B} (c : M W A) (k : A -> M W B) (w : W) :
  mbind c k w
  = match c w with
    | (Ok a, w') => k a w'
    | (Raise e, w') => (Raise e, w')
    end.
Proof. reflexivity. Qed.

Lemma try_except_Ok {W A} (c h : M W A) (w w' : W) (a : A) :
  c w = (Ok a, w') -> try_except c h w = (Ok a, w').
Proof. intros H; unfold try_except; now rewrite H. Qed.

Section RunOfAPass.

Context {St : Type}.
Variable db_execute : sql -> St -> result unit * St.
Variable db_commit : St -> result unit * St.
Variable db_fetchall : sql -> St -> result (list row) * St.
Hypothesis Hwarn : warns_only db_execute db_commit.
Hypothesis Hanswer : answering db_fetchall.

Local Abbreviation W := (World St).

(** On a store that only warns the single-row writer returns, having
    sent its statement. *)
Lemma insert_warned (table_name : string) (record_dict : row) (w : W) :
  List.NoDup (keys record_dict) ->
  exists w' evs,
    insert_data_to_table db_execute db_commit table_name record_dict w
    = (Ok tt, w')
    /\ trace w' = trace w ++ evs
    /\ statements evs
       = [Insert table_name (batch_column_insert (keys record_dict))
            (map (fun c => "'" +:+ double_apostrophes
                             (value_of record_dict c) +:+ "'")
                 (filter (fun c => column_written c = true)
                         (keys record_dict)))].
Proof.
  intros Hnd; unfold insert_data_to_table.
  destruct (insert_columns_values_built record_dict Hnd) as [d' Hb].
  rewrite mbind_eq; unfold lift at 1; rewrite Hb; cbn [fst snd].
  apply (flush_warned db_execute db_commit Hwarn).
Qed.

Lemma fetch_answered (q : sql) (w : W) :
  exists rows w',
    cursor_fetchall db_fetchall q w = (Ok rows, w')
    /\ trace w' = trace w ++ [EvExecute (statement_text q) q].
Proof.
  destruct (Hanswer q (conn w)) as [rows Hrows].
  unfold cursor_fetchall, mbind, log; simpl.
  destruct (db_fetchall q (conn w)) as [r s]; simpl in Hrows; subst r.
  exists rows; eexists; split; reflexivity.
Qed.


End RunOfAPass.



(** ** New reference rows *)

Section ReferenceNames.

Context {St : Type}.
Variable db_execute : sql -> St -> result unit * St.
Variable db_commit : St -> result unit * St.
Variable db_fetchall : sql -> St -> result (list row) * St.
Variable set_iteration : list string -> list string.
Variable target : string.
Variable rows0 : list row.

Local Abbreviation W := (World St).

Lemma new_names_refl (w : W) : new_names_only target rows0 w w.
Proof. intros H; split; [apply emits_only_refl | exact H]. Qed.

Lemma new_names_trans (a b c : W) :
  new_names_only target rows0 a b -> new_names_only target rows0 b c ->
  new_names_only target rows0 a c.
Proof.
  intros H1 H2 Ha; destruct (H1 Ha) as [E1 Hb].
  destruct (H2 Hb) as [E2 Hc]; split; [|exact Hc].
  eapply emits_only_trans; eassumption.
Qed.

Lemma flush_keeps_cache (text : string) (q : sql) (w : W) :
  tables_cache
    (snd (try_except
            (cursor_execute db_execute text q ;; conn_commit db_commit)
            (ret tt) w))
  = tables_cache w.
Proof.
  unfold try_except, mbind, cursor_execute, conn_commit, mbind, log; simpl.
  destruct (db_execute q (conn w)) as [[[]|e] s]; simpl.
  - destruct (db_commit s) as [[[]|e] s']; simpl;
      [| destruct e; simpl]; reflexivity.
  - destruct e; reflexivity.
Qed.

Lemma search_cache_run (table key value : string) (w : W) :
  search_cache table key value w
  = (match tables_cache w !! table with
     | Some rows => search_rows key value rows
     | None => Raise (AttributeError table)
     end,
     set_trace (trace w ++ [EvLookup table]) w).
Proof.
  unfold search_cache, cached, mbind, log, lift; simpl.
  destruct (tables_cache w !! table); reflexivity.
Qed.

Lemma insert_missing_name_new (record : string) :
  keeps (new_names_only target rows0)
    (insert_missing_name db_execute db_commit target record).
Proof.
  intros w Hc; unfold insert_missing_name.
  rewrite mbind_eq, search_cache_run, Hc.
  set (w1 := set_trace (trace w ++ [EvLookup target]) w).
  assert (Hlook : emits_only (inserts_new_name target rows0) w w1)
    by (exists [EvLookup target]; split;
        [reflexivity | repeat constructor]).
  destruct (search_rows "name" record rows0) as [[|found rest]|e] eqn:Hs;
    cbn [snd ret]; try (split; [exact Hlook | exact Hc]).
  unfold insert_data_to_table; rewrite !mbind_eq; unfold lift.
  destruct (insert_name_values record) as [d' ->]; cbn [fst snd].
  assert (Hq : inserts_new_name target rows0
                 (EvExecute
                    (statement_text
                       (Insert target ["[name]"]
                          ["'" +:+ double_apostrophes record +:+ "'"]))
                    (Insert target ["[name]"]
                       ["'" +:+ double_apostrophes record +:+ "'"])))
    by (repeat split; eauto).
  pose proof (emits_flush db_execute db_commit
                (inserts_new_name target rows0) _ _ Hq I w1) as Hf.
  split; [eapply emits_only_trans; [exact Hlook | exact Hf] |].
  rewrite flush_keeps_cache; exact Hc.
Qed.

(** X11: one turn of the loop of the fabric pass over its reference
    tables never inserts a name its table is cached with: every
    single-row [INSERT] it sends adds to the table of that turn a row of
    the one column [name], for a name that no row of the table held in
    the cache when the turn began. *)
Theorem reference_turn_inserts_only_new_names (table : string) (w : W) :
  target = id_table_target table ->
  tables_cache w !! target = Some rows0 ->
  Forall (inserts_new_name target rows0)
    (emitted w
       (snd (update_id_table db_execute db_commit db_fetchall set_iteration
               table w))).
Proof.
  intros Htarget Hc; apply emits_only_emitted.
  assert (Hread : respects
                    (fun _ => emits_only (inserts_new_name target rows0))
                    (__read_sql_tables_to_cache db_fetchall target)).
  { eapply respects_read
      with (Q := inserts_new_name target rows0) (P := fun _ => True);
      solve [ intros; apply emits_only_refl
            | intros; eapply emits_only_trans; eassumption
            | intros; eexists [_]; split;
              [reflexivity | now constructor]
            | intros; now apply emits_only_same_trace
            | intros; exact I ]. }
  assert (Hloop : forall names w1,
             tables_cache w1 !! target = Some rows0 ->
             emits_only (inserts_new_name target rows0) w1
               (snd ((for_each names
                        (insert_missing_name db_execute db_commit target) ;;
                      __read_sql_tables_to_cache db_fetchall target) w1))).
  { intros names w1 Hc1; rewrite mbind_eq.
    pose proof (keeps_for_each (new_names_only target rows0) new_names_refl
                  new_names_trans names
                  (insert_missing_name db_execute db_commit target)
                  (fun x _ => insert_missing_name_new x) w1 Hc1)
      as [He Hc2].
    destruct (for_each names _ w1) as [[[]|e] w2]; cbn [snd] in *;
      [|exact He].
    eapply emits_only_trans; [exact He | apply (Hread w2)]. }
  unfold update_id_table, id_table_target in *.
  destruct (negb (String.eqb table "activeZones")); subst target.
  - rewrite mbind_eq; cbn [fst snd].
    rewrite mbind_eq; unfold lift at 1.
    destruct (source_values (id_table_source table) (sannav w))
      as [values|e]; [|apply emits_only_refl].
    now apply Hloop.
  - rewrite mbind_eq; cbv beta iota.
    eapply emits_only_trans; [|apply Hloop; exact Hc].
    apply emits_only_same_trace; reflexivity.
Qed.

End ReferenceNames.

Lemma reference_turn_inserts_only_new_names_witness :
  tables_cache Scenario.fabric_world !! "switch"
  = Some [[("ID", "5"); ("name", "sw1")]]
  /\ Forall (inserts_new_name "switch" [[("ID", "5"); ("name", "sw1")]])
       (emitted Scenario.fabric_world
          (snd (update_id_table TableStore.execute TableStore.commit
                  TableStore.fetchall Scenario.first_occurrences "switch"
                  Scenario.fabric_world))).
Proof.
  assert (H : tables_cache Scenario.fabric_world !! "switch"
              = Some [[("ID", "5"); ("name", "sw1")]])
    by (vm_compute; reflexivity).
  split; [exact H |].
  exact (reference_turn_inserts_only_new_names TableStore.execute
           TableStore.commit TableStore.fetchall Scenario.first_occurrences
           "switch" [[("ID", "5"); ("name", "sw1")]] "switch"
           Scenario.fabric_world eq_refl H).
Defined.


(** ** The webs of a webpool *)

Section WebsOfAWebpool.

Context {St : Type}.
Variable db_execute : sql -> St -> result unit * St.
Variable db_commit : St -> result unit * St.
Variable db_fetchall : sql -> St -> result (list row) * St.

Local Abbreviation W := (World St).

Lemma wow_refl (id : string) (w : W) : webs_of_webpool id w w.
Proof. split; [apply emits_only_refl | reflexivity]. Qed.

Lemma wow_trans (id : string) (a b c : W) :
  webs_of_webpool id a b -> webs_of_webpool id b c ->
  webs_of_webpool id a c.
Proof.
  intros [E1 C1] [E2 C2]; split;
    [eapply emits_only_trans; eassumption | congruence].
Qed.

Lemma wow_log (id : string) (e : event) (w : W) :
  inserts_web_of id e ->
  webs_of_webpool id w (set_trace (trace w ++ [e]) w).
Proof.
  intros H; split; [|reflexivity].
  exists [e]; split; [reflexivity | now constructor].
Qed.

Lemma wow_cache (id t : string) (rows : list row) (w : W) :
  t <> "webpools" ->
  webs_of_webpool id w
    (set_tables_cache (<[t:=rows]> (tables_cache w)) w).
Proof.
  intros H; split; [now apply emits_only_same_trace |].
  simpl; now apply lookup_insert_ne.
Qed.

(** Side conditions of the lemmas on relations, for the relation
    [webs_of_webpool]. *)
Ltac wow_side id :=
  solve [ intros; apply wow_refl
        | intros; eapply wow_trans; eassumption
        | intros; now apply wow_log
        | intros; now apply wow_cache
        | intros; split; [now apply emits_only_same_trace | reflexivity]
        | intros; exact I
        | intros; discriminate
        | intros ? ? ? ?; discriminate ].

Lemma read_webs_of (id : string) :
  keeps (webs_of_webpool id)
    (__read_sql_tables_to_cache db_fetchall "webs").
Proof.
  change (respects (fun _ => webs_of_webpool id)
            (__read_sql_tables_to_cache db_fetchall "webs")).
  eapply respects_read
    with (Q := inserts_web_of id) (P := fun t => t <> "webpools");
    wow_side id.
Qed.

Lemma update_web_of (id web : string) :
  keeps (webs_of_webpool id) (update_web db_execute db_commit id web).
Proof.
  intros w; unfold update_web.
  rewrite mbind_eq, search_cache_run.
  set (w1 := set_trace (trace w ++ [EvLookup "webs"]) w).
  assert (Hlook : webs_of_webpool id w w1) by (now apply wow_log).
  destruct (match tables_cache w !! "webs" with
            | Some rows => search_rows "name" web rows
            | None => Raise (AttributeError "webs")
            end) as [[|found rest]|e]; cbn [snd ret]; try exact Hlook.
  rewrite try_except_quiet by apply insert_data_to_table_quiet.
  unfold insert_data_to_table; rewrite mbind_eq; unfold lift.
  destruct (insert_columns_values_built [("name", web); ("webpoolid", id)])
    as [d' ->]; [repeat constructor; simpl; intuition discriminate |].
  cbn [fst snd].
  eapply wow_trans; [exact Hlook |]; split.
  - apply emits_flush; [|exact I].
    intros _; split; [reflexivity | exists web; reflexivity].
  - now rewrite flush_keeps_cache.
Qed.

(** The webpool of a record is looked up, or inserted and looked up
    again; no web is inserted meanwhile. *)
Lemma webpool_resolved (name : string) (record_dict : row)
    (l : list row) (w wl w3 : W) (webpoolid : string) :
  search_cache "webpools" "name" name w = (Ok l, wl) ->
  match l with
  | found :: _ => lift (getitem found "ID")
  | [] =>
      try_except
        (insert_data_to_table db_execute db_commit "webpools" record_dict ;;
         __read_sql_tables_to_cache db_fetchall "webpools")
        (ret tt) ;;
      let! search_webpools_table := search_cache "webpools" "name" name in
      let! found := lift (first search_webpools_table) in
      lift (getitem found "ID")
  end wl = (Ok webpoolid, w3) ->
  emits_only (inserts_web_of webpoolid) w w3
  /\ exists rows found rest,
       tables_cache w3 !! "webpools" = Some rows
       /\ search_rows "name" name rows = Ok (found :: rest)
       /\ getitem found "ID" = Ok webpoolid.
Proof.
  intros Hs Hid.
  assert (Hfound : forall (w0 w0' : W) l0,
             search_cache "webpools" "name" name w0 = (Ok l0, w0') ->
             emits_only (inserts_web_of webpoolid) w0 w0'
             /\ exists rows,
                  tables_cache w0' !! "webpools" = Some rows
                  /\ search_rows "name" name rows = Ok l0).
  { intros w0 w0' l0 H0; rewrite search_cache_run in H0.
    injection H0 as H0 <-.
    split; [exists [EvLookup "webpools"]; split;
            [reflexivity | repeat constructor] |].
    cbn [tables_cache set_trace].
    destruct (tables_cache w0 !! "webpools") as [rows|];
      [eauto | discriminate H0]. }
  destruct (Hfound _ _ _ Hs) as (He & rows & Hc & Hr).
  destruct l as [|found rest].
  - apply mbind_Ok in Hid as ([] & w2 & Hins & Hid).
    apply mbind_Ok in Hid as (l2 & w2' & Hs2 & Hid).
    apply mbind_Ok in Hid as (found & w2'' & Hf & Hid).
    unfold lift in Hf, Hid; injection Hf as Hf <-; injection Hid as Hid <-.
    destruct (Hfound _ _ _ Hs2) as (He2 & rows2 & Hc2 & Hr2).
    destruct l2 as [|f2 rest2]; [discriminate Hf |].
    injection Hf as ->.
    split; [|eauto 6].
    eapply emits_only_trans; [exact He |].
    eapply emits_only_trans; [|exact He2].
    assert (Hwr : respects (fun _ => emits_only (inserts_web_of webpoolid))
                    (try_except
                       (insert_data_to_table db_execute db_commit
                          "webpools" record_dict ;;
                        __read_sql_tables_to_cache db_fetchall "webpools")
                       (ret tt))).
    { eapply respects_write_then_read
        with (Q := inserts_web_of webpoolid) (P := fun _ => True);
        solve [ intros; apply emits_only_refl
              | intros; eapply emits_only_trans; eassumption
              | intros; eexists [_]; split;
                [reflexivity | now constructor]
              | intros; now apply emits_only_same_trace
              | intros; exact I
              | intros ? ? ? ?; discriminate ]. }
    specialize (Hwr wl); rewrite Hins in Hwr; exact Hwr.
  - unfold lift in Hid; injection Hid as Hid <-.
    split; [exact He | eauto 6].
Qed.

(** X12: when the turn of the stack pass for one webpool of a record
    returns, the cache holds a webpool of the record's name for that
    webpool, and every web the turn inserted was given, as its webpool,
    the [ID] of the first cached webpool of that name. *)
Theorem webs_reference_the_cached_webpool (record : row)
    (location : string) (w : W) :
  let out :=
    update_webpool db_execute db_commit db_fetchall record location w in
  fst out = Ok tt ->
  exists name rows found rest webpoolid,
    getitem record (location +:+ "_webpool_name") = Ok name
    /\ tables_cache (snd out) !! "webpools" = Some rows
    /\ search_rows "name" name rows = Ok (found :: rest)
    /\ getitem found "ID" = Ok webpoolid
    /\ Forall (inserts_web_of webpoolid) (emitted w (snd out)).
Proof.
  intros out Hout; subst out.
  destruct (update_webpool db_execute db_commit db_fetchall record location
              w) as [r w'] eqn:Hrun.
  cbn [fst snd] in *; subst r.
  unfold update_webpool in Hrun.
  apply mbind_Ok in Hrun as (name & w0 & Hname & Hrun).
  unfold lift in Hname; injection Hname as Hname <-.
  apply mbind_Ok in Hrun as (stack & w0 & Hstack & Hrun).
  unfold lift in Hstack; injection Hstack as Hstack <-.
  apply mbind_Ok in Hrun as (l & wl & Hs & Hrun).
  apply mbind_Ok in Hrun as (webpoolid & w3 & Hid & Hrun).
  apply mbind_Ok in Hrun as (webs & w0 & Hwebs & Hrun).
  unfold lift in Hwebs; injection Hwebs as Hwebs <-.
  destruct (webpool_resolved name _ l w wl w3 webpoolid Hs Hid)
    as (He & rows & found & rest & Hc & Hr & Hf).
  exists name, rows, found, rest, webpoolid.
  pose proof (keeps_bind (webs_of_webpool webpoolid)
                (wow_trans webpoolid)
                (for_each (split_comma webs)
                   (update_web db_execute db_commit webpoolid))
                (fun _ => __read_sql_tables_to_cache db_fetchall "webs")
                (keeps_for_each (webs_of_webpool webpoolid)
                   (wow_refl webpoolid) (wow_trans webpoolid) _ _
                   (fun x _ => update_web_of webpoolid x))
                (fun _ => read_webs_of webpoolid) w3) as [He2 Hc2].
  rewrite Hrun in He2, Hc2; cbn [snd] in He2, Hc2.
  repeat split; auto.
  - now rewrite Hc2.
  - apply emits_only_emitted.
    eapply emits_only_trans; eassumption.
Qed.

End WebsOfAWebpool.

Lemma webs_reference_the_cached_webpool_witness :
  fst (update_webpool TableStore.execute TableStore.commit
         TableStore.fetchall (Scenario.stack_record "S1" "B") "prod"
         Scenario.s1_new) = Ok tt
  /\ exists name rows found rest webpoolid,
       getitem (Scenario.stack_record "S1" "B") ("prod" +:+ "_webpool_name")
       = Ok name
       /\ tables_cache
            (snd (update_webpool TableStore.execute TableStore.commit
                    TableStore.fetchall (Scenario.stack_record "S1" "B")
                    "prod" Scenario.s1_new)) !! "webpools" = Some rows
       /\ search_rows "name" name rows = Ok (found :: rest)
       /\ getitem found "ID" = Ok webpoolid
       /\ Forall (inserts_web_of webpoolid)
            (emitted Scenario.s1_new
               (snd (update_webpool TableStore.execute TableStore.commit
                       TableStore.fetchall (Scenario.stack_record "S1" "B")
                       "prod" Scenario.s1_new))).
Proof.
  assert (H : fst (update_webpool TableStore.execute TableStore.commit
                     TableStore.fetchall (Scenario.stack_record "S1" "B")
                     "prod" Scenario.s1_new) = Ok tt)
    by (vm_compute; reflexivity).
  split; [exact H |].
  exact (webs_reference_the_cached_webpool TableStore.execute
           TableStore.commit TableStore.fetchall
           (Scenario.stack_record "S1" "B") "prod" Scenario.s1_new H).
Defined.


(** ** The output converters of the connection *)

(** X13: the converter of [DATETIMEOFFSET] values gives a text for a
    buffer of 20 bytes only, and the text does not tell the offset: two
    values with the same first 16 bytes, the date, the time and its
    fraction, are given the same text whatever their last four bytes,
    the hours and minutes of the offset. *)
Theorem datetimeoffset_text_drops_the_offset
    (value offset offset' : list Byte.byte) :
  length value = 16%nat -> length offset = 4%nat ->
  length offset' = 4%nat ->
  (exists text, __handle_datetimeoffset (value ++ offset) = Some text)
  /\ __handle_datetimeoffset (value ++ offset)
     = __handle_datetimeoffset (value ++ offset')
  /\ forall buffer,
       length buffer <> 20%nat -> __handle_datetimeoffset buffer = None.
Proof.
  intros Hv Ho Ho'.
  assert (Hshort : forall buffer,
             length buffer <> 20%nat ->
             __handle_datetimeoffset buffer = None).
  { intros buffer Hb; unfold __handle_datetimeoffset, unpack_6hI2h.
    now destruct (Nat.eqb_spec (length buffer) 20). }
  repeat (destruct value as [|? value]; [discriminate Hv |]).
  destruct value; [|discriminate Hv].
  repeat (destruct offset as [|? offset]; [discriminate Ho |]).
  destruct offset; [|discriminate Ho].
  repeat (destruct offset' as [|? offset']; [discriminate Ho' |]).
  destruct offset'; [|discriminate Ho'].
  split; [eexists; reflexivity | split; [reflexivity | exact Hshort]].
Qed.

Lemma datetimeoffset_text_drops_the_offset_witness :
  __handle_datetimeoffset
    (packed_second_of_january ++ [Byte.x01; Byte.x00; Byte.x00; Byte.x00])
  = Some "2024-1-2 +        3:4:5.6"
  /\ __handle_datetimeoffset
       (packed_second_of_january ++ [Byte.x01; Byte.x00; Byte.x00; Byte.x00])
     = __handle_datetimeoffset
         (packed_second_of_january
          ++ [Byte.xfb; Byte.xff; Byte.x1e; Byte.x00]).
Proof.
  split; [vm_compute; reflexivity |].
  exact (proj1 (proj2 (datetimeoffset_text_drops_the_offset
                         packed_second_of_january
                         [Byte.x01; Byte.x00; Byte.x00; Byte.x00]
                         [Byte.xfb; Byte.xff; Byte.x1e; Byte.x00]
                         eq_refl eq_refl eq_refl))).
Defined.


(** ** Connecting *)

(** X14: the credentials reach the driver only together.  When the user
    name or the password is empty, the text handed to [pyodbc.connect]
    asks for a trusted connection and holds neither of them, whatever the
    other one is, and [__connect_ms_sql] then does what it does without
    credentials. *)
Theorem blank_credential_is_never_sent {St : Type}
    (pyodbc_connect : string -> result St)
    (username password db_server database driver trust_certificates
       : string) :
  username = EmptyString \/ password = EmptyString ->
  connect_str username password db_server database driver
    trust_certificates
  = "Driver=" +:+ driver +:+ ";Server=" +:+ db_server
    +:+ ";Database=" +:+ database
    +:+ ";Trusted_Connection=yes;TrustServerCertificate="
    +:+ trust_certificates
  /\ __connect_ms_sql pyodbc_connect username password db_server database
       driver trust_certificates
     = __connect_ms_sql pyodbc_connect EmptyString EmptyString db_server
         database driver trust_certificates.
Proof.
  intros H.
  assert (Hs : connect_str username password db_server database driver
                 trust_certificates
               = connect_str EmptyString EmptyString db_server database
                   driver trust_certificates).
  { unfold connect_str.
    replace (String.eqb username EmptyString
             || String.eqb password EmptyString) with true; [reflexivity |].
    destruct H as [-> | ->]; simpl; [reflexivity |].
    now rewrite orb_true_r. }
  split; [rewrite Hs; reflexivity |].
  unfold __connect_ms_sql; now rewrite Hs.
Qed.

Lemma blank_credential_is_never_sent_witness :
  connect_str "svc-scout" EmptyString "db1" "storagetooling" "{ODBC}" "yes"
  = "Driver={ODBC};Server=db1;Database=storagetooling;Trusted_Connection=yes;TrustServerCertificate=yes".
Proof.
  exact (proj1 (blank_credential_is_never_sent
                  (fun _ : string => Ok tt) "svc-scout" EmptyString "db1"
                  "storagetooling" "{ODBC}" "yes" (or_intror eq_refl))).
Defined.

(** ** The job and its passes *)

Lemma emits_only_impl {St} (Q Q' : event -> Prop) (w w' : World St) :
  (forall ev, Q ev -> Q' ev) -> emits_only Q w w' -> emits_only Q' w w'.
Proof.
  intros H (evs & Ht & HQ); exists evs; split; [exact Ht |].
  eapply List.Forall_impl; [exact H | exact HQ].
Qed.

Lemma writes_within_incl (allowed allowed' : list write) (ev : event) :
  (forall wr, In wr allowed -> In wr allowed') ->
  writes_within allowed ev -> writes_within allowed' ev.
Proof.
  intros H; destruct ev as [text q| | |]; simpl; auto.
  destruct (write_of q); auto.
Qed.

Section JobEnds.

Context {St : Type}.
Variable pyodbc_connect : string -> result St.
Variable db_execute : sql -> St -> result unit * St.
Variable db_commit : St -> result unit * St.
Variable db_fetchall : sql -> St -> result (list row) * St.
Variable set_iteration : list string -> list string.
Variable get_all_storage_data : string -> bool -> M (World St) unit.

(** The store refuses to clear the customers table, and fetching the
    sources sends nothing over the connection. *)
Hypothesis Hrefuse :
  forall s, fst (db_execute (Truncate "customers") s) = Raise ResourceWarning.
Hypothesis Hsilent :
  forall sannav_password debug w,
    trace (snd (get_all_storage_data sannav_password debug w)) = trace w.

Local Abbreviation W := (World St).
Local Abbreviation Q := (writes_within writes_up_to_the_clearing).

Lemma clearing_refused (w : W) :
  fst (__clear_table db_execute db_commit "customers" w) = Ok false.
Proof.
  unfold __clear_table, try_except, mbind, cursor_execute, mbind, log;
    simpl.
  pose proof (Hrefuse (conn w)) as H.
  destruct (db_execute (Truncate "customers") (conn w)) as [r s];
    simpl in H; subst r; reflexivity.
Qed.

Lemma customer_pass_raises (w : W) :
  (exists e, fst (update_customer_data db_execute db_commit db_fetchall w)
             = Raise e)
  /\ emits_only Q w
       (snd (update_customer_data db_execute db_commit db_fetchall w)).
Proof.
  rewrite update_customer_data_eq.
  pose proof (clearing_refused w) as Hc.
  pose proof (clear_table_emits db_execute db_commit Q "customers"
                ltac:(simpl; tauto) I w) as He.
  destruct (__clear_table db_execute db_commit "customers" w) as [r w1];
    simpl in Hc, He; subst r.
  split; [eexists; reflexivity | exact He].
Qed.

(** What runs before a part that always raises does not make the whole
    return. *)
Lemma raises_after {A B} (c : M W A) (k : A -> M W B) :
  keeps (emits_only Q) c ->
  (forall a w, (exists e, fst (k a w) = Raise e)
               /\ emits_only Q w (snd (k a w))) ->
  forall w, (exists e, fst (mbind c k w) = Raise e)
            /\ emits_only Q w (snd (mbind c k w)).
Proof.
  intros Hc Hk w; rewrite mbind_eq; specialize (Hc w).
  destruct (c w) as [[a|e] w1]; cbn [snd] in Hc.
  - destruct (Hk a w1) as [Hr He]; split; [exact Hr |].
    eapply emits_only_trans; eassumption.
  - split; [eexists; reflexivity | exact Hc].
Qed.


End JobEnds.



(** ** Entity types *)

Lemma subscript_all_returned (results : list (result formated_records)) :
  forall formatted,
    subscript_all results = Ok formatted ->
    Forall (fun r => exists f, r = Ok f) results.
Proof.
  induction results as [|r results IH]; intros formatted H; simpl in H.
  - constructor.
  - destruct r as [d|e]; [|discriminate H].
    bind_ok H; constructor; [eauto | now apply (IH _ eq_refl)].
Qed.

(** A record whose entity type no cached row names is given no row. *)
Lemma format_needs_the_entity_type (cache : gmap string (list row))
    (o o' : dict pyval) (runid t : string) (rows : list row)
    (f : formated_records) :
  classify_entitytype o = Ok o' ->
  text_field o' "entitytype" = Ok t ->
  cache !! "entitytype" = Some rows ->
  search_rows "name" t rows = Ok [] ->
  snd (__format_sannav_insert_data cache o runid) <> Ok f.
Proof.
  intros Hcl Ht Hc Hs H.
  unfold __format_sannav_insert_data in H; rewrite Hcl in H.
  unfold format_classified in H.
  destruct (resolve_device o') as [device|]; [|discriminate H].
  destruct (text_field o' "remoteNodeWwn") as [wwn|]; [|discriminate H].
  cbn [snd] in H.
  set (o2 := if String.eqb wwn EmptyString
             then setitem o' "remoteNodeWwn" (PyStr "none") else o') in *.
  assert (Ht2 : text_field o2 "entitytype" = Ok t).
  { subst o2; destruct (String.eqb wwn EmptyString); [|exact Ht].
    rewrite text_field_setitem; [exact Ht | discriminate]. }
  do 6 bind_ok H.
  unfold sannav_common_id_tables in H.
  rewrite resolve_id_columns_cons in H.
  unfold getattr at 1 in H; rewrite Hc in H; cbn [bind] in H.
  change (source_label "entitytype") with "entitytype" in H.
  rewrite (search_by_field_text _ _ _ _ Ht2), Hs in H.
  discriminate H.
Qed.

Section EntityTypes.

Context {St : Type}.
Variable db_execute : sql -> St -> result unit * St.
Variable db_commit : St -> result unit * St.
Variable db_fetchall : sql -> St -> result (list row) * St.

Local Abbreviation W := (World St).

Lemma get_runid_keeps_cache_and_records :
  respects cache_and_records_kept
    (__get_runid db_execute db_commit db_fetchall).
Proof.
  eapply respects_get_runid with (Q := fun _ => True);
    solve [ intros; split; reflexivity
          | intros b x y z [H1 H2] [H3 H4]; split; congruence
          | intros; exact I ].
Qed.

(** Asking for a run begins by sending the [INSERT] of the run. *)
Lemma get_runid_opens_the_run (w : W) :
  exists text ci vi rest,
    trace (snd (__get_runid db_execute db_commit db_fetchall w))
    = trace w ++ EvExecute text (Insert "run" ci vi) :: rest.
Proof.
  unfold __get_runid; rewrite mbind_eq.
  destruct (__format_current_datetime w) as [r w0] eqn:Enow.
  assert (Hnow : exists now, r = Ok now /\ trace w0 = trace w).
  { unfold __format_current_datetime in Enow.
    destruct (clock w); injection Enow as <- <-; eauto. }
  destruct Hnow as (now & -> & Ht0).
  rewrite mbind_eq.
  rewrite try_except_quiet by apply insert_data_to_table_quiet.
  unfold insert_data_to_table at 1; rewrite mbind_eq; unfold lift at 1.
  destruct (insert_columns_values_built [("capturedatetime", now)])
    as [d' ->]; [repeat constructor; simpl; tauto |].
  cbn [fst snd].
  match goal with
  | |- context [try_except (cursor_execute db_execute ?text ?q ;; _) _ w0] =>
      pose proof (flush_trace db_execute db_commit text q w0) as Hf;
      destruct (try_except (cursor_execute db_execute text q ;;
                            conn_commit db_commit) (ret tt) w0)
        as [r1 w1];
      exists text
  end.
  cbn [snd] in Hf; do 2 eexists.
  destruct r1 as [[]|e].
  - pose proof (emits_try_except (fun _ => True) _ _
                  (emits_cursor_fetchall db_fetchall (fun _ => True)
                     (SelectRunId now) I)
                  (emits_raise (fun _ => True) (SystemExit EmptyString))
                  w1) as (evs & Hevs & _).
    destruct Hf as [Hf | Hf]; rewrite Hevs, Hf, Ht0, <- app_assoc;
      eexists; reflexivity.
  - cbn [snd]; destruct Hf as [Hf | Hf]; rewrite Hf, Ht0;
      eexists; reflexivity.
Qed.

(** X16: the fabric pass cannot make up an entity type.  When a fetched
    record is classified as an entity type that no row of the cached
    [entitytype] table names, building the rows raises, for all the
    records; and the run has been asked for by then, so its [INSERT] has
    been sent. *)
Theorem unknown_entity_type_stops_the_rows (w1 : W) (o o' : dict pyval)
    (t : string) (rows : list row) :
  In o (sannav w1) ->
  classify_entitytype o = Ok o' ->
  text_field o' "entitytype" = Ok t ->
  tables_cache w1 !! "entitytype" = Some rows ->
  search_rows "name" t rows = Ok [] ->
  let out := build_fabric_rows db_execute db_commit db_fetchall w1 in
  (exists e, fst out = Raise e)
  /\ exists text ci vi rest,
       emitted w1 (snd out) = EvExecute text (Insert "run" ci vi) :: rest.
Proof.
  intros Hin Hcl Ht Hc Hs out; subst out; split.
  - destruct (build_fabric_rows db_execute db_commit db_fetchall w1)
      as [[formatted|e] w2] eqn:Hbuild; [exfalso | simpl; eauto].
    unfold build_fabric_rows in Hbuild.
    apply mbind_Ok in Hbuild as (runs & wr & Hrun & Hbuild).
    unfold mbind at 1, lift at 1 in Hbuild.
    destruct (first runs) as [first_run|e]; [|discriminate Hbuild].
    unfold mbind at 1, lift at 1 in Hbuild.
    destruct (getitem first_run "ID") as [runid|e]; [|discriminate Hbuild].
    unfold mbind at 1, __sannav_lookup_async in Hbuild.
    cbn [fst snd] in Hbuild; unfold lift in Hbuild.
    injection Hbuild as Hsub Hw2.
    pose proof (get_runid_keeps_cache_and_records w1) as Hk.
    rewrite Hrun in Hk; cbn [fst snd continues] in Hk.
    destruct Hk as [Hck Hsk].
    apply subscript_all_returned in Hsub.
    rewrite Hsk, Hck, map_map in Hsub.
    apply (proj1 (List.Forall_forall _ _)) with
      (x := snd (__format_sannav_insert_data (tables_cache w1) o runid))
      in Hsub as [f Hf].
    + exact (format_needs_the_entity_type _ _ _ runid _ _ f Hcl Ht Hc Hs Hf).
    + apply in_map_iff; exists o; auto.
  - destruct (get_runid_opens_the_run w1) as (text & ci & vi & rest & Htr).
    exists text, ci, vi, rest; apply emitted_app.
    rewrite <- Htr; unfold build_fabric_rows.
    rewrite mbind_eq.
    destruct (__get_runid db_execute db_commit db_fetchall w1)
      as [[runs|e] wr]; [|reflexivity].
    rewrite mbind_eq; unfold lift at 1.
    destruct (first runs) as [first_run|e]; [|reflexivity].
    rewrite mbind_eq; unfold lift at 1.
    destruct (getitem first_run "ID") as [runid|e]; [|reflexivity].
    rewrite mbind_eq; unfold __sannav_lookup_async at 1.
    unfold lift; destruct (subscript_all _); reflexivity.
Qed.

End EntityTypes.

Lemma unknown_entity_type_stops_the_rows_witness :
  classify_entitytype Scenario.port_on_sw9
  = Ok (setitem Scenario.port_on_sw9 "entitytype" (PyStr "device"))
  /\ tables_cache no_entity_type_world !! "entitytype" = Some []
  /\ exists e,
       fst (build_fabric_rows Scenario.nod_execute Scenario.nod_commit
              Scenario.nod_fetchall no_entity_type_world) = Raise e.
Proof.
  assert (H1 : classify_entitytype Scenario.port_on_sw9
               = Ok (setitem Scenario.port_on_sw9 "entitytype"
                       (PyStr "device"))) by reflexivity.
  assert (H2 : tables_cache no_entity_type_world !! "entitytype" = Some [])
    by (vm_compute; reflexivity).
  split; [exact H1 | split; [exact H2 |]].
  exact (proj1 (unknown_entity_type_stops_the_rows Scenario.nod_execute
                  Scenario.nod_commit Scenario.nod_fetchall
                  no_entity_type_world Scenario.port_on_sw9
                  (setitem Scenario.port_on_sw9 "entitytype"
                     (PyStr "device"))
                  "device" [] (or_introl eq_refl) H1 eq_refl H2 eq_refl)).
Defined.


(** ** Defaults of a switchport record *)

Lemma has_key_setitem_eq {V} (d : dict V) (k : string) (v : V) :
  has_key k (setitem d k v) = true.
Proof. unfold has_key; now rewrite lookup_key_setitem_eq. Qed.

Lemma with_default_present (key : string) (value : pyval)
    (item : dict pyval) :
  has_key key (with_default key value item) = true.
Proof.
  unfold with_default; destruct (has_key key item) eqn:E; simpl;
    [exact E | apply has_key_setitem_eq].
Qed.

Lemma with_default_keeps (key : string) (value : pyval)
    (item : dict pyval) (k : string) (v : pyval) :
  lookup_key k item = Some v ->
  lookup_key k (with_default key value item) = Some v.
Proof.
  intros H; unfold with_default, has_key.
  destruct (lookup_key key item) eqn:E; simpl; [exact H |].
  rewrite lookup_key_setitem_ne; [exact H | congruence].
Qed.

Lemma with_default_other (key : string) (value : pyval)
    (item : dict pyval) (k : string) :
  k <> key ->
  lookup_key k (with_default key value item) = lookup_key k item.
Proof.
  intros H; unfold with_default; destruct (negb (has_key key item));
    [now apply lookup_key_setitem_ne | reflexivity].
Qed.

Lemma with_default_again (key : string) (value : pyval)
    (item : dict pyval) :
  has_key key item = true -> with_default key value item = item.
Proof. intros H; unfold with_default; now rewrite H. Qed.

Lemma has_key_with_default (key : string) (value : pyval)
    (item : dict pyval) (k : string) :
  has_key k item = true -> has_key k (with_default key value item) = true.
Proof.
  intros H; unfold has_key in H.
  destruct (lookup_key k item) as [v|] eqn:E; [|discriminate H].
  unfold has_key; now rewrite (with_default_keeps key value item k v E).
Qed.

Lemma fill_defaults_steps (item : dict pyval) :
  fill_defaults item
  = with_default "remoteNodeWwn" (PyStr "none")
      (with_default "activeZones" (PyList ["none"])
         (with_default "entitytype" (PyStr "none")
            (with_default "zoneAlias" (PyStr "none") item))).
Proof. reflexivity. Qed.

Lemma fill_defaults_keeps (item : dict pyval) (k : string) (v : pyval) :
  lookup_key k item = Some v -> lookup_key k (fill_defaults item) = Some v.
Proof.
  intros H; rewrite fill_defaults_steps.
  now do 4 apply with_default_keeps.
Qed.

Lemma fill_defaults_present (item : dict pyval) (k : string) :
  In k defaulted_attributes -> has_key k (fill_defaults item) = true.
Proof.
  rewrite fill_defaults_steps; simpl.
  intros [<- | [<- | [<- | [<- | []]]]];
    repeat first [ apply with_default_present | apply has_key_with_default ].
Qed.

Lemma fill_defaults_other (item : dict pyval) (k : string) :
  ~ In k defaulted_attributes ->
  lookup_key k (fill_defaults item) = lookup_key k item.
Proof.
  intros H; rewrite fill_defaults_steps.
  rewrite !with_default_other; [reflexivity | | | |];
    intros ->; apply H; simpl; tauto.
Qed.

Section Defaults.

Context {St : Type}.
Variable db_execute : sql -> St -> result unit * St.
Variable db_commit : St -> result unit * St.
Variable db_fetchall : sql -> St -> result (list row) * St.
Variable set_iteration : list string -> list string.

Local Abbreviation W := (World St).

Lemma update_id_table_keeps_records (table : string) :
  respects records_kept
    (update_id_table db_execute db_commit db_fetchall set_iteration table).
Proof.
  eapply respects_update_id_table
    with (Q := fun _ => True) (P := fun _ => True);
    solve [ intros; reflexivity
          | intros b x y z H1 H2; unfold records_kept in *; congruence
          | intros; exact I ].
Qed.

(** X17: however the reference part of the fabric pass ends, it leaves
    each fetched switchport record with the attributes [zoneAlias],
    [entitytype], [activeZones] and [remoteNodeWwn], every attribute a
    record came with at the value it came with, and no other attribute
    added; the records stay in their order. *)
Theorem reference_part_fills_the_defaults (w : W) :
  let w1 :=
    snd (resolve_reference_tables db_execute db_commit db_fetchall
           set_iteration w) in
  Forall2
    (fun fetched item =>
       (forall k v, lookup_key k fetched = Some v ->
                    lookup_key k item = Some v)
       /\ (forall k, In k defaulted_attributes -> has_key k item = true)
       /\ (forall k, ~ In k defaulted_attributes ->
                     lookup_key k item = lookup_key k fetched))
    (sannav w) (sannav w1).
Proof.
  intros w1; subst w1.
  assert (Hs : sannav (snd (resolve_reference_tables db_execute db_commit
                              db_fetchall set_iteration w))
               = map fill_defaults (sannav w)).
  { unfold resolve_reference_tables; rewrite mbind_eq.
    pose proof (respects_for_each records_kept
                  (fun _ _ => eq_refl)
                  (fun b x y z H1 H2 => eq_trans H2 H1)
                  ["activeZones"; "fabric"; "health"; "status"; "switch";
                   "zone"]
                  (update_id_table db_execute db_commit db_fetchall
                     set_iteration)
                  update_id_table_keeps_records
                  (set_sannav (map fill_defaults (sannav w)) w)) as Hk.
    exact Hk. }
  rewrite Hs; apply Forall2_fmap_r, Forall_Forall2_diag.
  apply List.Forall_forall; intros item _; repeat split.
  - apply fill_defaults_keeps.
  - apply fill_defaults_present.
  - apply fill_defaults_other.
Qed.

End Defaults.


(** ** A record written and read back *)

Lemma undouble_double (s : string) :
  TableStore.undouble (double_apostrophes s) = Some s.
Proof.
  induction s as [|c s IH]; [reflexivity |].
  simpl; destruct (Ascii.eqb c apostrophe) eqn:E.
  - apply eqb_apostrophe in E as ->.
    cbn [TableStore.undouble]; rewrite !Ascii.eqb_refl, IH; reflexivity.
  - cbn [TableStore.undouble]; rewrite E, IH; reflexivity.
Qed.

Lemma strip_ends_between (a b : ascii) (s : string) :
  TableStore.strip_ends
    (String a EmptyString +:+ s +:+ String b EmptyString) = s.
Proof.
  unfold TableStore.strip_ends.
  change (String a EmptyString +:+ s +:+ String b EmptyString)
    with (String a (s +:+ String b EmptyString)).
  cbn [String.length substring].
  rewrite length_append; simpl.
  replace (String.length s + 1 - 1)%nat with (String.length s) by lia.
  apply substring_0_length.
Qed.

Lemma literal_quoted (v : string) :
  TableStore.literal ("'" +:+ double_apostrophes v +:+ "'") = Ok v.
Proof.
  unfold TableStore.literal.
  rewrite (strip_ends_between "'" "'"), undouble_double; reflexivity.
Qed.

Lemma decode_row_written (d : row) (cols : list string) :
  TableStore.decode_row
    (map (fun c => "[" +:+ c +:+ "]") cols)
    (map (fun c => "'" +:+ double_apostrophes (value_of d c) +:+ "'") cols)
  = Ok (map (fun c => (c, value_of d c)) cols).
Proof.
  unfold TableStore.decode_row; rewrite !length_map, Nat.eqb_refl.
  assert (Hl : TableStore.literals
                 (map (fun c => "'" +:+ double_apostrophes (value_of d c)
                                +:+ "'") cols)
               = Ok (map (value_of d) cols)).
  { induction cols as [|c cols IH]; [reflexivity |].
    cbn [map TableStore.literals]; rewrite literal_quoted, IH; reflexivity. }
  rewrite Hl; cbn [bind]; f_equal; clear Hl.
  induction cols as [|c cols IH]; [reflexivity |].
  cbn [map combine]; rewrite (strip_ends_between "[" "]"), IH; reflexivity.
Qed.

(** X18: on the store of tables, the single-row writer and the reading
    of a table into the cache take a record there and back.  For a
    record with distinct keys the writer returns, the table gains one
    row, which holds the next identifier and, for each column of the
    record but [ID] and [datecreated], the value of the record as it
    was, apostrophes included; and reading the table into the cache
    leaves just the rows of the table there. *)
Theorem written_record_is_read_back (table_name : string)
    (record_dict : row) (w : World TableStore.t) :
  List.NoDup (keys record_dict) ->
  table_name <> "activezones" ->
  let written :=
    insert_data_to_table TableStore.execute TableStore.commit table_name
      record_dict w in
  let read :=
    __read_sql_tables_to_cache TableStore.fetchall table_name
      (snd written) in
  fst written = Ok tt
  /\ TableStore.rows_of table_name (conn (snd written))
     = TableStore.rows_of table_name (conn w)
       ++ [("ID", pretty (TableStore.next_id (conn w)))
           :: map (fun c => (c, value_of record_dict c))
                  (filter (fun c => column_written c = true)
                          (keys record_dict))]
  /\ fst read = Ok tt
  /\ tables_cache (snd read) !! table_name
     = Some (TableStore.rows_of table_name (conn (snd written))).
Proof.
  intros Hnd Hname written read; subst written read.
  unfold insert_data_to_table; rewrite mbind_eq; unfold lift at 1.
  destruct (insert_columns_values_built record_dict Hnd) as [d' ->].
  cbn [fst snd].
  unfold try_except at 1 2, mbind at 1 2, cursor_execute, conn_commit,
    mbind, log; simpl.
  unfold batch_column_insert; rewrite decode_row_written; simpl.
  split; [reflexivity | split].
  { now rewrite rows_of_append_rows. }
  unfold __read_sql_tables_to_cache.
  replace (negb (String.eqb table_name "activezones")) with true.
  2:{ symmetry; apply negb_true_iff, String.eqb_neq; exact Hname. }
  unfold mbind, try_except, cursor_fetchall, mbind, log; simpl.
  split; [reflexivity | now rewrite lookup_insert_eq].
Qed.

Lemma written_record_is_read_back_witness :
  List.NoDup (keys Scenario.obrien)
  /\ TableStore.rows_of "zone"
       (conn (snd (insert_data_to_table TableStore.execute
                     TableStore.commit "zone" Scenario.obrien
                     Scenario.empty_world)))
     = [[("ID", "1"); ("name", "O'Brien")]].
Proof.
  assert (H : List.NoDup (keys Scenario.obrien))
    by (repeat constructor; simpl; tauto).
  split; [exact H |].
  exact (proj1 (proj2 (written_record_is_read_back "zone" Scenario.obrien
                         Scenario.empty_world H ltac:(discriminate)))).
Defined.


(** ** The rows of the customer pass *)

Lemma customers_batch_rows (l : list row) :
  Forall (fun c => exists d, __format_customer_insert_data c = Ok d) l ->
  batch_rows ["contextid"; "customer"; "status"; "stackid"]
    (map (fun customer_object =>
            gathered (__format_customer_insert_data customer_object)) l)
  = Ok (map customer_row_sent l).
Proof.
  induction 1 as [|c l [d Hd] _ IH]; [reflexivity |].
  cbn [map batch_rows]; rewrite IH, Hd; cbn [gathered].
  unfold __format_customer_insert_data in Hd.
  destruct (getitem c "L") as [live|] eqn:El; [|discriminate Hd].
  destruct (getitem c "NAME") as [name|] eqn:En; [|discriminate Hd].
  destruct (getitem c "ID") as [id|] eqn:Ei; [|discriminate Hd].
  destruct (getitem c "STACKNUMBER") as [stack|] eqn:Es; [|discriminate Hd].
  cbn [bind] in Hd; injection Hd as <-.
  apply getitem_Ok in El, En, Ei, Es.
  unfold customer_row_sent, value_of; rewrite El, En, Ei, Es.
  assert (Hn : (if has_apostrophe name then double_apostrophes name
                else name) = double_apostrophes name).
  { destruct (has_apostrophe name) eqn:Ha; [reflexivity |].
    symmetry; now apply double_apostrophes_none. }
  rewrite Hn; reflexivity.
Qed.

Section CustomerRows.

Context {St : Type}.
Variable db_execute : sql -> St -> result unit * St.
Variable db_commit : St -> result unit * St.
Variable db_fetchall : sql -> St -> result (list row) * St.
Hypothesis Haccept : accepting db_execute db_commit.
Hypothesis Hanswer : answering db_fetchall.

Local Abbreviation W := (World St).

Lemma accepting_warns_only : warns_only db_execute db_commit.
Proof.
  destruct Haccept as [He Hc]; split; intros;
    [rewrite He | rewrite Hc]; reflexivity.
Qed.

Lemma clear_accepted (table : string) (w : W) :
  exists w',
    __clear_table db_execute db_commit table w = (Ok true, w')
    /\ trace w'
       = trace w ++ [EvExecute (statement_text (Truncate table))
                       (Truncate table); EvCommit].
Proof.
  destruct Haccept as [He Hc].
  unfold __clear_table, try_except, mbind, cursor_execute, conn_commit,
    mbind, log, ret; simpl.
  pose proof (He (Truncate table) (conn w)) as H1.
  destruct (db_execute (Truncate table) (conn w)) as [r s];
    simpl in H1; subst r; simpl.
  pose proof (Hc s) as H2.
  destruct (db_commit s) as [r s2]; simpl in H2; subst r; simpl.
  eexists; split; [reflexivity |].
  simpl; now rewrite <- app_assoc.
Qed.

(** X19: on a store that accepts and answers, a customer pass over
    records that can all be formatted returns, and what it sends is the
    [TRUNCATE] of the customers table, then the rows of the customers in
    blocks of at most 250, one row for each fetched record in their
    order, each with the name's apostrophes doubled once, then the query
    that reads the table into the cache, then the refresh of
    [UpdateTracking]. *)
Theorem customer_pass_sends_the_customers (w : W) :
  customers w <> [] ->
  Forall (fun c => exists d, __format_customer_insert_data c = Ok d)
         (customers w) ->
  let out := update_customer_data db_execute db_commit db_fetchall w in
  fst out = Ok tt
  /\ exists blocks current_datetime,
       statements (emitted w (snd out))
       = Truncate "customers"
         :: map (InsertBlock "customers"
                   ["[contextid]"; "[customer]"; "[status]"; "[stackid]"])
                blocks
         ++ [SelectAll "customers";
             UpdateTracking "customers" current_datetime]
       /\ concat blocks = map customer_row_sent (customers w)
       /\ Forall (fun r => (0 < length r <= 250)%nat) blocks.
Proof.
  intros Hsome Hall out; subst out.
  rewrite update_customer_data_eq.
  destruct (clear_accepted "customers" w) as (w1 & -> & Ht1).
  cbv zeta.
  set (results := map (fun customer_object =>
                         gathered (__format_customer_insert_data
                                     customer_object)) (customers w)).
  replace (0 <? Z.of_nat (length results)) with true.
  2:{ symmetry; apply Z.ltb_lt; subst results; rewrite length_map.
      destruct (customers w); [congruence | simpl; lia]. }
  (* the first record gives the columns *)
  assert (Hfirst : exists d,
             first results = Ok (Dict d)
             /\ keys d = ["contextid"; "customer"; "status"; "stackid"]).
  { subst results; destruct (customers w) as [|c cs]; [congruence |].
    inversion Hall as [|? ? [d Hd] _]; subst.
    exists d; cbn [map first]; rewrite Hd; split; [reflexivity |].
    now apply format_customer_keys with c. }
  destruct Hfirst as (d & Hfirst & Hkeys).
  pose proof (customers_batch_rows (customers w) Hall) as Hrows.
  fold results in Hrows; rewrite <- Hkeys in Hrows.
  destruct (insert_data_to_table_batch_blocks db_execute db_commit
              accepting_warns_only "customers" results d
              (map customer_row_sent (customers w)) 250 w1
              Hfirst Hrows ltac:(lia))
    as (Hret & blocks & Hst & Hcat & Hsize & _).
  pose proof (insert_data_to_table_batch_emits db_execute db_commit
                (fun _ => True) "customers" results 250
                ltac:(intros; exact I) I w1) as (evs & Htb & _).
  rewrite (emitted_app _ _ _ Htb), Hkeys in Hst.
  destruct (insert_data_to_table_batch db_execute db_commit "customers"
              results 250 w1) as [r wb] eqn:Hb; cbn [fst snd] in *; subst r.
  destruct (read_answered db_fetchall Hanswer "customers" wb)
    as (cached_rows & w3 & Hread & Ht3 & _).
  (* the refresh *)
  assert (Hrefresh : exists now w4 evs4,
             __update_source_refresh_timestamp db_execute db_commit
               "customers" w3 = (Ok tt, w4)
             /\ trace w4 = trace w3 ++ evs4
             /\ statements evs4 = [UpdateTracking "customers" now]).
  { unfold __update_source_refresh_timestamp; rewrite mbind_eq.
    destruct (__format_current_datetime w3) as [r w0] eqn:Enow.
    assert (Hnow : exists now, r = Ok now /\ trace w0 = trace w3).
    { unfold __format_current_datetime in Enow.
      destruct (clock w3); injection Enow as <- <-; eauto. }
    destruct Hnow as (now & -> & Ht0).
    destruct (flush_warned db_execute db_commit accepting_warns_only
                (statement_text (UpdateTracking "customers" now))
                (UpdateTracking "customers" now) w0)
      as (w4 & evs4 & Hf & Ht4 & Hs4).
    exists now, w4, evs4; rewrite Hf, Ht4, Ht0; auto. }
  destruct Hrefresh as (now & w4 & evs4 & Hrefresh & Ht4 & Hs4).
  rewrite mbind_eq.
  rewrite (try_except_Ok _ _ w1 w3 tt)
    by (rewrite mbind_eq, Hb; exact Hread).
  rewrite (try_except_Ok _ _ _ _ _ Hrefresh).
  split; [reflexivity |].
  exists blocks, now; cbn [snd]; repeat split; auto.
  - rewrite (emitted_app w w4
               ([EvExecute (statement_text (Truncate "customers"))
                   (Truncate "customers"); EvCommit]
                ++ evs
                ++ [EvExecute (statement_text (cache_query "customers"))
                      (cache_query "customers"); EvSetCache "customers"]
                ++ evs4))
      by (rewrite Ht4, Ht3, Htb, Ht1, <- !app_assoc; reflexivity).
    rewrite !statements_app, Hst, Hs4; reflexivity.
  - eapply List.Forall_impl; [|exact Hsize]; simpl; intros r Hr; lia.
Qed.

End CustomerRows.

Lemma customer_pass_sends_the_customers_witness :
  accepting Scenario.nod_execute Scenario.nod_commit
  /\ answering Scenario.nod_fetchall
  /\ fst (update_customer_data Scenario.nod_execute Scenario.nod_commit
            Scenario.nod_fetchall obrien_customer_world) = Ok tt.
Proof.
  assert (Ha : accepting Scenario.nod_execute Scenario.nod_commit)
    by (split; reflexivity).
  assert (Hq : answering Scenario.nod_fetchall)
    by (intros q s; exists []; reflexivity).
  split; [exact Ha | split; [exact Hq |]].
  refine (proj1 (customer_pass_sends_the_customers Scenario.nod_execute
                   Scenario.nod_commit Scenario.nod_fetchall Ha Hq
                   obrien_customer_world ltac:(discriminate) _)).
  repeat constructor; eexists; reflexivity.
Defined.


(** ** The order of the rows of a fabric pass *)

Section FabricWriteOrder.

Context {St : Type}.
Variable db_execute : sql -> St -> result unit * St.
Variable db_commit : St -> result unit * St.
Variable db_fetchall : sql -> St -> result (list row) * St.

Local Abbreviation W := (World St).

(** Side conditions of the lemmas on relations, for a bound on the
    events. *)
Ltac events_side :=
  solve [ intros; apply emits_only_refl
        | intros; eapply emits_only_trans; eassumption
        | intros; eexists [_]; split; [reflexivity | now constructor]
        | intros; now apply emits_only_same_trace
        | intros; exact I
        | intros; reflexivity ].

(** X20: whatever the rows and the store, the writing part of the
    fabric pass sends the active-zone rows of the run before its entity
    rows: what it sends falls into a first part with no [INSERT] into
    [sannaventities] and a second part with no [INSERT] into
    [activezones]. *)
Theorem active_zones_are_written_first
    (formatted : list formated_records) (w : W) :
  exists before after,
    emitted w
      (snd (write_fabric_rows db_execute db_commit db_fetchall formatted w))
    = before ++ after
    /\ Forall (fun ev => inserts_into "sannaventities" ev = false) before
    /\ Forall (fun ev => inserts_into "activezones" ev = false) after.
Proof.
  unfold write_fabric_rows; rewrite mbind_eq.
  match goal with
  | |- context [match ?c w with _ => _ end] =>
      assert (H1 : keeps (emits_only
                            (fun ev => inserts_into "sannaventities" ev
                                       = false)) c)
  end.
  { destruct (negb _); [|apply emits_ret].
    apply emits_bind; [|intros _].
    - apply insert_data_to_table_batch_emits; intros; reflexivity.
    - change (respects
                (fun _ => emits_only
                            (fun ev => inserts_into "sannaventities" ev
                                       = false))
                (__read_sql_tables_to_cache db_fetchall "activezones")).
      eapply respects_read
        with (Q := fun ev => inserts_into "sannaventities" ev = false)
             (P := fun _ => True);
        events_side. }
  specialize (H1 w).
  match goal with
  | |- context [match ?c w with _ => _ end] =>
      destruct (c w) as [[[]|e] w1]
  end; cbn [snd] in H1; destruct H1 as (before & Ht1 & Hb).
  2:{ exists before, []; rewrite app_nil_r; split; [|split; auto].
      now apply emitted_app. }
  match goal with
  | |- context [snd (?c w1)] =>
      assert (H2 : keeps (emits_only
                            (fun ev => inserts_into "activezones" ev
                                       = false)) c)
  end.
  { apply emits_bind; [|intros _].
    - destruct (negb _); [|apply emits_ret].
      apply emits_try_except; [|apply emits_ret].
      apply insert_data_to_table_batch_emits; intros; reflexivity.
    - apply emits_try_except; [|apply emits_ret].
      change (respects
                (fun _ => emits_only
                            (fun ev => inserts_into "activezones" ev
                                       = false))
                (__update_source_refresh_timestamp db_execute db_commit
                   "sannaventities")).
      eapply respects_refresh
        with (Q := fun ev => inserts_into "activezones" ev = false);
        events_side. }
  destruct (H2 w1) as (after & Ht2 & Ha).
  exists before, after; split; [|split; auto].
  apply emitted_app; now rewrite Ht2, Ht1, app_assoc.
Qed.

End FabricWriteOrder.


(** ** The customers table after the customer pass *)

Lemma decode_rows_app (ci : list string) (a b : list (list string)) :
  forall da db,
    TableStore.decode_rows ci a = Ok da ->
    TableStore.decode_rows ci b = Ok db ->
    TableStore.decode_rows ci (a ++ b) = Ok (da ++ db).
Proof.
  induction a as [|x a IH]; intros da db Ha Hb; simpl in *.
  - now injection Ha as <-.
  - destruct (TableStore.decode_row ci x) as [dx|]; [|discriminate Ha].
    simpl in *.
    destruct (TableStore.decode_rows ci a) as [da'|]; [|discriminate Ha].
    simpl in *; injection Ha as <-.
    now rewrite (IH da' db eq_refl Hb).
Qed.

Lemma with_ids_rows (rows : list row) :
  forall next, Forall2 identified (TableStore.with_ids next rows) rows.
Proof.
  induction rows as [|d rows IH]; intros next; simpl; constructor;
    unfold identified; eauto.
Qed.

Section CustomersReplaced.

Variable refused : sql -> bool.
Variable table : string.
Hypothesis Hblocks :
  forall ci rows, refused (InsertBlock table ci rows) = false.

Local Abbreviation W := (World TableStore.t).
Local Abbreviation wo_execute := (warning_on refused).
Local Abbreviation ts_commit := TableStore.commit.
Local Abbreviation ts_fetchall := TableStore.fetchall.

(** A block that the store takes adds the rows it reads in the rows of
    values, each under a new identifier. *)
Lemma flush_block_stored (ci : list string) (p : list (list string))
    (text : string) (w w' : W) :
  try_except
    (cursor_execute wo_execute text (InsertBlock table ci p) ;;
     conn_commit ts_commit)
    (ret tt) w = (Ok tt, w') ->
  exists ds,
    TableStore.decode_rows ci p = Ok ds
    /\ TableStore.rows_of table (conn w')
       = TableStore.rows_of table (conn w)
         ++ TableStore.with_ids (TableStore.next_id (conn w)) ds.
Proof.
  unfold try_except, mbind, cursor_execute, conn_commit, mbind, log,
    warning_on; simpl.
  rewrite Hblocks; simpl.
  destruct (TableStore.decode_rows ci p) as [rs|e] eqn:E; simpl.
  - intros H; injection H as <-; simpl.
    exists rs; split; [reflexivity | apply rows_of_append_rows].
  - rewrite (decode_rows_error _ _ _ E); discriminate.
Qed.

Lemma batch_loop_stored (cols ci : list string) (size : Z)
    (record_list : list pyobj) :
  forall block count pending (w : W) b c p w',
    batch_loop wo_execute ts_commit table cols ci size record_list block
      count pending w = (Ok (b, c, p), w') ->
    count = Z.of_nat (length pending) ->
    c = Z.of_nat (length p)
    /\ exists rows sent ds new,
         batch_rows cols record_list = Ok rows
         /\ pending ++ rows = sent ++ p
         /\ TableStore.decode_rows ci sent = Ok ds
         /\ TableStore.rows_of table (conn w')
            = TableStore.rows_of table (conn w) ++ new
         /\ Forall2 identified new ds.
Proof.
  induction record_list as [|entry rest IH];
    intros block count pending w b c p w' H Hc.
  - simpl in H; injection H as <- <- <- <-; split; [exact Hc |].
    exists [], [], [], []; simpl; rewrite !app_nil_r.
    repeat split; auto; constructor.
  - rewrite batch_loop_cons in H.
    cbn [batch_rows].
    destruct (batch_value_insert cols entry) as [vals|e];
      [|discriminate H].
    destruct (size =? 0); [discriminate H |].
    destruct (((count + 1) mod size =? 0) && negb (count + 1 =? 0)).
    + destruct (try_except _ _ w) as [[u|e] w1] eqn:Hf;
        [|discriminate H].
      destruct u.
      apply flush_block_stored in Hf as (ds1 & Hd1 & Hr1).
      apply IH in H as [Hc' (rows & sent & ds & new & Hb & Hs & Hd & Hr & Hn)];
        [|reflexivity].
      split; [exact Hc' |].
      exists (vals :: rows), ((pending ++ [vals]) ++ sent), (ds1 ++ ds),
        (TableStore.with_ids (TableStore.next_id (conn w)) ds1 ++ new).
      rewrite Hb; cbn [bind]; simpl in Hs.
      repeat split.
      * rewrite <- !app_assoc; simpl; now rewrite <- Hs.
      * now apply decode_rows_app.
      * now rewrite Hr, Hr1, <- app_assoc.
      * apply Forall2_app; [apply with_ids_rows | exact Hn].
    + apply IH in H as [Hc' (rows & sent & ds & new & Hb & Hs & Hd & Hr & Hn)].
      * split; [exact Hc' |].
        exists (vals :: rows), sent, ds, new.
        rewrite Hb; cbn [bind]; repeat split; auto.
        now rewrite <- Hs, <- app_assoc.
      * rewrite length_app; simpl; lia.
Qed.

(** The batched writer, when it returns, has added the rows the store
    reads in the rows of values of the records, in their order. *)
Lemma insert_data_to_table_batch_stored (record_list : list pyobj)
    (size : Z) (w w' : W) :
  insert_data_to_table_batch wo_execute ts_commit table record_list size w
  = (Ok tt, w') ->
  exists d rows ds new,
    first record_list = Ok (Dict d)
    /\ batch_rows (keys d) record_list = Ok rows
    /\ TableStore.decode_rows (batch_column_insert (keys d)) rows = Ok ds
    /\ TableStore.rows_of table (conn w')
       = TableStore.rows_of table (conn w) ++ new
    /\ Forall2 identified new ds.
Proof.
  rewrite insert_data_to_table_batch_eq.
  destruct (first record_list) as [[d|e]|e] eqn:Hfirst; try discriminate.
  destruct (batch_loop _ _ _ _ _ _ _ _ _ _ w) as [[[[b c] p]|e] w1] eqn:Hl;
    [|discriminate].
  apply batch_loop_stored in Hl
    as [Hc (rows & sent & ds & new & Hb & Hs & Hd & Hr & Hn)];
    [|reflexivity].
  simpl in Hs; intros Hf.
  destruct (Z.ltb_spec 0 c) as [Hlt|Hle].
  - apply flush_block_stored in Hf as (ds1 & Hd1 & Hr1).
    exists d, rows, (ds ++ ds1),
      (new ++ TableStore.with_ids (TableStore.next_id (conn w1)) ds1).
    repeat split; auto.
    + rewrite Hs; now apply decode_rows_app.
    + now rewrite Hr1, Hr, <- app_assoc.
    + apply Forall2_app; [exact Hn | apply with_ids_rows].
  - injection Hf as <-.
    assert (p = []) as -> by (destruct p; [reflexivity | simpl in *; lia]).
    rewrite app_nil_r in Hs; subst sent.
    exists d, rows, ds, new; repeat split; auto.
Qed.

End CustomersReplaced.

Lemma literal_between (v : string) :
  TableStore.literal ("'" +:+ v +:+ "'")
  = match TableStore.undouble v with
    | Some x => Ok x
    | None => Raise DatabaseError
    end.
Proof.
  unfold TableStore.literal; now rewrite (strip_ends_between "'" "'").
Qed.

(** What the store reads in the row of values of a customer. *)
Lemma decode_customer_row (c d : row) :
  TableStore.decode_row
    ["[contextid]"; "[customer]"; "[status]"; "[stackid]"]
    (customer_row_sent c) = Ok d ->
  forall identifier,
    customer_as_stored identifier c = Some (("ID", identifier) :: d).
Proof.
  unfold TableStore.decode_row, customer_row_sent, customer_as_stored.
  cbn [length Nat.eqb TableStore.literals].
  rewrite literal_quoted, !literal_between.
  destruct (TableStore.undouble (value_of c "ID")) as [contextid|];
    [|discriminate].
  destruct (TableStore.undouble (value_of c "STACKNUMBER")) as [stackid|].
  - destruct (String.eqb (value_of c "L") "Y"); simpl;
      intros H; injection H as <-; reflexivity.
  - destruct (String.eqb (value_of c "L") "Y"); discriminate.
Qed.

Lemma decode_customer_rows (l : list row) :
  forall ds,
    TableStore.decode_rows
      ["[contextid]"; "[customer]"; "[status]"; "[stackid]"]
      (map customer_row_sent l) = Ok ds ->
    Forall2
      (fun c d =>
         forall identifier,
           customer_as_stored identifier c = Some (("ID", identifier) :: d))
      l ds.
Proof.
  induction l as [|c l IH]; intros ds H; cbn [map TableStore.decode_rows] in H.
  - injection H as <-; constructor.
  - destruct (TableStore.decode_row _ (customer_row_sent c)) as [d|] eqn:Ed;
      [|discriminate H].
    cbn [bind] in H.
    destruct (TableStore.decode_rows _ (map customer_row_sent l)) as [ds'|];
      [|discriminate H].
    injection H as <-; constructor; [|now apply IH].
    now apply decode_customer_row.
Qed.

(** The records the batched writer could make rows of were all
    formatted. *)
Lemma batch_rows_formatted (cols : list string) (l : list row) :
  (exists c, In c cols /\ column_written c = true) ->
  forall rows,
    batch_rows cols
      (map (fun customer_object =>
              gathered (__format_customer_insert_data customer_object)) l)
    = Ok rows ->
    Forall (fun c => exists d, __format_customer_insert_data c = Ok d) l.
Proof.
  intros Hcols; induction l as [|c l IH]; intros rows H; [constructor |].
  cbn [map batch_rows] in H.
  destruct (__format_customer_insert_data c) as [d|e] eqn:Ec.
  - constructor; [eauto |].
    cbn [gathered] in H.
    destruct (batch_value_insert cols (Dict d)); [|discriminate H].
    cbn [bind] in H.
    destruct (batch_rows cols _) as [rows'|] eqn:Er; [|discriminate H].
    now apply IH with rows'.
  - cbn [gathered] in H.
    now rewrite batch_value_insert_exception in H by exact Hcols.
Qed.

Section CustomersTable.

Variable refused : sql -> bool.
Hypothesis Hblocks :
  forall ci rows, refused (InsertBlock "customers" ci rows) = false.

Local Abbreviation W := (World TableStore.t).
Local Abbreviation wo_execute := (warning_on refused).
Local Abbreviation ts_commit := TableStore.commit.
Local Abbreviation ts_fetchall := TableStore.fetchall.

(** The store of tables answers the query of a table, and is left as it
    was. *)
Lemma read_table_store (table_name : string) (w : W) :
  exists w',
    __read_sql_tables_to_cache ts_fetchall table_name w = (Ok tt, w')
    /\ conn w' = conn w.
Proof.
  unfold __read_sql_tables_to_cache, mbind, try_except, cursor_fetchall,
    mbind, log.
  destruct (negb (String.eqb table_name "activezones")); simpl;
    eexists; split; reflexivity.
Qed.

Lemma refresh_keeps_tables (data_label : string) (w : W) :
  conn (snd (try_except
               (__update_source_refresh_timestamp wo_execute ts_commit
                  data_label)
               (ret tt) w))
  = conn w.
Proof.
  unfold try_except, __update_source_refresh_timestamp, mbind,
    __format_current_datetime, try_except, cursor_execute, conn_commit,
    mbind, log, warning_on.
  destruct (clock w); simpl;
    destruct (refused _); reflexivity.
Qed.

(** A clearing that reports success has left the table empty. *)
Lemma clear_table_emptied (table : string) (w w1 : W) (b : bool) :
  __clear_table wo_execute ts_commit table w = (Ok b, w1) ->
  b = true -> TableStore.rows_of table (conn w1) = [].
Proof.
  unfold __clear_table, try_except, mbind, cursor_execute, conn_commit,
    mbind, log, warning_on, ret; simpl.
  destruct (refused (Truncate table)); simpl.
  - intros H; injection H as <- <-; discriminate.
  - intros H _; injection H as _ <-; simpl.
    unfold TableStore.rows_of; simpl.
    now rewrite lookup_key_setitem_eq.
Qed.


End CustomersTable.




(** ** The statements of a pass, as texts *)

Lemma plain_paired (s : string) :
  has_apostrophe s = false -> apostrophes_paired s = true.
Proof.
  induction s as [|c s IH]; simpl; [reflexivity |].
  destruct (Ascii.eqb c apostrophe); [discriminate | exact IH].
Qed.

Lemma closed_literal_doubled (v : string) :
  closed_literal ("'" +:+ double_apostrophes v +:+ "'").
Proof. exists (double_apostrophes v); split; [reflexivity |].
  apply double_apostrophes_paired. Qed.

Lemma closed_literal_plain (v : string) :
  has_apostrophe v = false -> closed_literal ("'" +:+ v +:+ "'").
Proof. intros H; exists v; split; [reflexivity | now apply plain_paired]. Qed.

Lemma value_of_getitem (d : row) (k v : string) :
  getitem d k = Ok v -> value_of d k = v.
Proof. intros H; apply getitem_Ok in H; unfold value_of; now rewrite H. Qed.

Section Statements.

Context {St : Type}.
Variable db_execute : sql -> St -> result unit * St.
Variable db_commit : St -> result unit * St.
Variable db_fetchall : sql -> St -> result (list row) * St.
Variable allowed : list write.

Local Abbreviation W := (World St).

Lemma flush_sends (q : sql) :
  writes_within allowed (EvExecute (statement_text q) q) ->
  literals_closed q ->
  keeps (emits_only (sends_one_statement allowed))
    (try_except
       (cursor_execute db_execute (statement_text q) q ;;
        conn_commit db_commit)
       (ret tt)).
Proof.
  intros Hw Hc; apply emits_flush; [|exact I].
  split; [reflexivity | split; assumption].
Qed.

(** The single-row writer doubles the apostrophes of what it sends. *)
Lemma insert_sends (table_name : string) (record_dict : row) :
  List.NoDup (keys record_dict) ->
  Forall bracketed_name (batch_column_insert (keys record_dict)) ->
  In (Adds table_name) allowed ->
  keeps (emits_only (sends_one_statement allowed))
    (insert_data_to_table db_execute db_commit table_name record_dict).
Proof.
  intros Hnd Hci Hin; unfold insert_data_to_table.
  apply emits_bind_lift; intros [[ci vi] d'] H; cbn [fst snd].
  apply flush_sends; [exact Hin |].
  pose proof (insert_columns_values_doubled _ Hnd _ _ _ _ _ _ H) as ->.
  pose proof (insert_columns_values_shape _ _ _ _ _ _ _ H) as [-> _].
  cbn [app literals_closed]; split; [exact Hci |].
  apply List.Forall_forall; intros v Hv.
  apply in_map_iff in Hv as (c & <- & _); apply closed_literal_doubled.
Qed.

Lemma read_sends (table_name : string) :
  keeps (emits_only (sends_one_statement allowed))
    (__read_sql_tables_to_cache db_fetchall table_name).
Proof.
  unfold __read_sql_tables_to_cache.
  apply emits_bind.
  - apply emits_try_except; [|apply emits_raise].
    apply emits_cursor_fetchall.
    destruct (negb _); repeat split.
  - intros results; apply emits_bind; [now apply emits_log |].
    intros _; apply emits_silent; reflexivity.
Qed.

Lemma search_cache_sends (table key value : string) :
  keeps (emits_only (sends_one_statement allowed))
    (@search_cache St table key value).
Proof.
  unfold search_cache; apply emits_bind; [|intros; apply emits_lift].
  unfold cached; apply emits_bind; [now apply emits_log |].
  intros _; apply emits_silent; intros w.
  destruct (_ !! table); reflexivity.
Qed.

Lemma refresh_sends (data_label : string) :
  In (Changes "UpdateTracking") allowed ->
  keeps (emits_only (sends_one_statement allowed))
    (try_except
       (__update_source_refresh_timestamp db_execute db_commit data_label)
       (ret tt)).
Proof.
  intros Hin; apply emits_try_except; [|apply emits_ret].
  unfold __update_source_refresh_timestamp.
  apply emits_bind.
  - apply emits_silent; intros w; unfold __format_current_datetime.
    destruct (clock w); reflexivity.
  - intros now; apply flush_sends; [exact Hin | exact I].
Qed.

Lemma write_then_read_sends (table_name : string) (record_dict : row) :
  List.NoDup (keys record_dict) ->
  Forall bracketed_name (batch_column_insert (keys record_dict)) ->
  In (Adds table_name) allowed ->
  keeps (emits_only (sends_one_statement allowed))
    (try_except
       (insert_data_to_table db_execute db_commit table_name record_dict ;;
        __read_sql_tables_to_cache db_fetchall table_name)
       (ret tt)).
Proof.
  intros Hnd Hci Hin; apply emits_try_except; [|apply emits_ret].
  apply emits_bind; [now apply insert_sends |].
  intros _; apply read_sends.
Qed.

End Statements.

(** The update set of a stack holds location columns only, each with the
    incoming value. *)
Lemma differing_columns_values (incoming cached : row) :
  Forall (fun cv => In (fst cv) mutable_columns
                    /\ lookup_key (fst cv) incoming = Some (snd cv))
    (differing_columns incoming cached).
Proof.
  unfold differing_columns, mutable_columns; cbn [flat_map].
  rewrite app_nil_r.
  repeat apply Forall_app_2;
    match goal with
    | |- Forall _ (match lookup_key ?c incoming with _ => _ end) =>
        destruct (lookup_key c incoming) as [a|] eqn:Ea; [|constructor];
        destruct (lookup_key c cached) as [b|]; [|constructor];
        destruct (String.eqb a b); constructor; [|constructor];
        split; [simpl; tauto | exact Ea]
    end.
Qed.

Section StackStatements.

Context {St : Type}.
Variable db_execute : sql -> St -> result unit * St.
Variable db_commit : St -> result unit * St.
Variable db_fetchall : sql -> St -> result (list row) * St.

Local Abbreviation W := (World St).
Local Abbreviation Q := (sends_one_statement stack_pass_writes).

Lemma update_stack_record_sends (record : row) :
  plain_stack_record record ->
  keeps (emits_only Q)
    (update_stack_record db_execute db_commit db_fetchall record).
Proof.
  intros Hplain; unfold update_stack_record.
  apply emits_bind_lift; intros stack Hs.
  apply emits_bind_lift; intros l Hl.
  apply emits_bind_lift; intros p Hp.
  apply emits_bind_lift; intros r Hr.
  apply value_of_getitem in Hs, Hl, Hp, Hr.
  unfold plain_stack_record in Hplain.
  rewrite !List.Forall_cons_iff, Hs, Hl, Hp, Hr in Hplain.
  destruct Hplain as (Hs' & Hl' & Hp' & Hr' & _).
  apply emits_bind; [apply search_cache_sends |].
  intros [|entry rest].
  - apply write_then_read_sends; [| |simpl; tauto].
    + repeat constructor; simpl; intuition discriminate.
    + repeat constructor; eexists; split; reflexivity.
  - apply emits_bind_lift; intros [u needed] Hu; cbn [fst snd].
    destruct needed; [|apply emits_ret].
    unfold update_data_table.
    apply flush_sends; [simpl; tauto |].
    apply stacks_columns_update_spec in Hu as [-> _].
    split; [|exists stack; split; [reflexivity | now apply plain_paired]].
    eapply List.Forall_impl; [|apply differing_columns_values].
    intros [c v] [Hin Hv]; split; [exact Hin |].
    cbn [fst snd] in *.
    simpl in Hin; destruct Hin as [<- | [<- | [<- | []]]];
      cbn in Hv; injection Hv as <-; now apply plain_paired.
Qed.

Lemma update_web_sends (webpoolid web : string) :
  keeps (emits_only Q) (update_web db_execute db_commit webpoolid web).
Proof.
  unfold update_web.
  apply emits_bind; [apply search_cache_sends |].
  intros [|found rest]; [|apply emits_ret].
  apply emits_try_except; [|apply emits_ret].
  apply insert_sends; [| |simpl; tauto].
  - repeat constructor; simpl; intuition discriminate.
  - repeat constructor; eexists; split; reflexivity.
Qed.

Lemma update_webpool_sends (record : row) (location : string) :
  keeps (emits_only Q)
    (update_webpool db_execute db_commit db_fetchall record location).
Proof.
  unfold update_webpool.
  apply emits_bind; [apply emits_lift |]; intros name.
  apply emits_bind; [apply emits_lift |]; intros stack.
  apply emits_bind; [apply search_cache_sends |]; intros found.
  apply emits_bind.
  - destruct found as [|f rest]; [|apply emits_lift].
    apply emits_bind; [|intros _].
    { apply write_then_read_sends; [| |simpl; tauto].
      - repeat constructor; simpl; intuition discriminate.
      - repeat constructor; eexists; split; reflexivity. }
    apply emits_bind; [apply search_cache_sends |]; intros again.
    apply emits_bind; [apply emits_lift |]; intros f.
    apply emits_lift.
  - intros webpoolid.
    apply emits_bind; [apply emits_lift |]; intros webs.
    apply emits_bind; [|intros _; apply read_sends].
    apply emits_for_each; intros web _; apply update_web_sends.
Qed.

Lemma update_stack_data_sends (w : W) :
  Forall plain_stack_record (stacks w) ->
  emits_only Q w
    (snd (update_stack_data db_execute db_commit db_fetchall w)).
Proof.
  intros Hplain; unfold update_stack_data.
  rewrite mbind_eq; cbn [fst snd].
  apply emits_bind; [|intros _; apply refresh_sends; simpl; tauto].
  apply emits_for_each; intros record Hin.
  apply emits_bind.
  - apply update_stack_record_sends.
    now apply (proj1 (List.Forall_forall _ _) Hplain).
  - intros _; apply emits_for_each; intros location _.
    apply update_webpool_sends.
Qed.

End StackStatements.

Section BatchStatements.

Context {St : Type}.
Variable db_execute : sql -> St -> result unit * St.
Variable db_commit : St -> result unit * St.
Variable allowed : list write.
Variable table_name : string.
Hypothesis Hadds : In (Adds table_name) allowed.

Local Abbreviation W := (World St).
Local Abbreviation Q := (sends_one_statement allowed).

(** The text of a block is the text of its statement. *)
Lemma block_statement (ci : list string) (rows : list (list string))
    (block : string) :
  Forall bracketed_name ci ->
  block = (insert_head table_name (join "," ci) +:+ CRLF)
          +:+ concat_all (map block_line rows) ->
  Forall (Forall closed_literal) rows ->
  Q (EvExecute (slice_to block (-3)) (InsertBlock table_name ci rows)).
Proof.
  intros Hci -> Hrows; split; [|split; [exact Hadds | now split]].
  cbn [statement_text]; now rewrite !append_assoc.
Qed.

Lemma batch_loop_sends (cols ci : list string) (size : Z)
    (record_list : list pyobj) :
  Forall bracketed_name ci ->
  Forall (fun entry =>
            forall vals, batch_value_insert cols entry = Ok vals ->
                         Forall closed_literal vals) record_list ->
  forall (block : string) (count : Z) (pending : list (list string))
         (w : W),
    block = (insert_head table_name (join "," ci) +:+ CRLF)
            +:+ concat_all (map block_line pending) ->
    Forall (Forall closed_literal) pending ->
    let out :=
      batch_loop db_execute db_commit table_name cols ci size record_list
        block count pending w in
    emits_only Q w (snd out)
    /\ forall b c p,
         fst out = Ok (b, c, p) ->
         b = (insert_head table_name (join "," ci) +:+ CRLF)
             +:+ concat_all (map block_line p)
         /\ Forall (Forall closed_literal) p.
Proof.
  intros Hci.
  induction 1 as [|entry rest Hentry _ IH];
    intros block count pending w Hb Hp.
  - simpl; split; [apply emits_only_refl |].
    intros b c p H; injection H as <- <- <-; auto.
  - rewrite batch_loop_cons.
    destruct (batch_value_insert cols entry) as [vals|e] eqn:E.
    2:{ simpl; split; [apply emits_only_refl | discriminate]. }
    assert (Hb' : block +:+ block_line vals
                  = (insert_head table_name (join "," ci) +:+ CRLF)
                    +:+ concat_all (map block_line (pending ++ [vals]))).
    { rewrite Hb, map_app, concat_all_app, append_assoc; simpl.
      now rewrite append_nil_r. }
    assert (Hp' : Forall (Forall closed_literal) (pending ++ [vals])).
    { apply Forall_app_2; [exact Hp |].
      constructor; [now apply Hentry | constructor]. }
    destruct (size =? 0).
    { simpl; split; [apply emits_only_refl | discriminate]. }
    destruct (((count + 1) mod size =? 0) && negb (count + 1 =? 0)).
    2:{ now apply IH. }
    pose proof (emits_flush db_execute db_commit Q _ _
                  (block_statement ci _ _ Hci Hb' Hp') I w) as Hf.
    destruct (try_except _ _ w) as [[u|e] w1]; simpl in Hf.
    + destruct (IH (insert_head table_name (join "," ci) +:+ CRLF) 0 [] w1)
        as [He Hs].
      * simpl; now rewrite append_nil_r.
      * constructor.
      * split; [eapply emits_only_trans; eassumption | exact Hs].
    + simpl; split; [exact Hf | discriminate].
Qed.

(** The batched writer sends the values as they are: the statements are
    closed when the values of the records are. *)
Lemma insert_data_to_table_batch_sends (record_list : list pyobj)
    (size : Z) :
  (forall d,
     first record_list = Ok (Dict d) ->
     Forall bracketed_name (batch_column_insert (keys d))
     /\ Forall (fun entry =>
                  forall vals, batch_value_insert (keys d) entry = Ok vals ->
                               Forall closed_literal vals) record_list) ->
  keeps (emits_only Q)
    (insert_data_to_table_batch db_execute db_commit table_name
       record_list size).
Proof.
  intros Hrows w; rewrite insert_data_to_table_batch_eq.
  destruct (first record_list) as [[d|e]|e]; try apply emits_only_refl.
  destruct (Hrows d eq_refl) as [Hci Hvals].
  destruct (batch_loop_sends (keys d) (batch_column_insert (keys d)) size
              record_list Hci Hvals
              (insert_head table_name
                 (join "," (batch_column_insert (keys d))) +:+ CRLF)
              0 [] w) as [He Hs].
  { simpl; now rewrite append_nil_r. }
  { constructor. }
  destruct (batch_loop _ _ _ _ _ _ _ _ _ _ w) as [[[[b c] p]|e] w1];
    simpl in *; [|exact He].
  destruct (Hs b c p eq_refl) as [Hb Hp].
  destruct (0 <? c); [|exact He].
  eapply emits_only_trans; [exact He |].
  apply emits_flush; [|exact I].
  now apply block_statement.
Qed.

End BatchStatements.

(** The row of values of a formatted customer is closed when its
    identifier and its stack hold no apostrophe. *)
Lemma customer_row_closed (customer : row) (cols vals : list string) :
  plain_customer customer ->
  batch_value_insert cols
    (gathered (__format_customer_insert_data customer)) = Ok vals ->
  Forall closed_literal vals.
Proof.
  intros [Hid Hstack].
  destruct (__format_customer_insert_data customer) as [d|e] eqn:Hd.
  2:{ cbn [gathered]; clear; revert vals.
      induction cols as [|c cols IH]; intros vals; simpl.
      - intros H; injection H as <-; constructor.
      - destruct (column_written c); [discriminate | apply IH]. }
  cbn [gathered].
  assert (Hvalues : forall c v, getitem d c = Ok v ->
                                closed_literal ("'" +:+ v +:+ "'")).
  { unfold __format_customer_insert_data in Hd.
    destruct (getitem customer "L") as [live|] eqn:El; [|discriminate Hd].
    destruct (getitem customer "NAME") as [name|] eqn:En; [|discriminate Hd].
    destruct (getitem customer "ID") as [id|] eqn:Ei; [|discriminate Hd].
    destruct (getitem customer "STACKNUMBER") as [stack|] eqn:Es;
      [|discriminate Hd].
    cbn [bind] in Hd; injection Hd as <-.
    apply value_of_getitem in Ei, Es; rewrite Ei in Hid; rewrite Es in Hstack.
    intros c v Hv; apply getitem_Ok in Hv; cbn [lookup_key] in Hv.
    repeat match type of Hv with
           | (if ?b then _ else _) = _ => destruct b
           end; try discriminate Hv; injection Hv as <-.
    - now apply closed_literal_plain.
    - destruct (has_apostrophe name) eqn:Ha;
        [apply closed_literal_doubled | now apply closed_literal_plain].
    - destruct (String.eqb live "Y"); now apply closed_literal_plain.
    - now apply closed_literal_plain. }
  clear Hd; revert vals; induction cols as [|c cols IH]; intros vals; simpl.
  - intros H; injection H as <-; constructor.
  - destruct (column_written c); [|apply IH].
    destruct (getitem d c) as [v|] eqn:Ev; [|discriminate].
    cbn [bind].
    destruct (batch_value_insert cols (Dict d)) as [vs|]; [|discriminate].
    cbn [bind]; intros H; injection H as <-.
    constructor; [now apply Hvalues with c | now apply IH].
Qed.

Section CustomerStatements.

Context {St : Type}.
Variable db_execute : sql -> St -> result unit * St.
Variable db_commit : St -> result unit * St.
Variable db_fetchall : sql -> St -> result (list row) * St.

Local Abbreviation W := (World St).
Local Abbreviation Q := (sends_one_statement customer_pass_writes).

Lemma update_customer_data_sends (w : W) :
  Forall plain_customer (customers w) ->
  emits_only Q w
    (snd (update_customer_data db_execute db_commit db_fetchall w)).
Proof.
  intros Hplain; unfold update_customer_data.
  rewrite mbind_eq; unfold __customer_lookup_async at 1; cbn [fst snd].
  apply emits_bind.
  { apply clear_table_emits; [|exact I].
    split; [reflexivity | split; [simpl; tauto | exact I]]. }
  intros delete_status_customer.
  destruct (negb delete_status_customer); [apply emits_raise |].
  destruct (0 <? _); [|apply emits_ret].
  apply emits_bind; [|intros _; apply refresh_sends; simpl; tauto].
  apply emits_try_except; [|apply emits_ret].
  apply emits_bind; [|intros _; apply read_sends].
  apply insert_data_to_table_batch_sends; [simpl; tauto |].
  intros d Hfirst; split.
  { destruct (customers w) as [|c cs]; [discriminate Hfirst |].
    cbn [map first] in Hfirst.
    destruct (__format_customer_insert_data c) as [d0|e0] eqn:Ec;
      [|discriminate Hfirst].
    injection Hfirst as <-.
    rewrite (format_customer_keys c d0 Ec).
    repeat constructor; eexists; split; reflexivity. }
  apply List.Forall_forall; intros entry Hin vals Hvals.
  apply in_map_iff in Hin as (customer & <- & Hin).
  apply customer_row_closed with customer (keys d); [|exact Hvals].
  now apply (proj1 (List.Forall_forall _ _) Hplain).
Qed.

End CustomerStatements.

Section PassStatements.

Context {St : Type}.
Variable db_execute : sql -> St -> result unit * St.
Variable db_commit : St -> result unit * St.
Variable db_fetchall : sql -> St -> result (list row) * St.

Local Abbreviation W := (World St).


End PassStatements.

